(** * Hyperlane rebalancer: route extraction, message generation, verification

    A shallow embedding of the Go packages [types], [client], [parser],
    [generator] and [verifier] of the rebalancer, and the properties of the
    route pipeline proved over it.

    Conventions of the embedding:
    - a Go [string] is a [string] of 8-bit characters, a [[]byte] is a
      [list byte], [uint32] domains are [N], [math.Int] amounts are [Z];
    - a Go call ends in one of three ways, see [go]: it returns a value,
      it returns a non-nil [error], or it panics;
    - decoders of other libraries (encoding/json, protobuf, bech32, the
      big-integer parser) are the fields of the class [Externals]; the
      properties are stated for an arbitrary instance of it, the examples
      run on the instance of the module [Sample]. *)

From Stdlib Require Import ZArith NArith Ascii String Strings.Byte List Lia.
From stdpp Require Import base option list strings gmap pretty sorting.

Open Scope string_scope.
Open Scope list_scope.

(** ** Outcomes of a Go call *)

(** Run-time panics the modelled code can raise. *)
Inductive panic : Type :=
| SliceBoundsOutOfRange (low : Z)   (* s[low:] with low outside 0..len(s) *)
| SliceToArrayLength (len : nat)    (* slice shorter than the array converted to *)
| NilPointerDereference             (* field access through a nil pointer *)
| IntOverflow.                      (* math.Int result wider than 256 bits *)

(** The error values built with [fmt.Errorf] in the modelled packages, one
    constructor per format string. *)
Inductive error : Type :=
| ErrMetadataJSON                        (* failed to parse custom_hook_metadata as JSON *)
| ErrRequired (field : string)           (* <field> is required *)
| ErrConfigNil                           (* config is nil *)
| ErrDomainNotConfigured (domain : N)    (* domain %d is not configured in whitelist *)
| ErrNoWhitelistedAddresses (domain : N) (* domain %d has no whitelisted addresses *)
| ErrNotWhitelisted (recipient : string) (domain : N)
| ErrQueryTransactions                   (* failed to query transactions *)
| ErrReadConfig                          (* failed to read config file *)
| ErrConfigJSON                          (* failed to parse config JSON *)
| ErrNoRoutingInfo (tx : string)         (* route from tx %s has no routing info *)
| ErrInvalidAmount (amount tx : string)  (* invalid amount %s in route from tx %s *)
| ErrInvalidTokenID (tx : string) (cause : error)
| ErrInvalidRecipient (tx : string) (cause : error)
| ErrTokenIDHex                          (* failed to decode token ID as hex *)
| ErrTokenIDLength (got : nat)           (* token ID must be exactly 32 bytes, got %d bytes *)
| ErrDecodeEVM                           (* failed to decode EVM address *)
| ErrDecodeBech32.                       (* failed to decode bech32 address *)

Inductive go (A : Type) : Type :=
| Ok (a : A)
| Err (e : error)
| Panic (p : panic).
Arguments Ok {A} a.
Arguments Err {A} e.
Arguments Panic {A} p.

#[global] Instance go_ret : MRet go := fun A a => Ok a.
#[global] Instance go_bind : MBind go := fun A B f m =>
  match m with
  | Ok a => f a
  | Err e => Err e
  | Panic p => Panic p
  end.

(** [wrap w m]: the [fmt.Errorf("...: %w", err)] of a caller around a callee's error. *)
Definition wrap {A} (w : error -> error) (m : go A) : go A :=
  match m with
  | Err e => Err (w e)
  | other => other
  end.

(** ** Package strings (on ASCII) *)

Fixpoint strip_prefix (prefix s : string) : option string :=
  match prefix with
  | EmptyString => Some s
  | String a prefix' =>
      match s with
      | String b s' => if Ascii.eqb a b then strip_prefix prefix' s' else None
      | EmptyString => None
      end
  end.

Definition HasPrefix (s prefix : string) : bool :=
  match strip_prefix prefix s with Some _ => true | None => false end.

Definition TrimPrefix (s prefix : string) : string :=
  match strip_prefix prefix s with Some rest => rest | None => s end.

Definition isUpper (c : ascii) : bool :=
  let n := N_of_ascii c in (65 <=? n)%N && (n <=? 90)%N.

Definition toLowerAscii (c : ascii) : ascii :=
  if isUpper c then ascii_of_N (N_of_ascii c + 32) else c.

Fixpoint ToLower (s : string) : string :=
  match s with
  | EmptyString => EmptyString
  | String c s' => String (toLowerAscii c) (ToLower s')
  end.

(** White space of [unicode.IsSpace] below 0x80: tab, LF, VT, FF, CR, space. *)
Definition isSpace (c : ascii) : bool :=
  let n := N_of_ascii c in ((9 <=? n)%N && (n <=? 13)%N) || (n =? 32)%N.

Fixpoint TrimLeftSpace (s : string) : string :=
  match s with
  | EmptyString => EmptyString
  | String c s' => if isSpace c then TrimLeftSpace s' else s
  end.

Fixpoint TrimRightSpace (s : string) : string :=
  match s with
  | EmptyString => EmptyString
  | String c s' =>
      match TrimRightSpace s' with
      | EmptyString => if isSpace c then EmptyString else String c EmptyString
      | kept => String c kept
      end
  end.

Definition TrimSpace (s : string) : string := TrimRightSpace (TrimLeftSpace s).

Fixpoint Repeat (s : string) (count : nat) : string :=
  match count with
  | O => EmptyString
  | S n => s +:+ Repeat s n
  end.

(** [s[n:]] on a string at least [n] long. *)
Fixpoint string_drop (n : nat) (s : string) : string :=
  match n, s with
  | S n', String _ s' => string_drop n' s'
  | _, _ => s
  end.

(** Case-insensitive equality of ASCII strings, as [strings.EqualFold]. *)
Fixpoint EqualFold (s t : string) : bool :=
  match s, t with
  | EmptyString, EmptyString => true
  | String a s', String b t' =>
      Ascii.eqb (toLowerAscii a) (toLowerAscii b) && EqualFold s' t'
  | _, _ => false
  end.

(** ** Package encoding/hex, and the [%x] verb of fmt on byte slices *)

Definition hextable : string := "0123456789abcdef".

Definition hexDigit (n : N) : ascii :=
  match String.get (N.to_nat n) hextable with
  | Some c => c
  | None => "0"%char
  end.

Definition fromHexChar (c : ascii) : option N :=
  let n := N_of_ascii c in
  if (48 <=? n)%N && (n <=? 57)%N then Some (n - 48)%N
  else if (97 <=? n)%N && (n <=? 102)%N then Some (n - 97 + 10)%N
  else if (65 <=? n)%N && (n <=? 70)%N then Some (n - 65 + 10)%N
  else None.

Fixpoint EncodeToString (src : list byte) : string :=
  match src with
  | [] => EmptyString
  | b :: rest =>
      String (hexDigit (Byte.to_N b / 16))
        (String (hexDigit (Byte.to_N b mod 16)) (EncodeToString rest))
  end.

(** [None] stands for either error of [hex.DecodeString]: an odd length or
    a character that is no hex digit. *)
Fixpoint DecodeString (s : string) : option (list byte) :=
  match s with
  | EmptyString => Some []
  | String _ EmptyString => None
  | String a (String b rest) =>
      hi ← fromHexChar a;
      lo ← fromHexChar b;
      v ← Byte.of_N (16 * hi + lo);
      bytes ← DecodeString rest;
      Some (v :: bytes)
  end.

(** ** Byte slices: make, slicing from an index, copy *)

Definition make (n : nat) : list byte := replicate n x00.

(** [copy(dst[low:], src)]: panics when [low] is outside [0..len(dst)],
    otherwise overwrites min(len(dst)-low, len(src)) bytes from [low] on. *)
Definition copy_from (dst : list byte) (low : Z) (src : list byte) : go (list byte) :=
  if ((low <? 0) || (Z.of_nat (length dst) <? low))%Z then
    Panic (SliceBoundsOutOfRange low)
  else
    let k := Z.to_nat low in
    let n := Nat.min (length dst - k) (length src) in
    Ok (take k dst ++ take n src ++ drop (k + n) dst).

(** The idiom used three times in the code base:
    [padded := make([]byte, 32); copy(padded[32-len(b):], b)]. *)
Definition leftPad32 (b : list byte) : go (list byte) :=
  copy_from (make 32) (32 - Z.of_nat (length b)) b.

(** [util.HexAddress] is [[32]byte]; converting a slice to it panics when the
    slice is shorter than 32 and keeps its first 32 bytes otherwise. *)
Definition HexAddress : Type := list byte.

Definition toHexAddress (b : list byte) : go HexAddress :=
  if (length b <? 32)%nat then Panic (SliceToArrayLength (length b))
  else Ok (take 32 b).

(** ** math.Int *)

Definition MaxBitLen : Z := 256.

(** [Int.String]: decimal, with a leading minus sign for negatives. *)
Definition Int_String (i : Z) : string := pretty i.

(** [Int.Add] panics when the sum needs more than [MaxBitLen] bits. *)
Definition Int_Add (i i2 : Z) : go Z :=
  let sum := (i + i2)%Z in
  if (Z.abs sum <? 2 ^ MaxBitLen)%Z then Ok sum else Panic IntOverflow.

(** ** Package types: routes *)

(** [RouteInfo]: the routing information parsed from custom_hook_metadata.
    [ri_Amount] is optional and overrides the received amount; the empty
    string is its absent value. *)
Record RouteInfo : Type := {
  ri_DestinationDomain : N;
  ri_Recipient : string;
  ri_TokenID : string;
  ri_Amount : string
}.

(** [HyperlaneRoute]; [hr_RouteInfo] is a pointer in Go, [None] is nil. *)
Record HyperlaneRoute : Type := {
  hr_TxHash : string;
  hr_BlockHeight : Z;
  hr_From : string;
  hr_Amount : string;
  hr_Denom : string;
  hr_CustomHookMetadata : string;
  hr_RouteInfo : option RouteInfo
}.

Record Routes : Type := {
  rs_Routes : list HyperlaneRoute;
  rs_TotalAmount : string;
  rs_MultisigAddr : string
}.

(** ** Messages and transactions of the chain libraries *)

Record MsgRemoteTransfer : Type := {
  msg_Sender : string;
  msg_TokenId : HexAddress;
  msg_DestinationDomain : N;
  msg_Recipient : HexAddress;
  msg_Amount : Z;
  msg_CustomHookMetadata : string
}.

Record Coin : Type := { coin_Denom : string; coin_Amount : Z }.

Record MsgSend : Type := {
  send_FromAddress : string;
  send_ToAddress : string;
  send_Amount : list Coin
}.

(** A protobuf [Any]: type URL and encoded value. *)
Record Any : Type := { TypeUrl : string; Value : list byte }.

Record TxBody : Type := { Messages : list Any }.
Record Tx : Type := { Body : option TxBody }.
Record TxRaw : Type := { BodyBytes : list byte }.

(** [client.Transaction] *)
Record Transaction : Type := {
  tx_Hash : string;
  tx_BlockHeight : Z;
  tx_Memo : string;
  tx_Tx : option Tx
}.

(** [client.HyperlaneTransfer] *)
Record HyperlaneTransfer : Type := {
  ht_From : string;
  ht_To : string;
  ht_Amount : string;
  ht_DestinationDomain : N;
  ht_TokenID : string;
  ht_CustomHookMetadata : string
}.

(** [client.RoutingMetadata]: routing information in a transaction memo. *)
Record RoutingMetadata : Type := {
  rm_DestinationDomain : N;
  rm_Recipient : string;
  rm_TokenID : string
}.

(** [types.Config] with its [AddressWhitelist]: domain to whitelisted addresses. *)
Record AddressWhitelist : Type := { Domains : gmap N (list string) }.
Record Config : Type := { Whitelist : AddressWhitelist }.

(** ** Decoders of other libraries

    [None] is a non-nil error of the library call. The json decoders stand
    for [json.Unmarshal] into the named struct, the [_Unmarshal] fields for
    the protobuf methods, [AccAddressFromBech32] and [NewIntFromString] for
    the functions of the same name in cosmos-sdk and cosmossdk.io/math. *)
Class Externals : Type := {
  json_Unmarshal_RouteInfo : string -> option RouteInfo;
  json_Unmarshal_RoutingMetadata : string -> option RoutingMetadata;
  json_Unmarshal_Config : string -> option Config;
  AccAddressFromBech32 : string -> option (list byte);
  NewIntFromString : string -> option Z;
  TxBody_Unmarshal : list byte -> option TxBody;
  MsgRemoteTransfer_Unmarshal : list byte -> option MsgRemoteTransfer;
  MsgSend_Unmarshal : list byte -> option MsgSend
}.

Section Packages.
Context `{Ext : Externals}.

(** ** Package types: ParseCustomHookMetadata *)

Definition ParseCustomHookMetadata (metadata : string) : go RouteInfo :=
  match json_Unmarshal_RouteInfo metadata with
  | None => Err ErrMetadataJSON
  | Some routeInfo =>
      if (ri_DestinationDomain routeInfo =? 0)%N then Err (ErrRequired "destination_domain")
      else if String.eqb (ri_Recipient routeInfo) "" then Err (ErrRequired "recipient")
      else if String.eqb (ri_TokenID routeInfo) "" then Err (ErrRequired "token_id")
      else Ok routeInfo
  end.

(** ** Package types: whitelist configuration *)

Definition normalizeAddress (addr : string) : string :=
  ToLower (TrimSpace addr).

(** [LoadConfig] on the outcome of reading the file ([None]: the read failed). *)
Definition LoadConfig (file : option string) : go Config :=
  match file with
  | None => Err ErrReadConfig
  | Some data =>
      match json_Unmarshal_Config data with
      | None => Err ErrConfigJSON
      | Some config =>
          Ok {| Whitelist :=
                  {| Domains := (map normalizeAddress) <$> Domains (Whitelist config) |} |}
      end
  end.

(** The loop of [ValidateRoute] over the whitelisted addresses. *)
Fixpoint whitelisted (normalizedRecipient : string) (addresses : list string) : bool :=
  match addresses with
  | [] => false
  | whitelistedAddr :: rest =>
      if String.eqb normalizedRecipient whitelistedAddr then true
      else whitelisted normalizedRecipient rest
  end.

Definition ValidateRoute (c : option Config) (route : RouteInfo) : go unit :=
  match c with
  | None => Err ErrConfigNil
  | Some c =>
      match Domains (Whitelist c) !! ri_DestinationDomain route with
      | None => Err (ErrDomainNotConfigured (ri_DestinationDomain route))
      | Some whitelistedAddresses =>
          if (length whitelistedAddresses =? 0)%nat then
            Err (ErrNoWhitelistedAddresses (ri_DestinationDomain route))
          else if whitelisted (normalizeAddress (ri_Recipient route)) whitelistedAddresses
          then Ok tt
          else Err (ErrNotWhitelisted (ri_Recipient route) (ri_DestinationDomain route))
      end
  end.

(** ** Package client *)

Definition url_MsgRemoteTransfer : string := "/hyperlane.warp.v1.MsgRemoteTransfer".
Definition url_MsgSend : string := "/cosmos.bank.v1beta1.MsgSend".

(** The first [if] of the loop body of [ExtractHyperlaneTransfers];
    [None] is its [continue]. *)
Definition extract_remote_transfer (transfers : list HyperlaneTransfer) (anyMsg : Any)
  : option (list HyperlaneTransfer) :=
  if String.eqb (TypeUrl anyMsg) url_MsgRemoteTransfer then
    match MsgRemoteTransfer_Unmarshal (Value anyMsg) with
    | None => None
    | Some msg =>
        let recipientHex := "0x" +:+ EncodeToString (msg_Recipient msg) in
        let tokenIDHex := "0x" +:+ EncodeToString (msg_TokenId msg) in
        Some (transfers ++
              [ {| ht_From := msg_Sender msg;
                   ht_To := recipientHex;
                   ht_Amount := Int_String (msg_Amount msg);
                   ht_DestinationDomain := msg_DestinationDomain msg;
                   ht_TokenID := tokenIDHex;
                   ht_CustomHookMetadata := msg_CustomHookMetadata msg |} ])
    end
  else Some transfers.

(** The second [if]: a bank send in a transaction whose memo carried routing
    metadata. *)
Definition extract_bank_send (routingMeta : option RoutingMetadata)
    (transfers : list HyperlaneTransfer) (anyMsg : Any) : list HyperlaneTransfer :=
  match routingMeta with
  | Some meta =>
      if String.eqb (TypeUrl anyMsg) url_MsgSend then
        match MsgSend_Unmarshal (Value anyMsg) with
        | None => transfers
        | Some sendMsg =>
            match send_Amount sendMsg with
            | [] => transfers
            | coin0 :: _ =>
                let amount := Int_String (coin_Amount coin0) in
                transfers ++
                [ {| ht_From := send_ToAddress sendMsg;
                     ht_To := rm_Recipient meta;
                     ht_Amount := amount;
                     ht_DestinationDomain := rm_DestinationDomain meta;
                     ht_TokenID := rm_TokenID meta;
                     ht_CustomHookMetadata := "" |} ]
            end
        end
      else transfers
  | None => transfers
  end.

Definition extract_message (routingMeta : option RoutingMetadata)
    (transfers : list HyperlaneTransfer) (anyMsg : Any) : list HyperlaneTransfer :=
  match extract_remote_transfer transfers anyMsg with
  | None => transfers
  | Some transfers' => extract_bank_send routingMeta transfers' anyMsg
  end.

(** The routing metadata of the memo, parsed once per transaction. *)
Definition memo_routing (txn : Transaction) : option RoutingMetadata :=
  if String.eqb (tx_Memo txn) "" then None
  else json_Unmarshal_RoutingMetadata (tx_Memo txn).

(** The loop of [ExtractHyperlaneTransfers] over the messages of the body. *)
Definition extract_messages (routingMeta : option RoutingMetadata) (messages : list Any)
  : list HyperlaneTransfer :=
  fold_left (extract_message routingMeta) messages [].

(** [ExtractHyperlaneTransfers]; its error result is always nil. *)
Definition ExtractHyperlaneTransfers (txn : Transaction) : list HyperlaneTransfer :=
  match tx_Tx txn with
  | None => []
  | Some tx =>
      match Body tx with
      | None => []
      | Some body => extract_messages (memo_routing txn) (Messages body)
      end
  end.

Definition targetHex_of (targetAddress : string) : string :=
  if negb (HasPrefix targetAddress "0x") then
    match AccAddressFromBech32 targetAddress with
    | Some addr =>
        let targetHex := "0x" +:+ EncodeToString addr in
        if (String.length targetHex <? 66)%nat then
          let padding := Repeat "0" (66 - String.length targetHex) in
          "0x" +:+ padding +:+ string_drop 2 targetHex
        else targetHex
    | None => ""
    end
  else targetAddress.

Fixpoint transfer_to_target (target targetBech32 : string) (transfers : list HyperlaneTransfer)
  : bool :=
  match transfers with
  | [] => false
  | transfer :: rest =>
      let transferTo := ToLower (ht_To transfer) in
      let transferFrom := ToLower (ht_From transfer) in
      if String.eqb transferTo target || String.eqb transferFrom targetBech32
         || String.eqb transferTo targetBech32
      then true
      else transfer_to_target target targetBech32 rest
  end.

(** [FilterHyperlaneTransfersToAddress]; its error result is always nil. *)
Definition FilterHyperlaneTransfersToAddress (txs : list Transaction) (targetAddress : string)
  : list Transaction :=
  let targetHex := targetHex_of targetAddress in
  filter (fun tx => transfer_to_target (ToLower targetHex) (ToLower targetAddress)
                      (ExtractHyperlaneTransfers tx) = true) txs.

(** Two outcomes of the same kind, with related values. *)
Definition go_rel {A : Type} (R : A -> A -> Prop) (m1 m2 : go A) : Prop :=
  match m1, m2 with
  | Ok a1, Ok a2 => R a1 a2
  | Err e1, Err e2 => e1 = e2
  | Panic p1, Panic p2 => p1 = p2
  | _, _ => False
  end.

(** ** Package parser *)

(** Monadic left fold: a [for ... range] loop whose body may fail. *)
Fixpoint foldM {A B : Type} (body : A -> B -> go A) (acc : A) (l : list B) : go A :=
  match l with
  | [] => Ok acc
  | x :: rest => acc' ← body acc x; foldM body acc' rest
  end.

(** [Parser]: the transaction query of its gRPC client ([None]: the query
    failed) and the optional whitelist configuration. *)
Record Parser : Type := {
  GetTransactionsByHeight : Z -> Z -> option (list Transaction);
  config : option Config
}.

(** The three warnings [ParseRoutes] prints before skipping a transfer. *)
Inductive warning : Type :=
| WarnInvalidMetadata (tx : string) (err : error)
| WarnNoRoutingInfo (tx : string)
| WarnWhitelist (tx : string) (err : error).

(** The variables of the loops of [ParseRoutes], and what was printed. *)
Record parse_state : Type := {
  ps_routes : list HyperlaneRoute;
  ps_totalAmount : Z;
  ps_stdout : list warning
}.

Definition print (w : warning) (st : parse_state) : parse_state :=
  {| ps_routes := ps_routes st;
     ps_totalAmount := ps_totalAmount st;
     ps_stdout := ps_stdout st ++ [w] |}.

(** The routing information of a transfer, or the warning it is skipped with. *)
Definition resolve_route_info (tx : Transaction) (transfer : HyperlaneTransfer)
  : go (warning + RouteInfo) :=
  if negb (String.eqb (ht_CustomHookMetadata transfer) "") then
    match ParseCustomHookMetadata (ht_CustomHookMetadata transfer) with
    | Ok routeInfo => Ok (inr routeInfo)
    | Err err => Ok (inl (WarnInvalidMetadata (tx_Hash tx) err))
    | Panic p => Panic p
    end
  else if negb (ht_DestinationDomain transfer =? 0)%N then
    Ok (inr {| ri_DestinationDomain := ht_DestinationDomain transfer;
               ri_Recipient := ht_To transfer;
               ri_TokenID := ht_TokenID transfer;
               ri_Amount := "" |})
  else Ok (inl (WarnNoRoutingInfo (tx_Hash tx))).

Definition check_whitelist (cfg : option Config) (tx : Transaction) (routeInfo : RouteInfo)
  : go (option warning) :=
  match cfg with
  | None => Ok None
  | Some _ =>
      match ValidateRoute cfg routeInfo with
      | Ok _ => Ok None
      | Err err => Ok (Some (WarnWhitelist (tx_Hash tx) err))
      | Panic p => Panic p
      end
  end.

Definition effective_amount (transfer : HyperlaneTransfer) (routeInfo : RouteInfo) : string :=
  if negb (String.eqb (ri_Amount routeInfo) "") then ri_Amount routeInfo
  else ht_Amount transfer.

Definition route_of (tx : Transaction) (transfer : HyperlaneTransfer) (routeInfo : RouteInfo)
  : HyperlaneRoute :=
  {| hr_TxHash := tx_Hash tx;
     hr_BlockHeight := tx_BlockHeight tx;
     hr_From := ht_From transfer;
     hr_Amount := effective_amount transfer routeInfo;
     hr_Denom := "utia";
     hr_CustomHookMetadata := ht_CustomHookMetadata transfer;
     hr_RouteInfo := Some routeInfo |}.

Definition admit_route (tx : Transaction) (st : parse_state) (transfer : HyperlaneTransfer)
    (routeInfo : RouteInfo) : go parse_state :=
  let amount := effective_amount transfer routeInfo in
  let routes := ps_routes st ++ [route_of tx transfer routeInfo] in
  totalAmount ←
    match NewIntFromString amount with
    | Some amountInt => Int_Add (ps_totalAmount st) amountInt
    | None => Ok (ps_totalAmount st)
    end;
  Ok {| ps_routes := routes; ps_totalAmount := totalAmount; ps_stdout := ps_stdout st |}.

(** The body of the inner loop of [ParseRoutes]. *)
Definition parse_transfer (cfg : option Config) (multisigAddr : string) (tx : Transaction)
    (st : parse_state) (transfer : HyperlaneTransfer) : go parse_state :=
  if negb (String.eqb (ht_From transfer) multisigAddr) then Ok st
  else
    resolved ← resolve_route_info tx transfer;
    match resolved with
    | inl w => Ok (print w st)
    | inr routeInfo =>
        rejected ← check_whitelist cfg tx routeInfo;
        match rejected with
        | Some w => Ok (print w st)
        | None => admit_route tx st transfer routeInfo
        end
    end.

(** The body of the outer loop. *)
Definition parse_tx (cfg : option Config) (multisigAddr : string)
    (st : parse_state) (tx : Transaction) : go parse_state :=
  foldM (parse_transfer cfg multisigAddr tx) st (ExtractHyperlaneTransfers tx).

Definition parse_start : parse_state :=
  {| ps_routes := []; ps_totalAmount := 0; ps_stdout := [] |}.

(** [ParseRoutes] from the queried transactions on; the result pairs the
    returned [Routes] with the warnings printed on the way. *)
Definition parse_transactions (cfg : option Config) (multisigAddr : string)
    (txs : list Transaction) : go (Routes * list warning) :=
  let filtered := FilterHyperlaneTransfersToAddress txs multisigAddr in
  st ← foldM (parse_tx cfg multisigAddr) parse_start filtered;
  Ok ({| rs_Routes := ps_routes st;
         rs_TotalAmount := Int_String (ps_totalAmount st);
         rs_MultisigAddr := multisigAddr |}, ps_stdout st).

Definition ParseRoutes (p : Parser) (multisigAddr : string) (fromHeight toHeight : Z)
  : go (Routes * list warning) :=
  match GetTransactionsByHeight p fromHeight toHeight with
  | None => Err ErrQueryTransactions
  | Some txs => parse_transactions (config p) multisigAddr txs
  end.

(** *** Notions used to state the properties of [ParseRoutes] *)

(** The route the loop body appends for a transfer, when it appends one. *)
Definition transfer_route (cfg : option Config) (multisigAddr : string) (tx : Transaction)
    (transfer : HyperlaneTransfer) : option HyperlaneRoute :=
  if negb (String.eqb (ht_From transfer) multisigAddr) then None
  else
    match resolve_route_info tx transfer with
    | Ok (inr routeInfo) =>
        match check_whitelist cfg tx routeInfo with
        | Ok None => Some (route_of tx transfer routeInfo)
        | _ => None
        end
    | _ => None
    end.

Definition tx_routes (cfg : option Config) (multisigAddr : string) (tx : Transaction)
  : list HyperlaneRoute :=
  omap (transfer_route cfg multisigAddr tx) (ExtractHyperlaneTransfers tx).

(** A transfer with a per-message problem: its hook metadata does not
    parse, or its routing information is rejected by the whitelist. *)
Definition has_problem (cfg : option Config) (tx : Transaction) (transfer : HyperlaneTransfer)
  : Prop :=
  (ht_CustomHookMetadata transfer <> ""
   /\ exists err, ParseCustomHookMetadata (ht_CustomHookMetadata transfer) = Err err)
  \/ (exists routeInfo err,
        resolve_route_info tx transfer = Ok (inr routeInfo)
        /\ is_Some cfg /\ ValidateRoute cfg routeInfo = Err err).

(** Two loop states with the same routes and total; the warnings may differ. *)
Definition same_result (st1 st2 : parse_state) : Prop :=
  ps_routes st1 = ps_routes st2 /\ ps_totalAmount st1 = ps_totalAmount st2.

(** ** Package generator *)

Record Generator : Type := { multisigAddr : string }.

Definition parseTokenID (tokenIDStr : string) : go HexAddress :=
  let tokenIDStr := TrimPrefix tokenIDStr "0x" in
  match DecodeString tokenIDStr with
  | None => Err ErrTokenIDHex
  | Some tokenID =>
      if negb (length tokenID =? 32)%nat then Err (ErrTokenIDLength (length tokenID))
      else toHexAddress tokenID
  end.

(** The first half of [parseAndPadAddress]: the address bytes of an EVM
    (0x...) or Cosmos bech32 address string. *)
Definition decode_address (addrStr : string) : go (list byte) :=
  if HasPrefix addrStr "0x" then
    let addrStr := TrimPrefix addrStr "0x" in
    match DecodeString addrStr with
    | None => Err ErrDecodeEVM
    | Some decoded => Ok decoded
    end
  else
    match AccAddressFromBech32 addrStr with
    | None => Err ErrDecodeBech32
    | Some addr => Ok addr
    end.

Definition parseAndPadAddress (addrStr : string) : go HexAddress :=
  addrBytes ← decode_address addrStr;
  paddedAddr ← leftPad32 addrBytes;
  toHexAddress paddedAddr.

(** The body of the loop of [Generate]. *)
Definition generate_route (g : Generator) (msgs : list MsgRemoteTransfer)
    (route : HyperlaneRoute) : go (list MsgRemoteTransfer) :=
  match hr_RouteInfo route with
  | None => Err (ErrNoRoutingInfo (hr_TxHash route))
  | Some routeInfo =>
      match NewIntFromString (hr_Amount route) with
      | None => Err (ErrInvalidAmount (hr_Amount route) (hr_TxHash route))
      | Some amount =>
          tokenID ← wrap (ErrInvalidTokenID (hr_TxHash route))
                         (parseTokenID (ri_TokenID routeInfo));
          recipient ← wrap (ErrInvalidRecipient (hr_TxHash route))
                           (parseAndPadAddress (ri_Recipient routeInfo));
          Ok (msgs ++
              [ {| msg_Sender := multisigAddr g;
                   msg_TokenId := tokenID;
                   msg_DestinationDomain := ri_DestinationDomain routeInfo;
                   msg_Recipient := recipient;
                   msg_Amount := amount;
                   msg_CustomHookMetadata := "" |} ])
      end
  end.

Definition Generate (g : Generator) (routes : Routes) : go (list MsgRemoteTransfer) :=
  foldM (generate_route g) [] (rs_Routes routes).

(** ** Package verifier *)

(** The entries [Verify] appends to [Errors], one constructor per format string. *)
Inductive verify_error : Type :=
| VerrDecodeBody
| VerrMessageCount (messages routes : nat)
| VerrNoRoutingInfo (i : nat) (tx : string)
| VerrNoMatch (i : nat) (tx : string) (domain : N) (amount : string).

Record VerifyResult : Type := {
  Valid : bool;
  MatchedCount : nat;
  TotalRoutes : nat;
  Errors : list verify_error;
  Warnings : list string
}.

(** [result.Valid = false; result.Errors = append(result.Errors, e)] *)
Definition report_error (e : verify_error) (result : VerifyResult) : VerifyResult :=
  {| Valid := false;
     MatchedCount := MatchedCount result;
     TotalRoutes := TotalRoutes result;
     Errors := Errors result ++ [e];
     Warnings := Warnings result |}.

(** [result.MatchedCount++] *)
Definition count_match (result : VerifyResult) : VerifyResult :=
  {| Valid := Valid result;
     MatchedCount := S (MatchedCount result);
     TotalRoutes := TotalRoutes result;
     Errors := Errors result;
     Warnings := Warnings result |}.

(** The expected recipient of [MatchesRoute], as the hex string compared
    with the message's. *)
Definition expected_recipient_hex (routeInfo : RouteInfo) : go string :=
  let expectedRecipientHex := TrimPrefix (ToLower (ri_Recipient routeInfo)) "0x" in
  if negb (HasPrefix (ri_Recipient routeInfo) "0x") then
    match AccAddressFromBech32 (ri_Recipient routeInfo) with
    | Some addr =>
        paddedAddr ← leftPad32 addr;
        Ok (EncodeToString paddedAddr)
    | None => Ok expectedRecipientHex
    end
  else
    match DecodeString expectedRecipientHex with
    | Some recipientBytes =>
        if (length recipientBytes <? 32)%nat then
          paddedRecipient ← leftPad32 recipientBytes;
          Ok (EncodeToString paddedRecipient)
        else Ok expectedRecipientHex
    | None => Ok expectedRecipientHex
    end.

(** The amount [MatchesRoute] expects: the override when there is one. *)
Definition expected_amount (route : HyperlaneRoute) (routeInfo : RouteInfo) : string :=
  if negb (String.eqb (ri_Amount routeInfo) "") then ri_Amount routeInfo
  else hr_Amount route.

Definition MatchesRoute (msg : MsgRemoteTransfer) (route : HyperlaneRoute) : go bool :=
  match hr_RouteInfo route with
  | None => Panic NilPointerDereference
  | Some routeInfo =>
      if negb (msg_DestinationDomain msg =? ri_DestinationDomain routeInfo)%N then Ok false
      else
        let expectedAmount := expected_amount route routeInfo in
        if negb (String.eqb (Int_String (msg_Amount msg)) expectedAmount) then Ok false
        else
          let msgTokenIDHex := EncodeToString (msg_TokenId msg) in
          let expectedTokenIDHex := TrimPrefix (ToLower (ri_TokenID routeInfo)) "0x" in
          if negb (String.eqb msgTokenIDHex expectedTokenIDHex) then Ok false
          else
            let msgRecipientHex := EncodeToString (msg_Recipient msg) in
            expectedRecipientHex ← expected_recipient_hex routeInfo;
            if negb (String.eqb msgRecipientHex expectedRecipientHex) then Ok false
            else Ok true
  end.

(** The messages of the body that decode as [MsgRemoteTransfer]. *)
Definition remote_transfers (messages : list Any) : list MsgRemoteTransfer :=
  fold_left
    (fun remoteTxs anyMsg =>
       if String.eqb (TypeUrl anyMsg) url_MsgRemoteTransfer then
         match MsgRemoteTransfer_Unmarshal (Value anyMsg) with
         | None => remoteTxs
         | Some remoteMsg => remoteTxs ++ [remoteMsg]
         end
       else remoteTxs)
    messages [].

(** The inner loop of [Verify]: is there a message matching the route? *)
Fixpoint find_match (remoteTxs : list MsgRemoteTransfer) (route : HyperlaneRoute) : go bool :=
  match remoteTxs with
  | [] => Ok false
  | msg :: rest =>
      matches ← MatchesRoute msg route;
      if matches : bool then Ok true else find_match rest route
  end.

(** The outer loop of [Verify], from route index [i] on. *)
Fixpoint verify_routes (remoteTxs : list MsgRemoteTransfer) (i : nat)
    (routes : list HyperlaneRoute) (result : VerifyResult) : go VerifyResult :=
  match routes with
  | [] => Ok result
  | route :: rest =>
      match hr_RouteInfo route with
      | None =>
          verify_routes remoteTxs (S i) rest
            (report_error (VerrNoRoutingInfo i (hr_TxHash route)) result)
      | Some routeInfo =>
          found ← find_match remoteTxs route;
          verify_routes remoteTxs (S i) rest
            (if found : bool then count_match result
             else report_error
                    (VerrNoMatch i (hr_TxHash route) (ri_DestinationDomain routeInfo)
                       (hr_Amount route)) result)
      end
  end.

(** [Verify], once the candidate messages are at hand. *)
Definition verify_messages (routes : Routes) (remoteTxs : list MsgRemoteTransfer)
    (result : VerifyResult) : go VerifyResult :=
  let result :=
    if negb (length remoteTxs =? length (rs_Routes routes))%nat then
      report_error (VerrMessageCount (length remoteTxs) (length (rs_Routes routes))) result
    else result in
  verify_routes remoteTxs 0 (rs_Routes routes) result.

Definition Verify (routes : Routes) (txRaw : TxRaw) : go VerifyResult :=
  let result :=
    {| Valid := true; MatchedCount := 0; TotalRoutes := length (rs_Routes routes);
       Errors := []; Warnings := [] |} in
  match TxBody_Unmarshal (BodyBytes txRaw) with
  | None => Ok (report_error VerrDecodeBody result)
  | Some txBody => verify_messages routes (remote_transfers (Messages txBody)) result
  end.

(** *** Notions used to state the properties of [Verify] *)

(** The report after [k] routes: valid exactly when no error was recorded,
    and then every route so far was matched. *)
Definition consistent (k : nat) (result : VerifyResult) : Prop :=
  (Valid result = true <-> Errors result = [])
  /\ (Valid result = true -> MatchedCount result = k)
  /\ MatchedCount result <= k.

(** A route whose recipient is a bech32 address of more than 32 bytes. *)
Definition oversized_recipient (route : HyperlaneRoute) : Prop :=
  exists routeInfo addr,
    hr_RouteInfo route = Some routeInfo
    /\ HasPrefix (ri_Recipient routeInfo) "0x" = false
    /\ AccAddressFromBech32 (ri_Recipient routeInfo) = Some addr
    /\ 32 < length addr.

End Packages.

(** ** Sample data

    The inputs of the repository's tests and of the examples below, and an
    instance of [Externals] to run them: bech32 decoding and decimal
    parsing are computed; the json and protobuf decoders are the tables of
    what the libraries return on the sample inputs, an error elsewhere. *)
Module Sample.

Definition dq : string := String "034"%char EmptyString.
Definition quoted (s : string) : string := dq +:+ s +:+ dq.

(** "key": "value" *)
Definition str_field (key value : string) : string :=
  quoted key +:+ ": " +:+ quoted value.
(** "key": number *)
Definition num_field (key number : string) : string :=
  quoted key +:+ ": " +:+ number.

Definition evm_recipient : string := "0x742d35Cc6634C0532925a3b844Bc9e7595f0bEb0".
Definition evm_recipient_lower : string := "0x742d35cc6634c0532925a3b844bc9e7595f0beb0".
Definition token_id : string :=
  "0x1234567890abcdef1234567890abcdef1234567890abcdef1234567890abcdef".

(** The 20 bytes of [evm_recipient], and their bech32 form with the
    prefix celestia. *)
Definition address20 : list byte :=
  [x74; x2d; x35; xcc; x66; x34; xc0; x53; x29; x25;
   xa3; xb8; x44; xbc; x9e; x75; x95; xf0; xbe; xb0].
Definition bech32_recipient : string :=
  "celestia1wskntnrxxnq9x2f95wuyf0y7wk2lp04swtxwxs".

(** A bech32 address of the 33 bytes 01, 02, ..., 21 (hex). *)
Definition bech32_of_33_bytes : string :=
  "celestia1qypqxpq9qcrsszg2pvxq6rs0zqg3yyc5z5tpwxqergd3c8g7ruszz45m5yk".

(** Metadata of the tests: complete, without amount, and with one
    mandatory field left out. *)
Definition metadata_full : string :=
  "{" +:+ num_field "destination_domain" "1380012617" +:+ ", "
      +:+ str_field "recipient" evm_recipient +:+ ", "
      +:+ str_field "token_id" token_id +:+ ", "
      +:+ str_field "amount" "500000" +:+ "}".
Definition metadata_no_amount : string :=
  "{" +:+ num_field "destination_domain" "1380012617" +:+ ", "
      +:+ str_field "recipient" evm_recipient +:+ ", "
      +:+ str_field "token_id" token_id +:+ "}".
Definition metadata_no_domain : string :=
  "{" +:+ str_field "recipient" "0x123" +:+ ", " +:+ str_field "token_id" "0xabc" +:+ "}".
Definition metadata_no_recipient : string :=
  "{" +:+ num_field "destination_domain" "123" +:+ ", "
      +:+ str_field "token_id" "0xabc" +:+ "}".
Definition metadata_no_token : string :=
  "{" +:+ num_field "destination_domain" "123" +:+ ", "
      +:+ str_field "recipient" "0x123" +:+ "}".
Definition metadata_invalid : string := "{invalid json}".

(** A memo that names a destination domain and nothing else. *)
Definition memo_domain_only : string :=
  "{" +:+ num_field "destination_domain" "137" +:+ "}".

Definition route_info_full : RouteInfo :=
  {| ri_DestinationDomain := 1380012617; ri_Recipient := evm_recipient;
     ri_TokenID := token_id; ri_Amount := "500000" |}.
Definition route_info_no_amount : RouteInfo :=
  {| ri_DestinationDomain := 1380012617; ri_Recipient := evm_recipient;
     ri_TokenID := token_id; ri_Amount := "" |}.

Definition unmarshal_route_info (s : string) : option RouteInfo :=
  if String.eqb s metadata_full then Some route_info_full
  else if String.eqb s metadata_no_amount then Some route_info_no_amount
  else if String.eqb s metadata_no_domain then
    Some {| ri_DestinationDomain := 0; ri_Recipient := "0x123";
            ri_TokenID := "0xabc"; ri_Amount := "" |}
  else if String.eqb s metadata_no_recipient then
    Some {| ri_DestinationDomain := 123; ri_Recipient := "";
            ri_TokenID := "0xabc"; ri_Amount := "" |}
  else if String.eqb s metadata_no_token then
    Some {| ri_DestinationDomain := 123; ri_Recipient := "0x123";
            ri_TokenID := ""; ri_Amount := "" |}
  else None.

Definition unmarshal_routing_metadata (s : string) : option RoutingMetadata :=
  if String.eqb s memo_domain_only then
    Some {| rm_DestinationDomain := 137; rm_Recipient := ""; rm_TokenID := "" |}
  else if String.eqb s metadata_no_amount then
    Some {| rm_DestinationDomain := 1380012617; rm_Recipient := evm_recipient;
            rm_TokenID := token_id |}
  else None.

(** The whitelist of the configuration test, before normalisation. *)
Definition config_text : string := "config.json".
Definition config_file : Config :=
  {| Whitelist :=
       {| Domains :=
            <[ 2340%N := [ "0x742D35CC6634C0532925A3B844BC9E7595F0BEB0";
                           "0x1111111111111111111111111111111111111111" ] ]>
            ( <[ 1%N := [ "0xabcdefabcdefabcdefabcdefabcdefabcdefabcd" ] ]> ∅ ) |} |}.
Definition unmarshal_config (s : string) : option Config :=
  if String.eqb s config_text then Some config_file else None.

(** Account addresses in bech32 with the prefix celestia: the checksum of
    BIP-173 over the expanded prefix and the data, then the 5-bit groups
    regrouped into bytes. *)
Definition bech32_charset : string := "qpzry9x8gf2tvdw0s3jn54khce6mua7l".

Fixpoint charset_index (c : ascii) (charset : string) (i : Z) : option Z :=
  match charset with
  | EmptyString => None
  | String d rest => if Ascii.eqb c d then Some i else charset_index c rest (i + 1)%Z
  end.

Definition xor_if (b : Z) (i : Z) (generator : Z) (chk : Z) : Z :=
  if Z.testbit b i then Z.lxor chk generator else chk.

Definition polymod_step (chk v : Z) : Z :=
  let b := Z.shiftr chk 25 in
  let chk := Z.lxor (Z.shiftl (Z.land chk 0x1ffffff) 5) v in
  xor_if b 4 0x2a1462b3
    (xor_if b 3 0x3d4233dd
       (xor_if b 2 0x1ea119fa
          (xor_if b 1 0x26508e6d
             (xor_if b 0 0x3b6a57b2 chk)))).

Definition polymod (values : list Z) : Z := fold_left polymod_step values 1%Z.

Definition hrp_expand (hrp : string) : list Z :=
  let codes := map (fun c => Z.of_N (N_of_ascii c)) (list_ascii_of_string hrp) in
  map (fun c => Z.shiftr c 5) codes ++ [0%Z] ++ map (fun c => Z.land c 31) codes.

(** The prefix and the data part, around the last separator 1. *)
Fixpoint split_separator (s : string) : option (string * string) :=
  match s with
  | EmptyString => None
  | String c rest =>
      match split_separator rest with
      | Some (hrp, data) => Some (String c hrp, data)
      | None => if Ascii.eqb c "1" then Some (EmptyString, rest) else None
      end
  end.

Fixpoint data_values (s : string) : option (list Z) :=
  match s with
  | EmptyString => Some []
  | String c rest =>
      v ← charset_index c bech32_charset 0;
      values ← data_values rest;
      Some (v :: values)
  end.

(** 5-bit groups to bytes; the bits left over must be fewer than 5 and zero. *)
Fixpoint regroup (acc bits : Z) (data : list Z) : option (list byte) :=
  match data with
  | [] => if ((bits <? 5) && (acc =? 0))%Z then Some [] else None
  | v :: rest =>
      let acc := (32 * acc + v)%Z in
      let bits := (bits + 5)%Z in
      if (8 <=? bits)%Z then
        b ← Byte.of_N (Z.to_N (Z.shiftr acc (bits - 8)));
        bytes ← regroup (Z.land acc (2 ^ (bits - 8) - 1)) (bits - 8) rest;
        Some (b :: bytes)
      else regroup acc bits rest
  end.

Definition acc_address_from_bech32 (s : string) : option (list byte) :=
  '(hrp, data) ← split_separator s;
  values ← data_values data;
  if String.eqb hrp "celestia" && (polymod (hrp_expand hrp ++ values) =? 1)%Z then
    bytes ← regroup 0 0 (take (length values - 6) values);
    match bytes with
    | [] => None
    | _ => Some bytes
    end
  else None.

(** Decimal numerals without sign or leading zero, below 2^256. *)
Fixpoint digits (acc : Z) (s : string) : option Z :=
  match s with
  | EmptyString => Some acc
  | String c rest =>
      let n := N_of_ascii c in
      if (48 <=? n)%N && (n <=? 57)%N then digits (10 * acc + Z.of_N (n - 48)) rest
      else None
  end.
Definition new_int_from_string (s : string) : option Z :=
  match s with
  | EmptyString => None
  | String "0" EmptyString => Some 0%Z
  | String "0" _ => None
  | _ => match digits 0 s with
         | Some z => if (z <? 2 ^ MaxBitLen)%Z then Some z else None
         | None => None
         end
  end.

(** The message that fulfils [route_info_full], one with the same domain,
    amount and token to another recipient, and an incoming transfer that
    carries hook metadata. *)
Definition message_for_full : MsgRemoteTransfer :=
  {| msg_Sender := "celestia1multisig";
     msg_TokenId := default [] (DecodeString (TrimPrefix token_id "0x"));
     msg_DestinationDomain := 1380012617;
     msg_Recipient := make 12 ++ address20;
     msg_Amount := 500000;
     msg_CustomHookMetadata := "" |}.
Definition message_elsewhere : MsgRemoteTransfer :=
  {| msg_Sender := "celestia1multisig";
     msg_TokenId := default [] (DecodeString (TrimPrefix token_id "0x"));
     msg_DestinationDomain := 1380012617;
     msg_Recipient := make 12 ++ replicate 20 x99;
     msg_Amount := 500000;
     msg_CustomHookMetadata := "" |}.
Definition incoming_with (metadata : string) : MsgRemoteTransfer :=
  {| msg_Sender := "celestia1multisig";
     msg_TokenId := make 32;
     msg_DestinationDomain := 69420;
     msg_Recipient := make 32;
     msg_Amount := 1000000;
     msg_CustomHookMetadata := metadata |}.

(** In the protobuf tables a wire form is abbreviated to a one-byte tag. *)
Definition unmarshal_remote_transfer (b : list byte) : option MsgRemoteTransfer :=
  match b with
  | [x01] => Some message_for_full
  | [x02] => Some message_elsewhere
  | [x03] => Some (incoming_with metadata_no_amount)
  | [x04] => Some (incoming_with metadata_invalid)
  | _ => None
  end.

(** A bank send of 1000000utia to the multisig. *)
Definition memo_send : MsgSend :=
  {| send_FromAddress := "celestia1sender";
     send_ToAddress := "celestia1multisig";
     send_Amount := [ {| coin_Denom := "utia"; coin_Amount := 1000000 |} ] |}.

Definition unmarshal_send (b : list byte) : option MsgSend :=
  match b with
  | [x10] => Some memo_send
  | [x11] => Some {| send_FromAddress := "celestia1sender";
                     send_ToAddress := "celestia1multisig";
                     send_Amount := [] |}
  | [x12] => Some {| send_FromAddress := "celestia1sender";
                     send_ToAddress := "celestia1multisig";
                     send_Amount := [ {| coin_Denom := "utia"; coin_Amount := 7 |};
                                      {| coin_Denom := "uatom"; coin_Amount := 9 |} ] |}
  | _ => None
  end.

Definition remote (tag : byte) : Any :=
  {| TypeUrl := url_MsgRemoteTransfer; Value := [tag] |}.
Definition bank_send (tag : byte) : Any :=
  {| TypeUrl := url_MsgSend; Value := [tag] |}.

Definition unmarshal_body (b : list byte) : option TxBody :=
  match b with
  | [x21] => Some {| Messages := [remote x01; remote x02] |}
  | [x22] => Some {| Messages := [remote x01] |}
  | _ => None
  end.

Definition tx_of (hash memo : string) (messages : list Any) : Transaction :=
  {| tx_Hash := hash; tx_BlockHeight := 100; tx_Memo := memo;
     tx_Tx := Some {| Body := Some {| Messages := messages |} |} |}.
(** A bank send to the multisig under a memo that names only a destination
    domain; an incoming transfer with good metadata, one with metadata that
    is no JSON; a bank send of two coins under a memo with full routing. *)
Definition memo_tx : Transaction := tx_of "TX-MEMO" memo_domain_only [bank_send x10].
Definition good_tx : Transaction := tx_of "TX-GOOD" "" [remote x03].
Definition bad_tx : Transaction := tx_of "TX-BAD" "" [remote x04].
Definition two_coin_tx : Transaction := tx_of "TX-COINS" metadata_no_amount [bank_send x12].

(** The route of the verifier test with an amount override: base amount
    1000000, override 500000. *)
Definition route_override : HyperlaneRoute :=
  {| hr_TxHash := "ABC123"; hr_BlockHeight := 1000000; hr_From := "celestia1sender";
     hr_Amount := "1000000"; hr_Denom := "utia"; hr_CustomHookMetadata := metadata_full;
     hr_RouteInfo := Some route_info_full |}.
(** A second transfer with the same routing request, from another transaction. *)
Definition route_override_again : HyperlaneRoute :=
  {| hr_TxHash := "DEF456"; hr_BlockHeight := 1000001; hr_From := "celestia1sender";
     hr_Amount := "1000000"; hr_Denom := "utia"; hr_CustomHookMetadata := metadata_full;
     hr_RouteInfo := Some route_info_full |}.
(** The message [Generate] builds for [route_override]. *)
Definition message_generated : MsgRemoteTransfer :=
  {| msg_Sender := "celestia1multisig";
     msg_TokenId := msg_TokenId message_for_full;
     msg_DestinationDomain := 1380012617;
     msg_Recipient := msg_Recipient message_for_full;
     msg_Amount := 1000000;
     msg_CustomHookMetadata := "" |}.
Definition routes_of (routes : list HyperlaneRoute) : Routes :=
  {| rs_Routes := routes; rs_TotalAmount := "0"; rs_MultisigAddr := "celestia1multisig" |}.
Definition generator : Generator := {| multisigAddr := "celestia1multisig" |}.

(** The route extracted from a bank send of 1000000utia in a transaction
    whose memo is [memo_domain_only]. *)
Definition memo_route : HyperlaneRoute :=
  {| hr_TxHash := "TX-MEMO"; hr_BlockHeight := 100; hr_From := "celestia1multisig";
     hr_Amount := "1000000"; hr_Denom := "utia"; hr_CustomHookMetadata := "";
     hr_RouteInfo := Some {| ri_DestinationDomain := 137; ri_Recipient := "";
                             ri_TokenID := ""; ri_Amount := "" |} |}.

(** The whitelist of the validation test, written in lower case. *)
Definition test_config : Config :=
  {| Whitelist :=
       {| Domains :=
            <[ 2340%N := [ "0x742d35cc6634c0532925a3b844bc9e7595f0beb0";
                           "0x1111111111111111111111111111111111111111" ] ]>
            ( <[ 1%N := [ "0xabcdefabcdefabcdefabcdefabcdefabcdefabcd" ] ]> ∅ ) |} |}.
Definition route_info_to (domain : N) (recipient : string) : RouteInfo :=
  {| ri_DestinationDomain := domain; ri_Recipient := recipient;
     ri_TokenID := token_id; ri_Amount := "" |}.

(** The whitelist of [config_file] as [LoadConfig] leaves it. *)
Definition config_loaded : Config :=
  {| Whitelist :=
       {| Domains := map normalizeAddress <$> Domains (Whitelist config_file) |} |}.

Definition parser_of (txs : list Transaction) : Parser :=
  {| GetTransactionsByHeight := fun _ _ => Some txs; config := None |}.

Definition externals : Externals :=
  {| json_Unmarshal_RouteInfo := unmarshal_route_info;
     json_Unmarshal_RoutingMetadata := unmarshal_routing_metadata;
     json_Unmarshal_Config := unmarshal_config;
     AccAddressFromBech32 := acc_address_from_bech32;
     NewIntFromString := new_int_from_string;
     TxBody_Unmarshal := unmarshal_body;
     MsgRemoteTransfer_Unmarshal := unmarshal_remote_transfer;
     MsgSend_Unmarshal := unmarshal_send |}.

End Sample.

(** * Further notions, and more of the packages *)

Section MoreDefinitions.
Context `{Ext : Externals}.

(** [msg] is the message [Generate] builds for [route]. *)
Definition generated_for (g : Generator) (route : HyperlaneRoute) (msg : MsgRemoteTransfer)
  : Prop :=
  exists routeInfo,
    hr_RouteInfo route = Some routeInfo
    /\ msg_Sender msg = multisigAddr g
    /\ msg_DestinationDomain msg = ri_DestinationDomain routeInfo
    /\ NewIntFromString (hr_Amount route) = Some (msg_Amount msg)
    /\ parseTokenID (ri_TokenID routeInfo) = Ok (msg_TokenId msg)
    /\ parseAndPadAddress (ri_Recipient routeInfo) = Ok (msg_Recipient msg)
    /\ msg_CustomHookMetadata msg = "".

(** The amount [MatchesRoute] expects for the route is the decimal
    rendering of the amount [Generate] parses from the route. *)
Definition amount_agrees (route : HyperlaneRoute) : Prop :=
  forall routeInfo amount,
    hr_RouteInfo route = Some routeInfo ->
    NewIntFromString (hr_Amount route) = Some amount ->
    Int_String amount = expected_amount route routeInfo.

(** The value [ParseRoutes] adds to the total for a route: its amount
    when [NewIntFromString] parses it, nothing otherwise. *)
Definition route_amount_value (route : HyperlaneRoute) : Z :=
  match NewIntFromString (hr_Amount route) with
  | Some amountInt => amountInt
  | None => 0%Z
  end.

Definition sum_amounts (routes : list HyperlaneRoute) : Z :=
  foldr (fun route acc => (route_amount_value route + acc)%Z) 0%Z routes.

(** The decoding step of the loop of [remote_transfers]. *)
Definition as_remote_transfer (anyMsg : Any) : option MsgRemoteTransfer :=
  if String.eqb (TypeUrl anyMsg) url_MsgRemoteTransfer
  then MsgRemoteTransfer_Unmarshal (Value anyMsg)
  else None.

(** The [HyperlaneTransfer] that [ExtractHyperlaneTransfers] builds from a
    decoded MsgRemoteTransfer. *)
Definition transfer_of_remote (msg : MsgRemoteTransfer) : HyperlaneTransfer :=
  {| ht_From := msg_Sender msg;
     ht_To := "0x" +:+ EncodeToString (msg_Recipient msg);
     ht_Amount := Int_String (msg_Amount msg);
     ht_DestinationDomain := msg_DestinationDomain msg;
     ht_TokenID := "0x" +:+ EncodeToString (msg_TokenId msg);
     ht_CustomHookMetadata := msg_CustomHookMetadata msg |}.

End MoreDefinitions.

(** ** Package client: the transaction query *)

(** One entry of the response of the node's GetTxsEvent call. *)
Record TxResponse : Type := { resp_TxHash : string; resp_Tx : option Any }.

Section ClientQuery.

(** [GetTxsEvent height]: the transactions the node reports for the query
    tx.height=height (first page, at most 100); [None] is a failed call. *)
Variable GetTxsEvent : Z -> option (list TxResponse).
(** The protobuf decoding of a transaction, paired with the memo of its
    body (read only when the body is there). *)
Variable Tx_Unmarshal : list byte -> option (Tx * string).

(** The body of the loop over the responses of one height. *)
Definition append_response (height : Z) (allTxs : list Transaction) (txResp : TxResponse)
  : list Transaction :=
  match resp_Tx txResp with
  | None => allTxs
  | Some txAny =>
      match Tx_Unmarshal (Value txAny) with
      | None => allTxs
      | Some (decodedTx, bodyMemo) =>
          let memo := match Body decodedTx with
                      | Some _ => bodyMemo
                      | None => ""
                      end in
          allTxs ++ [ {| tx_Hash := resp_TxHash txResp;
                         tx_BlockHeight := height;
                         tx_Memo := memo;
                         tx_Tx := Some decodedTx |} ]
      end
  end.

(** The loop over the heights, [count] heights from [height] on. *)
Fixpoint query_heights (count : nat) (height : Z) (allTxs : list Transaction)
  : option (list Transaction) :=
  match count with
  | O => Some allTxs
  | S count' =>
      match GetTxsEvent height with
      | None => None
      | Some responses =>
          query_heights count' (height + 1)
            (fold_left (append_response height) responses allTxs)
      end
  end.

(** [Client.GetTransactionsByHeight], for [toHeight] below the largest
    int64 (where height++ does not wrap): the heights fromHeight, ...,
    toHeight are queried in turn. *)
Definition Client_GetTransactionsByHeight (fromHeight toHeight : Z)
  : option (list Transaction) :=
  query_heights (Z.to_nat (toHeight - fromHeight + 1)) fromHeight [].


End ClientQuery.

(** ** Package client: bank sends *)

(** [client.BankSend] *)
Record BankSend : Type := {
  bs_From : string;
  bs_To : string;
  bs_Amount : list Coin
}.

Section BankSends.
Context `{Ext : Externals}.

(** The body of the loop of [ExtractBankSends]. *)
Definition extract_send (sends : list BankSend) (anyMsg : Any) : list BankSend :=
  if String.eqb (TypeUrl anyMsg) url_MsgSend then
    match MsgSend_Unmarshal (Value anyMsg) with
    | None => sends
    | Some sendMsg =>
        sends ++ [ {| bs_From := send_FromAddress sendMsg;
                      bs_To := send_ToAddress sendMsg;
                      bs_Amount := send_Amount sendMsg |} ]
    end
  else sends.

(** [ExtractBankSends]; its error result is always nil. *)
Definition ExtractBankSends (txn : Transaction) : list BankSend :=
  match tx_Tx txn with
  | None => []
  | Some tx =>
      match Body tx with
      | None => []
      | Some body => fold_left extract_send (Messages body) []
      end
  end.

Fixpoint send_to_target (targetAddress : string) (sends : list BankSend) : bool :=
  match sends with
  | [] => false
  | send :: rest =>
      if String.eqb (bs_To send) targetAddress then true
      else send_to_target targetAddress rest
  end.

(** [FilterTransactionsToAddress]; its error result is always nil. *)
Definition FilterTransactionsToAddress (txs : list Transaction) (targetAddress : string)
  : list Transaction :=
  filter (fun tx => send_to_target targetAddress (ExtractBankSends tx) = true) txs.

End BankSends.

(** ** Strings without white space in front *)

Definition no_leading_space (s : string) : Prop :=
  match s with
  | EmptyString => True
  | String c _ => isSpace c = false
  end.

(** * More sample data

    Routes as [ParseRoutes] builds them, a whitelist for the domain of the
    sample metadata, a transaction body with the messages of body 21 in
    the other order, and a node that serves three heights. *)

Module Scenario.

(** A route whose amount is the override of its routing information. *)
Definition consistent_route : HyperlaneRoute :=
  {| hr_TxHash := "ABC123"; hr_BlockHeight := 1000000; hr_From := "celestia1multisig";
     hr_Amount := "500000"; hr_Denom := "utia";
     hr_CustomHookMetadata := Sample.metadata_full;
     hr_RouteInfo := Some Sample.route_info_full |}.
(** A route without routing information, and one whose amount is no numeral. *)
Definition route_without_info : HyperlaneRoute :=
  {| hr_TxHash := "NOINFO"; hr_BlockHeight := 1000001; hr_From := "celestia1multisig";
     hr_Amount := "500000"; hr_Denom := "utia"; hr_CustomHookMetadata := "";
     hr_RouteInfo := None |}.
Definition route_bad_amount : HyperlaneRoute :=
  {| hr_TxHash := "BADAMOUNT"; hr_BlockHeight := 1000002; hr_From := "celestia1multisig";
     hr_Amount := "12x"; hr_Denom := "utia";
     hr_CustomHookMetadata := Sample.metadata_no_amount;
     hr_RouteInfo := Some Sample.route_info_no_amount |}.
(** A route to the recipient of [Sample.message_elsewhere]. *)
Definition route_elsewhere : HyperlaneRoute :=
  {| hr_TxHash := "ELSEWHERE"; hr_BlockHeight := 1000003; hr_From := "celestia1multisig";
     hr_Amount := "500000"; hr_Denom := "utia"; hr_CustomHookMetadata := "";
     hr_RouteInfo :=
       Some {| ri_DestinationDomain := 1380012617;
               ri_Recipient := "0x9999999999999999999999999999999999999999";
               ri_TokenID := Sample.token_id; ri_Amount := "" |} |}.

(** Body 23 holds the messages of body 21 in the other order. *)
Definition unmarshal_body_reordered (b : list byte) : option TxBody :=
  match b with
  | [x23] => Some {| Messages := [Sample.remote x02; Sample.remote x01] |}
  | _ => Sample.unmarshal_body b
  end.

Definition externals_reordered : Externals :=
  {| json_Unmarshal_RouteInfo := Sample.unmarshal_route_info;
     json_Unmarshal_RoutingMetadata := Sample.unmarshal_routing_metadata;
     json_Unmarshal_Config := Sample.unmarshal_config;
     AccAddressFromBech32 := Sample.acc_address_from_bech32;
     NewIntFromString := Sample.new_int_from_string;
     TxBody_Unmarshal := unmarshal_body_reordered;
     MsgRemoteTransfer_Unmarshal := Sample.unmarshal_remote_transfer;
     MsgSend_Unmarshal := Sample.unmarshal_send |}.

(** A whitelist that names the domain and the recipient of the sample
    metadata, and a second domain whose only entry is not in normal form. *)
Definition whitelist : Config :=
  {| Whitelist :=
       {| Domains :=
            <[ 1380012617%N := [ Sample.evm_recipient_lower ] ]>
            ( <[ 137%N := [ Sample.evm_recipient ] ]> ∅ ) |} |}.

Definition parser_with (cfg : option Config) (txs : list Transaction) : Parser :=
  {| GetTransactionsByHeight := fun _ _ => Some txs; config := cfg |}.

(** A node: at height 100 a transaction that decodes, an entry without
    transaction and one that does not decode; at height 101 a bank send
    under a memo; no answer at height 102; nothing elsewhere. *)
Definition tx_any (tag : byte) : Any :=
  {| TypeUrl := "/cosmos.tx.v1beta1.Tx"; Value := [tag] |}.
Definition get_txs_event (height : Z) : option (list TxResponse) :=
  if (height =? 100)%Z then
    Some [ {| resp_TxHash := "TX-GOOD"; resp_Tx := Some (tx_any x31) |};
           {| resp_TxHash := "TX-NIL"; resp_Tx := None |};
           {| resp_TxHash := "TX-GARBLED"; resp_Tx := Some (tx_any xff) |} ]
  else if (height =? 101)%Z then
    Some [ {| resp_TxHash := "TX-MEMO"; resp_Tx := Some (tx_any x32) |} ]
  else if (height =? 102)%Z then None
  else Some [].
Definition unmarshal_tx (b : list byte) : option (Tx * string) :=
  match b with
  | [x31] => Some ({| Body := Some {| Messages := [Sample.remote x03] |} |}, "")
  | [x32] => Some ({| Body := Some {| Messages := [Sample.bank_send x10] |} |},
                   Sample.memo_domain_only)
  | _ => None
  end.

End Scenario.

(** * Properties *)

(** ** Strings, hex and byte slices *)

Lemma strip_prefix_app (prefix s : string) : strip_prefix prefix (prefix +:+ s) = Some s.
Proof.
  induction prefix as [|a prefix IH]; simpl; [reflexivity|].
  now rewrite Ascii.eqb_refl.
Qed.

Lemma HasPrefix_app (prefix s : string) : HasPrefix (prefix +:+ s) prefix = true.
Proof. unfold HasPrefix. now rewrite strip_prefix_app. Qed.

Lemma TrimPrefix_app (prefix s : string) : TrimPrefix (prefix +:+ s) prefix = s.
Proof. unfold TrimPrefix. now rewrite strip_prefix_app. Qed.

Lemma DecodeString_encoded_byte (b : byte) (rest : list byte) :
  DecodeString (EncodeToString (b :: rest))
  = (bytes ← DecodeString (EncodeToString rest); Some (b :: bytes)).
Proof. destruct b; reflexivity. Qed.

Lemma DecodeString_EncodeToString (src : list byte) :
  DecodeString (EncodeToString src) = Some src.
Proof.
  induction src as [|b rest IH]; [reflexivity|].
  rewrite DecodeString_encoded_byte, IH. reflexivity.
Qed.

Lemma leftPad32_fits (b : list byte) :
  length b <= 32 -> leftPad32 b = Ok (replicate (32 - length b) x00 ++ b).
Proof.
  intros Hlen. unfold leftPad32, copy_from, make.
  rewrite length_replicate.
  destruct (Z.ltb_spec (32 - Z.of_nat (length b)) 0); [lia|].
  destruct (Z.ltb_spec (Z.of_nat 32) (32 - Z.of_nat (length b))); [lia|].
  cbn [orb].
  replace (Z.to_nat (32 - Z.of_nat (length b))) with (32 - length b) by lia.
  replace (Nat.min (32 - (32 - length b)) (length b)) with (length b) by lia.
  rewrite take_replicate, firstn_all, drop_replicate.
  replace (Nat.min (32 - length b) 32) with (32 - length b) by lia.
  replace (32 - (32 - length b + length b)) with 0 by lia.
  cbn [replicate]. now rewrite app_nil_r.
Qed.

Lemma leftPad32_too_long (b : list byte) :
  32 < length b ->
  leftPad32 b = Panic (SliceBoundsOutOfRange (32 - Z.of_nat (length b))).
Proof.
  intros Hlen. unfold leftPad32, copy_from.
  destruct (Z.ltb_spec (32 - Z.of_nat (length b)) 0); [reflexivity|lia].
Qed.

Lemma toHexAddress_32 (b : list byte) : length b = 32 -> toHexAddress b = Ok b.
Proof.
  intros Hlen. unfold toHexAddress. rewrite Hlen. cbn [Nat.ltb Nat.leb].
  replace 32 with (length b) by exact Hlen. now rewrite firstn_all.
Qed.

Lemma isSpace_toLowerAscii (c : ascii) : isSpace (toLowerAscii c) = isSpace c.
Proof. destruct c as [[] [] [] [] [] [] [] []]; reflexivity. Qed.

Lemma ToLower_TrimLeftSpace (s : string) :
  ToLower (TrimLeftSpace s) = TrimLeftSpace (ToLower s).
Proof.
  induction s as [|c s IH]; simpl; [reflexivity|].
  rewrite isSpace_toLowerAscii. now destruct (isSpace c).
Qed.

Lemma ToLower_TrimRightSpace (s : string) :
  ToLower (TrimRightSpace s) = TrimRightSpace (ToLower s).
Proof.
  induction s as [|c s IH]; simpl; [reflexivity|].
  rewrite <- IH, isSpace_toLowerAscii.
  destruct (TrimRightSpace s); simpl; [now destruct (isSpace c)|reflexivity].
Qed.

Lemma ToLower_TrimSpace (s : string) : ToLower (TrimSpace s) = TrimSpace (ToLower s).
Proof. unfold TrimSpace. now rewrite ToLower_TrimRightSpace, ToLower_TrimLeftSpace. Qed.

Lemma EqualFold_ToLower (s t : string) : EqualFold s t = true -> ToLower s = ToLower t.
Proof.
  revert t. induction s as [|a s IH]; intros [|b t]; simpl; try discriminate; [reflexivity|].
  intros H. apply andb_true_iff in H as [Hc Hrest].
  apply Ascii.eqb_eq in Hc. rewrite Hc. f_equal. now apply IH.
Qed.

(** ** Loops in the [go] monad *)

Lemma foldM_app {A B : Type} (body : A -> B -> go A) (l1 l2 : list B) (acc : A) :
  foldM body acc (l1 ++ l2) = (acc' ← foldM body acc l1; foldM body acc' l2).
Proof.
  revert acc. induction l1 as [|x l1 IH]; intros acc; cbn; [reflexivity|].
  destruct (body acc x) as [acc'| |]; cbn; [apply IH|reflexivity|reflexivity].
Qed.

Lemma foldM_rel {A B : Type} (R : A -> A -> Prop) (body : A -> B -> go A) :
  (forall a1 a2 x, R a1 a2 -> go_rel R (body a1 x) (body a2 x)) ->
  forall l a1 a2, R a1 a2 -> go_rel R (foldM body a1 l) (foldM body a2 l).
Proof.
  intros Hbody. induction l as [|x l IH]; intros a1 a2 HR; cbn; [exact HR|].
  specialize (Hbody a1 a2 x HR).
  destruct (body a1 x) as [b1|e1|p1], (body a2 x) as [b2|e2|p2]; cbn in *;
    try contradiction; auto.
Qed.

Section Properties.
Context `{Ext : Externals}.

(** ** parseAndPadAddress *)

Lemma decode_address_hex (addrBytes : list byte) :
  decode_address ("0x" +:+ EncodeToString addrBytes) = Ok addrBytes.
Proof.
  unfold decode_address.
  now rewrite HasPrefix_app, TrimPrefix_app, DecodeString_EncodeToString.
Qed.

Lemma decode_address_bech32 (addrStr : string) (addr : list byte) :
  HasPrefix addrStr "0x" = false -> AccAddressFromBech32 addrStr = Some addr ->
  decode_address addrStr = Ok addr.
Proof. intros Hp Hb. unfold decode_address. now rewrite Hp, Hb. Qed.

(** Up to 32 address bytes are left-padded with zero bytes to exactly 32. *)
Lemma parseAndPadAddress_pads (addrStr : string) (addrBytes : list byte) :
  decode_address addrStr = Ok addrBytes -> length addrBytes <= 32 ->
  parseAndPadAddress addrStr = Ok (replicate (32 - length addrBytes) x00 ++ addrBytes)
  /\ length (replicate (32 - length addrBytes) x00 ++ addrBytes) = 32.
Proof.
  intros Hdec Hlen.
  assert (Hl : length (replicate (32 - length addrBytes) x00 ++ addrBytes) = 32).
  { rewrite length_app, length_replicate. lia. }
  split; [|exact Hl].
  unfold parseAndPadAddress. rewrite Hdec. cbn [mbind go_bind].
  rewrite leftPad32_fits by exact Hlen. cbn [mbind go_bind].
  now apply toHexAddress_32.
Qed.

(** C2, the behaviour of the code: address bytes longer than 32 make
    [parseAndPadAddress] panic on the slice expression [paddedAddr[32-len:]]
    with a negative index; no error value is returned. *)
Theorem parseAndPadAddress_too_long_panics (addrStr : string) (addrBytes : list byte) :
  decode_address addrStr = Ok addrBytes -> 32 < length addrBytes ->
  parseAndPadAddress addrStr
  = Panic (SliceBoundsOutOfRange (32 - Z.of_nat (length addrBytes))).
Proof.
  intros Hdec Hlen. unfold parseAndPadAddress. rewrite Hdec. cbn [mbind go_bind].
  now rewrite leftPad32_too_long by exact Hlen.
Qed.

(** C9: the 0x-hex form and the bech32 form of the same 20 address bytes
    give the same 32 bytes: twelve zero bytes followed by the address. *)
Theorem parseAndPadAddress_hex_bech32_agree
    (addr : list byte) (hexForm bech32Form : string) :
  length addr = 20 ->
  hexForm = "0x" +:+ EncodeToString addr ->
  AccAddressFromBech32 bech32Form = Some addr ->
  HasPrefix bech32Form "0x" = false ->
  parseAndPadAddress hexForm = parseAndPadAddress bech32Form
  /\ parseAndPadAddress hexForm = Ok (replicate 12 x00 ++ addr)
  /\ length (replicate 12 x00 ++ addr) = 32.
Proof.
  intros Hlen -> Hb Hp.
  destruct (parseAndPadAddress_pads _ addr (decode_address_hex addr)) as [Hhex Hl];
    [lia|].
  destruct (parseAndPadAddress_pads _ addr (decode_address_bech32 _ _ Hp Hb)) as [Hbech _];
    [lia|].
  rewrite Hlen in Hhex, Hbech, Hl. cbn [Nat.sub] in Hhex, Hbech, Hl.
  rewrite Hhex, Hbech. auto.
Qed.

(** ** ParseCustomHookMetadata *)

(** C6: [ParseCustomHookMetadata] fails when the JSON decoder fails; after a
    successful decoding it fails with a missing-field error exactly when the
    destination domain is 0, the recipient is empty or the token id is
    empty; otherwise it returns the decoded [RouteInfo] as it is, so an
    amount the decoder left empty stays empty (and is not "0"). *)
Theorem ParseCustomHookMetadata_cases (metadata : string) :
  (json_Unmarshal_RouteInfo metadata = None ->
   ParseCustomHookMetadata metadata = Err ErrMetadataJSON)
  /\ (forall routeInfo, json_Unmarshal_RouteInfo metadata = Some routeInfo ->
        ((ri_DestinationDomain routeInfo = 0%N \/ ri_Recipient routeInfo = ""
          \/ ri_TokenID routeInfo = "")
         <-> (exists field, ParseCustomHookMetadata metadata = Err (ErrRequired field)))
        /\ (ri_DestinationDomain routeInfo <> 0%N -> ri_Recipient routeInfo <> ""
            -> ri_TokenID routeInfo <> "" ->
            ParseCustomHookMetadata metadata = Ok routeInfo
            /\ (ri_Amount routeInfo = "" ->
                forall parsed, ParseCustomHookMetadata metadata = Ok parsed ->
                               ri_Amount parsed = "" /\ ri_Amount parsed <> "0"))).
Proof.
  unfold ParseCustomHookMetadata. split.
  - intros ->. reflexivity.
  - intros routeInfo ->.
    destruct (N.eqb_spec (ri_DestinationDomain routeInfo) 0) as [Hd|Hd];
    [|destruct (String.eqb_spec (ri_Recipient routeInfo) "") as [Hr|Hr];
      [|destruct (String.eqb_spec (ri_TokenID routeInfo) "") as [Ht|Ht]]].
    + split; [split; [eauto|auto]|congruence].
    + split; [split; [eauto|auto]|congruence].
    + split; [split; [eauto|auto]|congruence].
    + split.
      * split; [intros [?|[?|?]]; congruence|intros [field Hf]; discriminate Hf].
      * intros _ _ _. split; [reflexivity|].
        intros Hamount parsed [= <-]. rewrite Hamount. split; [reflexivity|discriminate].
Qed.

(** Whatever [ParseCustomHookMetadata] returns is a valid [RouteInfo]. *)
Lemma ParseCustomHookMetadata_valid (metadata : string) (routeInfo : RouteInfo) :
  ParseCustomHookMetadata metadata = Ok routeInfo ->
  ri_DestinationDomain routeInfo <> 0%N /\ ri_Recipient routeInfo <> ""
  /\ ri_TokenID routeInfo <> "".
Proof.
  unfold ParseCustomHookMetadata.
  destruct (json_Unmarshal_RouteInfo metadata) as [decoded|]; [|discriminate].
  destruct (N.eqb_spec (ri_DestinationDomain decoded) 0); [discriminate|].
  destruct (String.eqb_spec (ri_Recipient decoded) ""); [discriminate|].
  destruct (String.eqb_spec (ri_TokenID decoded) ""); [discriminate|].
  intros [= <-]. auto.
Qed.

Lemma ParseCustomHookMetadata_no_panic (metadata : string) (p : panic) :
  ParseCustomHookMetadata metadata <> Panic p.
Proof.
  unfold ParseCustomHookMetadata.
  destruct (json_Unmarshal_RouteInfo metadata) as [decoded|]; [|discriminate].
  destruct (_ =? _)%N; [discriminate|].
  destruct (String.eqb _ _); [discriminate|].
  destruct (String.eqb _ _); discriminate.
Qed.

(** ** The whitelist *)

Lemma whitelisted_elem_of (normalizedRecipient : string) (addresses : list string) :
  whitelisted normalizedRecipient addresses = true <-> normalizedRecipient ∈ addresses.
Proof.
  induction addresses as [|a rest IH]; simpl.
  - split; [discriminate|]. intros H. inversion H.
  - destruct (String.eqb_spec normalizedRecipient a) as [->|Hne].
    + split; [intros _; left|reflexivity].
    + rewrite IH. split; [now right|].
      intros H. inversion H; subst; [congruence|assumption].
Qed.

Lemma normalizeAddress_fold (s t : string) :
  EqualFold s t = true -> normalizeAddress s = normalizeAddress t.
Proof.
  intros H. unfold normalizeAddress. rewrite !ToLower_TrimSpace.
  now rewrite (EqualFold_ToLower _ _ H).
Qed.

Lemma LoadConfig_lookup (file : option string) (c : Config) (domain : N) :
  LoadConfig file = Ok c ->
  exists data config0,
    file = Some data /\ json_Unmarshal_Config data = Some config0
    /\ Domains (Whitelist c) !! domain
       = map normalizeAddress <$> (Domains (Whitelist config0) !! domain).
Proof.
  unfold LoadConfig. destruct file as [data|]; [|discriminate].
  destruct (json_Unmarshal_Config data) as [config0|] eqn:Hc; [|discriminate].
  intros [= <-]. exists data, config0. cbn. now rewrite lookup_fmap.
Qed.

(** C7: the four outcomes of [ValidateRoute] on a loaded whitelist, by the
    entry of the destination domain; and a recipient that differs from a
    configured address of its domain only in letter case is accepted. *)
Theorem ValidateRoute_cases (file : option string) (c : Config) (route : RouteInfo) :
  LoadConfig file = Ok c ->
  match Domains (Whitelist c) !! ri_DestinationDomain route with
  | None =>
      ValidateRoute (Some c) route = Err (ErrDomainNotConfigured (ri_DestinationDomain route))
  | Some [] =>
      ValidateRoute (Some c) route
      = Err (ErrNoWhitelistedAddresses (ri_DestinationDomain route))
  | Some addresses =>
      (normalizeAddress (ri_Recipient route) ∉ addresses ->
       ValidateRoute (Some c) route
       = Err (ErrNotWhitelisted (ri_Recipient route) (ri_DestinationDomain route)))
      /\ (normalizeAddress (ri_Recipient route) ∈ addresses ->
          ValidateRoute (Some c) route = Ok tt)
  end
  /\ (forall data config0 configured addr,
        file = Some data -> json_Unmarshal_Config data = Some config0 ->
        Domains (Whitelist config0) !! ri_DestinationDomain route = Some configured ->
        addr ∈ configured ->
        EqualFold (ri_Recipient route) addr = true ->
        ValidateRoute (Some c) route = Ok tt).
Proof.
  intros Hload.
  assert (Hcases :
    match Domains (Whitelist c) !! ri_DestinationDomain route with
    | None =>
        ValidateRoute (Some c) route
        = Err (ErrDomainNotConfigured (ri_DestinationDomain route))
    | Some [] =>
        ValidateRoute (Some c) route
        = Err (ErrNoWhitelistedAddresses (ri_DestinationDomain route))
    | Some addresses =>
        (normalizeAddress (ri_Recipient route) ∉ addresses ->
         ValidateRoute (Some c) route
         = Err (ErrNotWhitelisted (ri_Recipient route) (ri_DestinationDomain route)))
        /\ (normalizeAddress (ri_Recipient route) ∈ addresses ->
            ValidateRoute (Some c) route = Ok tt)
    end).
  { unfold ValidateRoute.
    destruct (Domains (Whitelist c) !! ri_DestinationDomain route) as [[|a rest]|];
      [reflexivity| |reflexivity].
    cbn [length Nat.eqb].
    destruct (whitelisted _ (a :: rest)) eqn:Hw.
    - apply whitelisted_elem_of in Hw. split; [intros Hn; contradiction|reflexivity].
    - split; [reflexivity|]. intros Hin. apply whitelisted_elem_of in Hin. congruence. }
  split; [exact Hcases|].
  intros data config0 configured addr Hfile Hcfg Hdom Hin Hfold.
  destruct (LoadConfig_lookup file c (ri_DestinationDomain route) Hload)
    as (data' & config0' & Hfile' & Hcfg' & Hlookup).
  rewrite Hfile in Hfile'. injection Hfile' as <-.
  rewrite Hcfg in Hcfg'. injection Hcfg' as <-.
  rewrite Hdom in Hlookup. cbn in Hlookup. rewrite Hlookup in Hcases.
  assert (Hmem : normalizeAddress (ri_Recipient route) ∈ map normalizeAddress configured).
  { rewrite (normalizeAddress_fold _ _ Hfold). apply list_elem_of_In, in_map.
    now apply list_elem_of_In. }
  destruct (map normalizeAddress configured) as [|a rest]; [inversion Hmem|].
  now apply Hcases.
Qed.

(** ** ExtractHyperlaneTransfers *)

Lemma extract_message_app (routingMeta : option RoutingMetadata)
    (transfers : list HyperlaneTransfer) (anyMsg : Any) :
  extract_message routingMeta transfers anyMsg
  = transfers ++ extract_message routingMeta [] anyMsg.
Proof.
  unfold extract_message, extract_remote_transfer, extract_bank_send.
  destruct (String.eqb (TypeUrl anyMsg) url_MsgRemoteTransfer);
    [destruct (MsgRemoteTransfer_Unmarshal (Value anyMsg))|];
    destruct routingMeta;
    try destruct (String.eqb (TypeUrl anyMsg) url_MsgSend);
    try destruct (MsgSend_Unmarshal (Value anyMsg)) as [sendMsg|];
    try destruct (send_Amount sendMsg);
    cbn [app]; rewrite ?app_nil_r, <- ?app_assoc; reflexivity.
Qed.

Lemma extract_messages_from (routingMeta : option RoutingMetadata) (messages : list Any)
    (transfers : list HyperlaneTransfer) :
  fold_left (extract_message routingMeta) messages transfers
  = transfers ++ extract_messages routingMeta messages.
Proof.
  unfold extract_messages. revert transfers.
  induction messages as [|m rest IH]; intros transfers; cbn [fold_left].
  - now rewrite app_nil_r.
  - rewrite IH, (IH (extract_message routingMeta [] m)), extract_message_app.
    now rewrite app_assoc.
Qed.

Lemma extract_messages_app (routingMeta : option RoutingMetadata) (pre post : list Any)
    (anyMsg : Any) :
  extract_messages routingMeta (pre ++ anyMsg :: post)
  = extract_messages routingMeta pre ++ extract_message routingMeta [] anyMsg
    ++ extract_messages routingMeta post.
Proof.
  unfold extract_messages at 1. rewrite fold_left_app. cbn [fold_left].
  rewrite extract_messages_from.
  fold (extract_messages routingMeta pre).
  rewrite extract_message_app. now rewrite <- app_assoc.
Qed.

(** C10: in a transaction whose memo gave routing metadata, a bank send
    with an empty coin list contributes no transfer, and one with coins
    contributes a single transfer whose amount is that of the first coin,
    whatever the other coins are. *)
Theorem bank_send_first_coin_only (txn : Transaction) (tx : Tx) (body : TxBody)
    (meta : RoutingMetadata) (pre post : list Any) (anyMsg : Any) (sendMsg : MsgSend) :
  tx_Tx txn = Some tx -> Body tx = Some body ->
  Messages body = pre ++ anyMsg :: post ->
  memo_routing txn = Some meta ->
  TypeUrl anyMsg = url_MsgSend ->
  MsgSend_Unmarshal (Value anyMsg) = Some sendMsg ->
  ExtractHyperlaneTransfers txn
  = extract_messages (Some meta) pre
    ++ match send_Amount sendMsg with
       | [] => []
       | coin0 :: _ =>
           [ {| ht_From := send_ToAddress sendMsg;
                ht_To := rm_Recipient meta;
                ht_Amount := Int_String (coin_Amount coin0);
                ht_DestinationDomain := rm_DestinationDomain meta;
                ht_TokenID := rm_TokenID meta;
                ht_CustomHookMetadata := "" |} ]
       end
    ++ extract_messages (Some meta) post.
Proof.
  intros Htx Hbody Hmsgs Hmeta Hurl Hsend.
  unfold ExtractHyperlaneTransfers. rewrite Htx, Hbody, Hmeta, Hmsgs.
  rewrite extract_messages_app. do 2 f_equal.
  unfold extract_message, extract_remote_transfer, extract_bank_send.
  rewrite Hurl, Hsend. cbn. now destruct (send_Amount sendMsg).
Qed.

(** ** ParseRoutes *)

Lemma same_result_refl (st : parse_state) : same_result st st.
Proof. split; reflexivity. Qed.

Lemma same_result_print (w : warning) (st1 st2 : parse_state) :
  same_result st1 st2 -> same_result (print w st1) (print w st2).
Proof. intros [Hr Ht]. split; assumption. Qed.

Lemma parse_transfer_same (cfg : option Config) (multisigAddr : string) (tx : Transaction)
    (st1 st2 : parse_state) (transfer : HyperlaneTransfer) :
  same_result st1 st2 ->
  go_rel same_result (parse_transfer cfg multisigAddr tx st1 transfer)
                     (parse_transfer cfg multisigAddr tx st2 transfer).
Proof.
  intros Hsame. unfold parse_transfer.
  destruct (negb _); [exact Hsame|].
  destruct (resolve_route_info tx transfer) as [[w|routeInfo]| |]; cbn;
    [now apply same_result_print| |reflexivity|reflexivity].
  destruct (check_whitelist cfg tx routeInfo) as [[w|]| |]; cbn;
    [now apply same_result_print| |reflexivity|reflexivity].
  destruct Hsame as [Hr Ht]. unfold admit_route. rewrite Hr, Ht.
  destruct (NewIntFromString _) as [amountInt|]; cbn.
  - destruct (Int_Add (ps_totalAmount st2) amountInt); cbn; [split| |]; reflexivity.
  - split; reflexivity.
Qed.

Lemma parse_tx_same (cfg : option Config) (multisigAddr : string)
    (st1 st2 : parse_state) (tx : Transaction) :
  same_result st1 st2 ->
  go_rel same_result (parse_tx cfg multisigAddr st1 tx) (parse_tx cfg multisigAddr st2 tx).
Proof.
  intros Hsame. unfold parse_tx. apply foldM_rel; [|exact Hsame].
  intros a1 a2 x. apply parse_transfer_same.
Qed.

(** A transfer with a problem leaves routes and total as they are. *)
Lemma parse_transfer_problem (cfg : option Config) (multisigAddr : string)
    (tx : Transaction) (st : parse_state) (transfer : HyperlaneTransfer) :
  has_problem cfg tx transfer ->
  exists st', parse_transfer cfg multisigAddr tx st transfer = Ok st' /\ same_result st st'.
Proof.
  intros Hproblem. unfold parse_transfer.
  destruct (negb _); [exists st; split; [reflexivity|apply same_result_refl]|].
  destruct Hproblem as [[Hmeta [err Herr]]|(routeInfo & err & Hres & [c Hc] & Hval)].
  - unfold resolve_route_info.
    destruct (String.eqb_spec (ht_CustomHookMetadata transfer) ""); [contradiction|].
    cbn [negb]. rewrite Herr. cbn.
    eexists; split; [reflexivity|]. split; reflexivity.
  - rewrite Hres. cbn. unfold check_whitelist. subst cfg. rewrite Hval. cbn.
    eexists; split; [reflexivity|]. split; reflexivity.
Qed.

Lemma parse_tx_problem (cfg : option Config) (multisigAddr : string) (tx : Transaction)
    (transfers : list HyperlaneTransfer) :
  Forall (has_problem cfg tx) transfers ->
  forall st, exists st',
    foldM (parse_transfer cfg multisigAddr tx) st transfers = Ok st' /\ same_result st st'.
Proof.
  induction 1 as [|transfer rest Hp _ IH]; intros st; cbn.
  - exists st. split; [reflexivity|apply same_result_refl].
  - destruct (parse_transfer_problem cfg multisigAddr tx st transfer Hp) as (st1 & -> & [Hr Ht]).
    cbn. destruct (IH st1) as (st2 & Hfold & [Hr2 Ht2]).
    exists st2. split; [exact Hfold|]. split; congruence.
Qed.

(** The loop body ends in [Ok] or in the overflow panic of [Int.Add]. *)
Lemma parse_transfer_outcome (cfg : option Config) (multisigAddr : string)
    (tx : Transaction) (st : parse_state) (transfer : HyperlaneTransfer) :
  match parse_transfer cfg multisigAddr tx st transfer with
  | Ok st' =>
      ps_routes st'
      = ps_routes st ++ option_list (transfer_route cfg multisigAddr tx transfer)
  | Err _ => False
  | Panic p => p = IntOverflow
  end.
Proof.
  unfold parse_transfer, transfer_route.
  destruct (negb _); [now rewrite app_nil_r|].
  unfold resolve_route_info.
  destruct (negb (String.eqb (ht_CustomHookMetadata transfer) "")).
  - pose proof (ParseCustomHookMetadata_no_panic (ht_CustomHookMetadata transfer)) as Hnp.
    destruct (ParseCustomHookMetadata _) as [routeInfo|err|p]; cbn;
      [|now rewrite app_nil_r|now destruct (Hnp p)].
    unfold check_whitelist, ValidateRoute.
    destruct cfg as [c|]; cbn.
    + destruct (Domains (Whitelist c) !! _) as [l|]; cbn; [|now rewrite app_nil_r].
      destruct (length l =? 0)%nat; cbn; [now rewrite app_nil_r|].
      destruct (whitelisted _ l); cbn; [|now rewrite app_nil_r].
      unfold admit_route. destruct (NewIntFromString _); cbn; [|reflexivity].
      unfold Int_Add. now destruct (_ <? _)%Z.
    + unfold admit_route. destruct (NewIntFromString _); cbn; [|reflexivity].
      unfold Int_Add. now destruct (_ <? _)%Z.
  - destruct (negb (_ =? 0)%N); cbn; [|now rewrite app_nil_r].
    unfold check_whitelist, ValidateRoute.
    destruct cfg as [c|]; cbn.
    + destruct (Domains (Whitelist c) !! _) as [l|]; cbn; [|now rewrite app_nil_r].
      destruct (length l =? 0)%nat; cbn; [now rewrite app_nil_r|].
      destruct (whitelisted _ l); cbn; [|now rewrite app_nil_r].
      unfold admit_route. destruct (NewIntFromString _); cbn; [|reflexivity].
      unfold Int_Add. now destruct (_ <? _)%Z.
    + unfold admit_route. destruct (NewIntFromString _); cbn; [|reflexivity].
      unfold Int_Add. now destruct (_ <? _)%Z.
Qed.

Lemma parse_tx_outcome (cfg : option Config) (multisigAddr : string) (tx : Transaction)
    (transfers : list HyperlaneTransfer) (st : parse_state) :
  match foldM (parse_transfer cfg multisigAddr tx) st transfers with
  | Ok st' =>
      ps_routes st' = ps_routes st ++ omap (transfer_route cfg multisigAddr tx) transfers
  | Err _ => False
  | Panic p => p = IntOverflow
  end.
Proof.
  revert st. induction transfers as [|transfer rest IH]; intros st; cbn.
  - now rewrite app_nil_r.
  - pose proof (parse_transfer_outcome cfg multisigAddr tx st transfer) as Hstep.
    destruct (parse_transfer cfg multisigAddr tx st transfer) as [st1| |]; cbn;
      [|exact Hstep|exact Hstep].
    specialize (IH st1).
    destruct (foldM _ st1 rest) as [st2| |]; [|exact IH|exact IH].
    rewrite IH, Hstep, <- app_assoc. f_equal.
    now destruct (transfer_route cfg multisigAddr tx transfer).
Qed.

Lemma parse_txs_outcome (cfg : option Config) (multisigAddr : string)
    (txs : list Transaction) (st : parse_state) :
  match foldM (parse_tx cfg multisigAddr) st txs with
  | Ok st' => ps_routes st' = ps_routes st ++ flat_map (tx_routes cfg multisigAddr) txs
  | Err _ => False
  | Panic p => p = IntOverflow
  end.
Proof.
  revert st. induction txs as [|tx rest IH]; intros st; cbn [foldM flat_map].
  - now rewrite app_nil_r.
  - pose proof (parse_tx_outcome cfg multisigAddr tx (ExtractHyperlaneTransfers tx) st)
      as Hstep.
    fold (parse_tx cfg multisigAddr st tx) in Hstep.
    fold (tx_routes cfg multisigAddr tx) in Hstep.
    destruct (parse_tx cfg multisigAddr st tx) as [st1| |]; cbn [mbind go_bind];
      [|exact Hstep|exact Hstep].
    specialize (IH st1).
    destruct (foldM _ st1 rest) as [st2| |]; [|exact IH|exact IH].
    rewrite IH, Hstep, <- app_assoc. reflexivity.
Qed.

(** Extraction after a successful query never returns an error; it returns
    the routes of the filtered transactions, in order, or panics on an
    overflow of the running total. *)
Lemma parse_transactions_outcome (cfg : option Config) (multisigAddr : string)
    (txs : list Transaction) :
  match parse_transactions cfg multisigAddr txs with
  | Ok (routes, _) =>
      rs_Routes routes
      = flat_map (tx_routes cfg multisigAddr)
                 (FilterHyperlaneTransfersToAddress txs multisigAddr)
  | Err _ => False
  | Panic p => p = IntOverflow
  end.
Proof.
  unfold parse_transactions.
  pose proof (parse_txs_outcome cfg multisigAddr
                (FilterHyperlaneTransfersToAddress txs multisigAddr) parse_start) as H.
  destruct (foldM _ parse_start _) as [st| |]; cbn; exact H.
Qed.

Lemma Filter_app (txs1 txs2 : list Transaction) (targetAddress : string) :
  FilterHyperlaneTransfersToAddress (txs1 ++ txs2) targetAddress
  = FilterHyperlaneTransfersToAddress txs1 targetAddress
    ++ FilterHyperlaneTransfersToAddress txs2 targetAddress.
Proof. unfold FilterHyperlaneTransfersToAddress. apply filter_app. Qed.

Lemma Filter_single (tx : Transaction) (targetAddress : string) :
  FilterHyperlaneTransfersToAddress [tx] targetAddress = [tx]
  \/ FilterHyperlaneTransfersToAddress [tx] targetAddress = [].
Proof.
  unfold FilterHyperlaneTransfersToAddress. rewrite filter_cons, filter_nil.
  destruct (decide _); auto.
Qed.

Lemma one_route_each (cfg : option Config) (multisigAddr : string) (txs : list Transaction) :
  Forall (fun tx => exists routes out,
            parse_transactions cfg multisigAddr [tx] = Ok (routes, out)
            /\ length (rs_Routes routes) = 1) txs ->
  length (flat_map (tx_routes cfg multisigAddr)
            (FilterHyperlaneTransfersToAddress txs multisigAddr)) = length txs.
Proof.
  induction 1 as [|tx rest (routes & out & Hone & Hlen) _ IH]; [reflexivity|].
  change (tx :: rest) with ([tx] ++ rest).
  rewrite Filter_app, flat_map_app, !length_app, IH. f_equal.
  pose proof (parse_transactions_outcome cfg multisigAddr [tx]) as H.
  rewrite Hone in H. now rewrite <- H.
Qed.

(** Inside a transaction, a transfer with a problem is passed over: the
    loop ends as it does without that transfer, warnings apart. *)
Lemma parse_transfers_skip (cfg : option Config) (multisigAddr : string) (tx : Transaction)
    (before after : list HyperlaneTransfer) (transfer : HyperlaneTransfer)
    (st : parse_state) :
  has_problem cfg tx transfer ->
  go_rel same_result
    (foldM (parse_transfer cfg multisigAddr tx) st (before ++ transfer :: after))
    (foldM (parse_transfer cfg multisigAddr tx) st (before ++ after)).
Proof.
  intros Hproblem. rewrite !foldM_app.
  destruct (foldM _ st before) as [st1| |]; cbn [mbind go_bind go_rel foldM];
    [|reflexivity|reflexivity].
  destruct (parse_transfer_problem cfg multisigAddr tx st1 transfer Hproblem)
    as (st1' & -> & [Hr Ht]).
  cbn [mbind go_bind].
  apply foldM_rel; [|split; congruence].
  intros a1 a2 x. apply parse_transfer_same.
Qed.

(** C8: a transaction whose transfers all have a per-message problem
    (metadata that does not parse, or a whitelist rejection) is skipped:
    extraction over the whole batch returns exactly the [Routes] that
    extraction over the other transactions returns, never an error; when
    each of the other transactions yields one route these are N-1 routes.
    Likewise inside a transaction: a transfer with a problem removes no
    route but its own. *)
Theorem ParseRoutes_skip_and_continue (p : Parser) (multisigAddr : string)
    (fromHeight toHeight : Z) (txs1 txs2 : list Transaction) (bad : Transaction)
    (others : Routes) (printed : list warning) :
  GetTransactionsByHeight p fromHeight toHeight = Some (txs1 ++ bad :: txs2) ->
  Forall (has_problem (config p) bad) (ExtractHyperlaneTransfers bad) ->
  parse_transactions (config p) multisigAddr (txs1 ++ txs2) = Ok (others, printed) ->
  (exists out, ParseRoutes p multisigAddr fromHeight toHeight = Ok (others, out))
  /\ (Forall (fun tx => exists routes out,
                parse_transactions (config p) multisigAddr [tx] = Ok (routes, out)
                /\ length (rs_Routes routes) = 1) (txs1 ++ txs2) ->
      length (rs_Routes others) = length (txs1 ++ bad :: txs2) - 1)
  /\ (forall tx before transfer after st,
        has_problem (config p) tx transfer ->
        go_rel same_result
          (foldM (parse_transfer (config p) multisigAddr tx) st
             (before ++ transfer :: after))
          (foldM (parse_transfer (config p) multisigAddr tx) st (before ++ after))).
Proof.
  intros Hquery Hbad Hothers. split; [|split].
  - unfold ParseRoutes. rewrite Hquery.
    unfold parse_transactions in *.
    change (bad :: txs2) with ([bad] ++ txs2).
    rewrite !Filter_app, !foldM_app. rewrite Filter_app, foldM_app in Hothers.
    destruct (foldM _ parse_start (FilterHyperlaneTransfersToAddress txs1 multisigAddr))
      as [st1| |]; cbn [mbind go_bind] in *; [|discriminate|discriminate].
    rewrite foldM_app.
    assert (Hskip : exists st1',
               foldM (parse_tx (config p) multisigAddr) st1
                 (FilterHyperlaneTransfersToAddress [bad] multisigAddr) = Ok st1'
               /\ same_result st1 st1').
    { destruct (Filter_single bad multisigAddr) as [-> | ->]; cbn [foldM].
      - unfold parse_tx at 1.
        destruct (parse_tx_problem (config p) multisigAddr bad _ Hbad st1)
          as (st1' & -> & Hsame).
        exists st1'. split; [reflexivity|exact Hsame].
      - exists st1. split; [reflexivity|apply same_result_refl]. }
    destruct Hskip as (st1' & -> & Hsame). cbn [mbind go_bind].
    pose proof (foldM_rel same_result (parse_tx (config p) multisigAddr)
                  (fun a1 a2 x => parse_tx_same (config p) multisigAddr a1 a2 x)
                  (FilterHyperlaneTransfersToAddress txs2 multisigAddr) st1 st1' Hsame)
      as Hrel.
    destruct (foldM _ st1 _) as [st2| |]; cbn [mbind go_bind] in Hothers;
      [|discriminate|discriminate].
    destruct (foldM _ st1' _) as [st2'| |]; cbn [go_rel] in Hrel;
      [|contradiction|contradiction].
    destruct Hrel as [Hr Ht]. cbn [mbind go_bind]. injection Hothers as <- <-.
    rewrite Hr, Ht. eauto.
  - intros Hone.
    pose proof (parse_transactions_outcome (config p) multisigAddr (txs1 ++ txs2)) as H.
    rewrite Hothers in H. rewrite H, (one_route_each _ _ _ Hone).
    rewrite !length_app. cbn [length]. lia.
  - intros tx before transfer after st. apply parse_transfers_skip.
Qed.

Lemma transfer_route_info (cfg : option Config) (multisigAddr : string) (tx : Transaction)
    (transfer : HyperlaneTransfer) (route : HyperlaneRoute) :
  transfer_route cfg multisigAddr tx transfer = Some route ->
  exists routeInfo,
    hr_RouteInfo route = Some routeInfo
    /\ ri_DestinationDomain routeInfo <> 0%N
    /\ (hr_CustomHookMetadata route <> "" ->
        ri_Recipient routeInfo <> "" /\ ri_TokenID routeInfo <> "").
Proof.
  unfold transfer_route, resolve_route_info.
  destruct (negb (String.eqb (ht_From transfer) multisigAddr)); [discriminate|].
  destruct (String.eqb_spec (ht_CustomHookMetadata transfer) "") as [Hempty|Hmeta];
    cbn [negb].
  - destruct (N.eqb_spec (ht_DestinationDomain transfer) 0) as [|Hd]; cbn [negb];
      [discriminate|].
    destruct (check_whitelist _ _ _) as [[w|]| |]; try discriminate.
    intros [= <-]. eexists. split; [reflexivity|]. split; [exact Hd|].
    cbn. intros Hne. now rewrite Hempty in Hne.
  - destruct (ParseCustomHookMetadata _) as [routeInfo| |] eqn:Hparse; try discriminate.
    destruct (check_whitelist _ _ _) as [[w|]| |]; try discriminate.
    intros [= <-]. exists routeInfo. split; [reflexivity|].
    destruct (ParseCustomHookMetadata_valid _ _ Hparse) as (Hd & Hr & Ht). auto.
Qed.

(** What does hold of every route [ParseRoutes] returns: the routing
    information is there and names a destination domain, and for a route
    taken from hook metadata recipient and token id are not empty. *)
Lemma ParseRoutes_route_info (p : Parser) (multisigAddr : string) (fromHeight toHeight : Z)
    (routes : Routes) (out : list warning) :
  ParseRoutes p multisigAddr fromHeight toHeight = Ok (routes, out) ->
  Forall (fun route => exists routeInfo,
            hr_RouteInfo route = Some routeInfo
            /\ ri_DestinationDomain routeInfo <> 0%N
            /\ (hr_CustomHookMetadata route <> "" ->
                ri_Recipient routeInfo <> "" /\ ri_TokenID routeInfo <> ""))
         (rs_Routes routes).
Proof.
  unfold ParseRoutes.
  destruct (GetTransactionsByHeight p fromHeight toHeight) as [txs|]; [|discriminate].
  intros Hparse.
  pose proof (parse_transactions_outcome (config p) multisigAddr txs) as H.
  rewrite Hparse in H. rewrite H.
  apply Forall_forall. intros route Hin.
  apply list_elem_of_In, in_flat_map in Hin as (tx & _ & Hin).
  apply list_elem_of_In, list_elem_of_omap in Hin as (transfer & _ & Hroute).
  exact (transfer_route_info _ _ _ _ _ Hroute).
Qed.

(** ** Generate *)

(** The amount of a generated message is parsed from the route's own
    amount; the override of the routing information is not consulted. *)
Lemma generate_route_amount (g : Generator) (msgs msgs' : list MsgRemoteTransfer)
    (route : HyperlaneRoute) :
  generate_route g msgs route = Ok msgs' ->
  exists msg routeInfo,
    msgs' = msgs ++ [msg]
    /\ hr_RouteInfo route = Some routeInfo
    /\ NewIntFromString (hr_Amount route) = Some (msg_Amount msg)
    /\ msg_DestinationDomain msg = ri_DestinationDomain routeInfo
    /\ msg_Sender msg = multisigAddr g.
Proof.
  unfold generate_route.
  destruct (hr_RouteInfo route) as [routeInfo|]; [|discriminate].
  destruct (NewIntFromString (hr_Amount route)) as [amount|]; [|discriminate].
  destruct (parseTokenID _) as [tokenID| |]; cbn; try discriminate.
  destruct (parseAndPadAddress _) as [recipient| |]; cbn; try discriminate.
  intros [= <-]. eexists _, routeInfo. repeat split.
Qed.

(** ** Verify *)

Lemma expected_recipient_hex_outcome (route : HyperlaneRoute) (routeInfo : RouteInfo) :
  hr_RouteInfo route = Some routeInfo ->
  match expected_recipient_hex routeInfo with
  | Ok _ => True
  | Err _ => False
  | Panic _ => oversized_recipient route
  end.
Proof.
  intros Hri. unfold expected_recipient_hex.
  destruct (HasPrefix (ri_Recipient routeInfo) "0x") eqn:Hprefix; cbn [negb].
  - destruct (DecodeString _) as [recipientBytes|]; [|exact I].
    destruct (Nat.ltb_spec (length recipientBytes) 32); [|exact I].
    rewrite leftPad32_fits by lia. exact I.
  - destruct (AccAddressFromBech32 _) as [addr|] eqn:Hbech; [|exact I].
    destruct (le_lt_dec (length addr) 32) as [Hle|Hgt].
    + rewrite leftPad32_fits by exact Hle. exact I.
    + rewrite leftPad32_too_long by exact Hgt. cbn.
      exists routeInfo, addr. auto.
Qed.

Lemma MatchesRoute_outcome (msg : MsgRemoteTransfer) (route : HyperlaneRoute)
    (routeInfo : RouteInfo) :
  hr_RouteInfo route = Some routeInfo ->
  match MatchesRoute msg route with
  | Ok _ => True
  | Err _ => False
  | Panic _ => oversized_recipient route
  end.
Proof.
  intros Hri. unfold MatchesRoute. rewrite Hri.
  destruct (negb _); [exact I|].
  destruct (negb _); [exact I|].
  destruct (negb _); [exact I|].
  pose proof (expected_recipient_hex_outcome route routeInfo Hri) as H.
  destruct (expected_recipient_hex routeInfo); cbn; [|exact H|exact H].
  now destruct (negb _).
Qed.

Lemma find_match_outcome (remoteTxs : list MsgRemoteTransfer) (route : HyperlaneRoute)
    (routeInfo : RouteInfo) :
  hr_RouteInfo route = Some routeInfo ->
  match find_match remoteTxs route with
  | Ok _ => True
  | Err _ => False
  | Panic _ => oversized_recipient route
  end.
Proof.
  intros Hri. induction remoteTxs as [|msg rest IH]; cbn [find_match]; [exact I|].
  pose proof (MatchesRoute_outcome msg route routeInfo Hri) as H.
  destruct (MatchesRoute msg route) as [[]| |]; cbn; auto.
Qed.

Lemma consistent_report_error (k : nat) (e : verify_error) (result : VerifyResult) :
  MatchedCount result <= k -> consistent (S k) (report_error e result).
Proof.
  intros Hle. unfold consistent, report_error. cbn. repeat split; try discriminate; try lia.
  intros Happ. now destruct (Errors result).
Qed.

Lemma consistent_count_match (k : nat) (result : VerifyResult) :
  consistent k result -> consistent (S k) (count_match result).
Proof.
  intros (Hv & Hm & Hle). unfold consistent, count_match. cbn.
  split; [exact Hv|]. split; [intros H; f_equal; auto|lia].
Qed.

Lemma verify_routes_outcome (remoteTxs : list MsgRemoteTransfer)
    (routes : list HyperlaneRoute) :
  forall (i k : nat) (result : VerifyResult),
    consistent k result ->
    match verify_routes remoteTxs i routes result with
    | Ok final =>
        consistent (k + length routes) final /\ TotalRoutes final = TotalRoutes result
    | Err _ => False
    | Panic _ => Exists oversized_recipient routes
    end.
Proof.
  induction routes as [|route rest IH]; intros i k result Hc; cbn [verify_routes length].
  - rewrite Nat.add_0_r. auto.
  - destruct (hr_RouteInfo route) as [routeInfo|] eqn:Hri.
    + pose proof (find_match_outcome remoteTxs route routeInfo Hri) as Hfind.
      destruct (find_match remoteTxs route) as [found| |]; cbn [mbind go_bind];
        [|exact Hfind|now apply Exists_cons_hd].
      assert (Hstep : consistent (S k)
                (if found then count_match result
                 else report_error
                        (VerrNoMatch i (hr_TxHash route) (ri_DestinationDomain routeInfo)
                           (hr_Amount route)) result)).
      { destruct found; [now apply consistent_count_match|].
        apply consistent_report_error. apply Hc. }
      specialize (IH (S i) (S k) _ Hstep).
      destruct (verify_routes _ _ rest _) as [final| |]; [|exact IH|now apply Exists_cons_tl].
      replace (k + S (length rest)) with (S k + length rest) by lia.
      destruct IH as [Hfinal Htotal]. split; [exact Hfinal|].
      rewrite Htotal. now destruct found.
    + assert (Hstep : consistent (S k)
                (report_error (VerrNoRoutingInfo i (hr_TxHash route)) result)).
      { apply consistent_report_error. apply Hc. }
      specialize (IH (S i) (S k) _ Hstep).
      destruct (verify_routes _ _ rest _) as [final| |]; [|exact IH|now apply Exists_cons_tl].
      replace (k + S (length rest)) with (S k + length rest) by lia.
      destruct IH as [Hfinal Htotal]. split; [exact Hfinal|exact Htotal].
Qed.

(** C5: [Verify] never returns an error value. The report it returns has
    valid = false whenever matchedCount < totalRoutes, and valid = true
    exactly when matchedCount = totalRoutes and the error list is empty.
    It returns no report only when it panics, which takes a route whose
    recipient is a bech32 address of more than 32 bytes. *)
Theorem Verify_report_consistent (routes : Routes) (txRaw : TxRaw) :
  match Verify routes txRaw with
  | Ok result =>
      TotalRoutes result = length (rs_Routes routes)
      /\ (MatchedCount result < TotalRoutes result -> Valid result = false)
      /\ (Valid result = true
          <-> MatchedCount result = TotalRoutes result /\ Errors result = [])
  | Err _ => False
  | Panic _ => Exists oversized_recipient (rs_Routes routes)
  end.
Proof.
  unfold Verify.
  destruct (TxBody_Unmarshal (BodyBytes txRaw)) as [txBody|].
  - unfold verify_messages.
    set (start := {| Valid := true; MatchedCount := 0;
                     TotalRoutes := length (rs_Routes routes);
                     Errors := []; Warnings := [] |}).
    set (checked := if negb _ then _ else start).
    assert (Hc : consistent 0 checked /\ TotalRoutes checked = length (rs_Routes routes)).
    { subst checked. destruct (negb _); cbn.
      - split; [|reflexivity]. unfold consistent. cbn. repeat split; try discriminate; lia.
      - split; [|reflexivity]. unfold consistent. cbn. repeat split; lia. }
    destruct Hc as [Hc Htotal].
    pose proof (verify_routes_outcome (remote_transfers (Messages txBody))
                  (rs_Routes routes) 0 0 checked Hc) as H.
    destruct (verify_routes _ 0 (rs_Routes routes) checked) as [final| |];
      [|exact H|exact H].
    destruct H as [(Hv & Hm & Hle) Hfinal]. cbn [Nat.add] in *.
    rewrite Hfinal, Htotal. split; [reflexivity|]. split.
    + intros Hlt. destruct (Valid final); [|reflexivity].
      specialize (Hm eq_refl). lia.
    + split.
      * intros Hvalid. split; [now apply Hm|now apply Hv].
      * intros [_ Herr]. now apply Hv.
  - cbn. split; [reflexivity|]. split; [reflexivity|].
    split; [discriminate|]. intros [_ Herr]. discriminate Herr.
Qed.

(** ** Where the code departs from the specification *)

(** C1, the behaviour of the code: for the route of the verifier test with
    base amount 1000000 and override 500000, [Generate] emits a message of
    amount 1000000, the base amount; [MatchesRoute] expects the override,
    500000, and so rejects the message generated for the route. *)
Theorem Generate_ignores_amount_override :
  NewIntFromString "1000000" = Some 1000000%Z ->
  Generate Sample.generator (Sample.routes_of [Sample.route_override])
  = Ok [Sample.message_generated]
  /\ msg_Amount Sample.message_generated = 1000000%Z
  /\ expected_amount Sample.route_override Sample.route_info_full = "500000"
  /\ MatchesRoute Sample.message_generated Sample.route_override = Ok false
  /\ MatchesRoute Sample.message_for_full Sample.route_override = Ok true.
Proof.
  intros Hparse. split; [|repeat split].
  unfold Generate. cbn [Sample.routes_of rs_Routes foldM].
  unfold generate_route.
  cbn [Sample.route_override hr_RouteInfo hr_Amount hr_TxHash].
  rewrite Hparse. reflexivity.
Qed.

(** C3, the behaviour of the code: a bank send to the multisig in a
    transaction whose memo is a JSON object with a destination domain only
    is admitted as a route whose recipient and token id are empty. *)
Theorem memo_route_lacks_recipient_and_token (value : list byte) :
  json_Unmarshal_RoutingMetadata Sample.memo_domain_only
  = Some {| rm_DestinationDomain := 137; rm_Recipient := ""; rm_TokenID := "" |} ->
  MsgSend_Unmarshal value = Some Sample.memo_send ->
  NewIntFromString "1000000" = Some 1000000%Z ->
  ParseRoutes
    (Sample.parser_of
       [Sample.tx_of "TX-MEMO" Sample.memo_domain_only
          [ {| TypeUrl := url_MsgSend; Value := value |} ]])
    "celestia1multisig" 100 100
  = Ok ({| rs_Routes := [Sample.memo_route];
           rs_TotalAmount := "1000000";
           rs_MultisigAddr := "celestia1multisig" |}, [])
  /\ (exists routeInfo,
        hr_RouteInfo Sample.memo_route = Some routeInfo
        /\ ri_Recipient routeInfo = "" /\ ri_TokenID routeInfo = "").
Proof.
  intros Hmemo Hsend Hamount. split; [|eexists; repeat split].
  assert (Htransfers :
    ExtractHyperlaneTransfers
      (Sample.tx_of "TX-MEMO" Sample.memo_domain_only
         [ {| TypeUrl := url_MsgSend; Value := value |} ])
    = [ {| ht_From := "celestia1multisig"; ht_To := ""; ht_Amount := "1000000";
           ht_DestinationDomain := 137; ht_TokenID := "";
           ht_CustomHookMetadata := "" |} ]).
  { unfold ExtractHyperlaneTransfers, memo_routing. cbn [Sample.tx_of tx_Tx Body tx_Memo].
    replace (String.eqb Sample.memo_domain_only "") with false by reflexivity.
    rewrite Hmemo. cbn [Messages extract_messages fold_left].
    unfold extract_message, extract_remote_transfer, extract_bank_send.
    cbn [TypeUrl Value].
    replace (String.eqb url_MsgSend url_MsgRemoteTransfer) with false by reflexivity.
    replace (String.eqb url_MsgSend url_MsgSend) with true by reflexivity.
    rewrite Hsend. reflexivity. }
  unfold ParseRoutes, parse_transactions, FilterHyperlaneTransfersToAddress.
  cbn [Sample.parser_of GetTransactionsByHeight config].
  rewrite filter_cons, filter_nil, Htransfers.
  replace (targetHex_of "celestia1multisig")
    with (match AccAddressFromBech32 "celestia1multisig" with
          | Some addr =>
              let targetHex := "0x" +:+ EncodeToString addr in
              if (String.length targetHex <? 66)%nat
              then "0x" +:+ Repeat "0" (66 - String.length targetHex)
                        +:+ string_drop 2 targetHex
              else targetHex
          | None => ""
          end) by reflexivity.
  unfold transfer_to_target. cbn [ht_To ht_From].
  replace (String.eqb (ToLower "celestia1multisig") (ToLower "celestia1multisig"))
    with true by reflexivity.
  rewrite orb_true_r. cbn [orb].
  destruct (decide (true = true)) as [_|Hne]; [|now destruct Hne].
  cbn [foldM]. unfold parse_tx at 1. rewrite Htransfers. cbn [foldM].
  unfold parse_transfer, resolve_route_info, check_whitelist, admit_route.
  cbn [ht_From ht_CustomHookMetadata ht_DestinationDomain ht_To ht_TokenID ht_Amount].
  replace (negb (String.eqb "celestia1multisig" "celestia1multisig")) with false
    by reflexivity.
  replace (negb (String.eqb "" "")) with false by reflexivity.
  cbn [negb N.eqb Pos.eqb mbind go_bind].
  change (effective_amount _ _) with "1000000" at 1.
  rewrite Hamount. reflexivity.
Qed.

(** C4, the behaviour of the code: with two routes carrying the same
    routing request and two candidate messages of which only the first
    matches, [Verify] matches the first message to both routes and reports
    valid = true with 2 of 2 matched; the second message, to another
    recipient, matches no route at all. *)
Theorem Verify_counts_one_message_twice (body value1 value2 : list byte) :
  TxBody_Unmarshal body
  = Some {| Messages := [ {| TypeUrl := url_MsgRemoteTransfer; Value := value1 |};
                          {| TypeUrl := url_MsgRemoteTransfer; Value := value2 |} ] |} ->
  MsgRemoteTransfer_Unmarshal value1 = Some Sample.message_for_full ->
  MsgRemoteTransfer_Unmarshal value2 = Some Sample.message_elsewhere ->
  Verify (Sample.routes_of [Sample.route_override; Sample.route_override_again])
         {| BodyBytes := body |}
  = Ok {| Valid := true; MatchedCount := 2; TotalRoutes := 2;
          Errors := []; Warnings := [] |}
  /\ MatchesRoute Sample.message_elsewhere Sample.route_override = Ok false
  /\ MatchesRoute Sample.message_elsewhere Sample.route_override_again = Ok false.
Proof.
  intros Hbody H1 H2. split; [|split; reflexivity].
  unfold Verify. cbn [BodyBytes]. rewrite Hbody.
  unfold remote_transfers. cbn [Messages fold_left TypeUrl Value].
  replace (String.eqb url_MsgRemoteTransfer url_MsgRemoteTransfer) with true
    by reflexivity.
  rewrite H1, H2. reflexivity.
Qed.

End Properties.

(** ** The repository's tests, replayed on the embedding *)

Example test_parseTokenID_valid :
  parseTokenID Sample.token_id = Ok (msg_TokenId Sample.message_for_full)
  /\ length (msg_TokenId Sample.message_for_full) = 32.
Proof. split; reflexivity. Qed.

Example test_parseTokenID_short : parseTokenID "0x1234" = Err (ErrTokenIDLength 2).
Proof. reflexivity. Qed.

Example test_parseTokenID_not_hex : parseTokenID "0xZZZZ" = Err ErrTokenIDHex.
Proof. reflexivity. Qed.

Example test_parseTokenID_empty : parseTokenID "" = Err (ErrTokenIDLength 0).
Proof. reflexivity. Qed.

Example test_parseAndPadAddress_evm :
  parseAndPadAddress (Ext := Sample.externals) Sample.evm_recipient
  = Ok (make 12 ++ Sample.address20).
Proof. reflexivity. Qed.

Example test_parseAndPadAddress_short :
  parseAndPadAddress (Ext := Sample.externals) "0x1234" = Ok (make 30 ++ [x12; x34]).
Proof. reflexivity. Qed.

Example test_parseAndPadAddress_not_hex :
  parseAndPadAddress (Ext := Sample.externals) "0xZZZZ" = Err ErrDecodeEVM.
Proof. reflexivity. Qed.

Example test_parseAndPadAddress_without_0x :
  parseAndPadAddress (Ext := Sample.externals) "742d35Cc6634C0532925a3b844Bc9e7595f0bEb"
  = Err ErrDecodeBech32.
Proof. reflexivity. Qed.

Example test_parseAndPadAddress_invalid_bech32 :
  parseAndPadAddress (Ext := Sample.externals) "celestia1abc123def456ghi789"
  = Err ErrDecodeBech32.
Proof. reflexivity. Qed.

Example test_parseAndPadAddress_empty :
  parseAndPadAddress (Ext := Sample.externals) "" = Err ErrDecodeBech32.
Proof. reflexivity. Qed.

(** Beyond the tests: a bech32 address of 33 bytes. *)
Example parseAndPadAddress_bech32_33_bytes :
  parseAndPadAddress (Ext := Sample.externals) Sample.bech32_of_33_bytes
  = Panic (SliceBoundsOutOfRange (-1)).
Proof. reflexivity. Qed.

Example test_ValidateRoute_exact :
  ValidateRoute (Some Sample.test_config)
    (Sample.route_info_to 2340 "0x742d35cc6634c0532925a3b844bc9e7595f0beb0") = Ok tt.
Proof. reflexivity. Qed.

Example test_ValidateRoute_case_insensitive :
  ValidateRoute (Some Sample.test_config)
    (Sample.route_info_to 2340 "0x742D35CC6634C0532925A3B844BC9E7595F0BEB0") = Ok tt.
Proof. reflexivity. Qed.

Example test_ValidateRoute_not_whitelisted :
  ValidateRoute (Some Sample.test_config)
    (Sample.route_info_to 2340 "0x9999999999999999999999999999999999999999")
  = Err (ErrNotWhitelisted "0x9999999999999999999999999999999999999999" 2340).
Proof. reflexivity. Qed.

Example test_ValidateRoute_unknown_domain :
  ValidateRoute (Some Sample.test_config)
    (Sample.route_info_to 99999 "0x742d35cc6634c0532925a3b844bc9e7595f0beb0")
  = Err (ErrDomainNotConfigured 99999).
Proof. reflexivity. Qed.

Example test_MatchesRoute_domain_mismatch :
  MatchesRoute (Ext := Sample.externals) Sample.message_for_full
    {| hr_TxHash := "DEF456"; hr_BlockHeight := 1000001; hr_From := "celestia1sender";
       hr_Amount := "500000"; hr_Denom := "utia"; hr_CustomHookMetadata := "";
       hr_RouteInfo := Some (Sample.route_info_to 137 Sample.evm_recipient) |}
  = Ok false.
Proof. reflexivity. Qed.

Example test_MatchesRoute_bech32_recipient :
  MatchesRoute (Ext := Sample.externals) Sample.message_for_full
    {| hr_TxHash := "DEF456"; hr_BlockHeight := 1000001; hr_From := "celestia1sender";
       hr_Amount := "500000"; hr_Denom := "utia"; hr_CustomHookMetadata := "";
       hr_RouteInfo := Some (Sample.route_info_to 1380012617 Sample.bech32_recipient) |}
  = Ok true.
Proof. reflexivity. Qed.

Example test_Verify_count_mismatch :
  Verify (Ext := Sample.externals)
    (Sample.routes_of [Sample.route_override; Sample.route_override_again])
    {| BodyBytes := [x22] |}
  = Ok {| Valid := false; MatchedCount := 2; TotalRoutes := 2;
          Errors := [VerrMessageCount 1 2]; Warnings := [] |}.
Proof. reflexivity. Qed.

Lemma parseAndPadAddress_too_long_panics_witness :
  @parseAndPadAddress Sample.externals ("0x" +:+ EncodeToString (replicate 33 x00))
  = Panic (SliceBoundsOutOfRange (-1)).
Proof.
  apply (@parseAndPadAddress_too_long_panics Sample.externals _ (replicate 33 x00)).
  - reflexivity.
  - vm_compute. lia.
Defined.

Lemma parseAndPadAddress_hex_bech32_agree_witness :
  @parseAndPadAddress Sample.externals Sample.evm_recipient_lower
  = @parseAndPadAddress Sample.externals Sample.bech32_recipient
  /\ @parseAndPadAddress Sample.externals Sample.evm_recipient_lower
     = Ok (replicate 12 x00 ++ Sample.address20)
  /\ length (replicate 12 x00 ++ Sample.address20) = 32.
Proof.
  apply (@parseAndPadAddress_hex_bech32_agree Sample.externals Sample.address20);
    reflexivity.
Defined.

Lemma bank_send_first_coin_only_witness :
  @ExtractHyperlaneTransfers Sample.externals Sample.two_coin_tx
  = [ {| ht_From := "celestia1multisig";
         ht_To := Sample.evm_recipient;
         ht_Amount := "7";
         ht_DestinationDomain := 1380012617;
         ht_TokenID := Sample.token_id;
         ht_CustomHookMetadata := "" |} ].
Proof.
  exact (@bank_send_first_coin_only Sample.externals Sample.two_coin_tx _ _ _
           [] [] (Sample.bank_send x12) _
           eq_refl eq_refl eq_refl eq_refl eq_refl eq_refl).
Defined.

Lemma Generate_ignores_amount_override_witness :
  Generate (Ext := Sample.externals) Sample.generator
    (Sample.routes_of [Sample.route_override])
  = Ok [Sample.message_generated]
  /\ MatchesRoute (Ext := Sample.externals) Sample.message_generated Sample.route_override
     = Ok false.
Proof.
  destruct (Generate_ignores_amount_override (Ext := Sample.externals) eq_refl)
    as (Hgen & _ & _ & Hno & _).
  exact (conj Hgen Hno).
Defined.

Lemma memo_route_lacks_recipient_and_token_witness :
  ParseRoutes (Ext := Sample.externals) (Sample.parser_of [Sample.memo_tx])
    "celestia1multisig" 100 100
  = Ok ({| rs_Routes := [Sample.memo_route];
           rs_TotalAmount := "1000000";
           rs_MultisigAddr := "celestia1multisig" |}, []).
Proof.
  exact (proj1 (memo_route_lacks_recipient_and_token (Ext := Sample.externals)
                  [x10] eq_refl eq_refl eq_refl)).
Defined.

Lemma Verify_counts_one_message_twice_witness :
  Verify (Ext := Sample.externals)
    (Sample.routes_of [Sample.route_override; Sample.route_override_again])
    {| BodyBytes := [x21] |}
  = Ok {| Valid := true; MatchedCount := 2; TotalRoutes := 2;
          Errors := []; Warnings := [] |}.
Proof.
  exact (proj1 (Verify_counts_one_message_twice (Ext := Sample.externals)
                  [x21] [x01] [x02] eq_refl eq_refl eq_refl)).
Defined.

Lemma ParseCustomHookMetadata_cases_witness :
  ParseCustomHookMetadata (Ext := Sample.externals) Sample.metadata_invalid
  = Err ErrMetadataJSON
  /\ ParseCustomHookMetadata (Ext := Sample.externals) Sample.metadata_no_amount
     = Ok Sample.route_info_no_amount
  /\ (exists field,
        ParseCustomHookMetadata (Ext := Sample.externals) Sample.metadata_no_domain
        = Err (ErrRequired field)).
Proof.
  split; [|split].
  - exact (proj1 (ParseCustomHookMetadata_cases (Ext := Sample.externals)
                    Sample.metadata_invalid) eq_refl).
  - refine (proj1 (proj2 (proj2 (ParseCustomHookMetadata_cases (Ext := Sample.externals)
                                  Sample.metadata_no_amount)
                            Sample.route_info_no_amount eq_refl) _ _ _)); discriminate.
  - refine (proj1 (proj1 (proj2 (ParseCustomHookMetadata_cases (Ext := Sample.externals)
                                  Sample.metadata_no_domain) _ eq_refl)) _).
    left. reflexivity.
Defined.

Lemma ValidateRoute_cases_witness :
  ValidateRoute (Some Sample.config_loaded)
    {| ri_DestinationDomain := 2340; ri_Recipient := Sample.evm_recipient;
       ri_TokenID := Sample.token_id; ri_Amount := "" |}
  = Ok tt.
Proof.
  refine (proj2 (ValidateRoute_cases (Ext := Sample.externals)
                   (Some Sample.config_text) Sample.config_loaded
                   {| ri_DestinationDomain := 2340; ri_Recipient := Sample.evm_recipient;
                      ri_TokenID := Sample.token_id; ri_Amount := "" |} eq_refl)
            Sample.config_text Sample.config_file
            [ "0x742D35CC6634C0532925A3B844BC9E7595F0BEB0";
              "0x1111111111111111111111111111111111111111" ]
            "0x742D35CC6634C0532925A3B844BC9E7595F0BEB0" eq_refl eq_refl _ _ eq_refl).
  - reflexivity.
  - left.
Defined.

Lemma ParseRoutes_skip_and_continue_witness :
  exists routes out,
    ParseRoutes (Ext := Sample.externals)
      (Sample.parser_of [Sample.good_tx; Sample.bad_tx; Sample.good_tx])
      "celestia1multisig" 100 100 = Ok (routes, out)
    /\ length (rs_Routes routes) = 2.
Proof.
  edestruct (ParseRoutes_skip_and_continue (Ext := Sample.externals)
               (Sample.parser_of [Sample.good_tx; Sample.bad_tx; Sample.good_tx])
               "celestia1multisig" 100 100 [Sample.good_tx] [Sample.good_tx] Sample.bad_tx)
    as [[out Hparse] [Hcount _]].
  - reflexivity.
  - constructor; [|constructor].
    left. split; [discriminate|]. eexists. reflexivity.
  - reflexivity.
  - eexists _, out. split; [exact Hparse|].
    apply Hcount.
    constructor; [|constructor; [|constructor]];
      eexists _, _; split; reflexivity.
Defined.

(** * Further properties of the packages *)

(** ** Hex strings *)

Lemma fromHexChar_lower (a : ascii) (v : N) :
  fromHexChar a = Some v -> (v < 16)%N /\ hexDigit v = toLowerAscii a.
Proof.
  destruct a as [[] [] [] [] [] [] [] []]; cbn; intros H; try discriminate H;
    injection H as <-; split; reflexivity.
Qed.

Lemma fromHexChar_toLowerAscii (a : ascii) : fromHexChar (toLowerAscii a) = fromHexChar a.
Proof. destruct a as [[] [] [] [] [] [] [] []]; reflexivity. Qed.

Lemma fromHexChar_not_x (a : ascii) (v : N) :
  fromHexChar a = Some v -> toLowerAscii a <> "x"%char.
Proof.
  destruct a as [[] [] [] [] [] [] [] []]; cbn; intros H; try discriminate H; discriminate.
Qed.

(** Induction on strings two characters at a time. *)
Lemma string_pair_ind (P : string -> Prop) :
  P "" -> (forall a, P (String a "")) ->
  (forall a b s, P s -> P (String a (String b s))) ->
  forall s, P s.
Proof.
  intros H0 H1 H2 s.
  assert (H : P s /\ forall a, P (String a s)); [|exact (proj1 H)].
  induction s as [|b s [IH IH']]; split; auto.
Qed.

Lemma DecodeString_ToLower (s : string) : DecodeString (ToLower s) = DecodeString s.
Proof.
  induction s as [|a|a b s IH] using string_pair_ind; [reflexivity|reflexivity|].
  cbn [ToLower DecodeString]. now rewrite !fromHexChar_toLowerAscii, IH.
Qed.

(** What decodes is the hex rendering of its bytes, letter case apart. *)
Lemma EncodeToString_DecodeString (s : string) (bytes : list byte) :
  DecodeString s = Some bytes -> EncodeToString bytes = ToLower s.
Proof.
  revert bytes.
  induction s as [|a|a b s IH] using string_pair_ind; intros bytes; cbn [DecodeString].
  - now intros [= <-].
  - discriminate.
  - destruct (fromHexChar a) as [hi|] eqn:Ha; [|discriminate].
    destruct (fromHexChar b) as [lo|] eqn:Hb; [|discriminate].
    cbn [mbind option_bind].
    destruct (Byte.of_N (16 * hi + lo)) as [v|] eqn:Hv; [|discriminate].
    destruct (DecodeString s) as [rest|]; [|discriminate].
    cbn [mbind option_bind]. intros [= <-].
    apply fromHexChar_lower in Ha as [Hhi Ha], Hb as [Hlo Hb].
    apply Byte.to_of_N in Hv.
    cbn [EncodeToString ToLower]. rewrite Hv, (IH rest eq_refl).
    replace ((16 * hi + lo) / 16)%N with hi.
    + replace ((16 * hi + lo) mod 16)%N with lo; [now rewrite Ha, Hb|].
      apply N.mod_unique with hi; [exact Hlo|reflexivity].
    + apply N.div_unique with lo; [exact Hlo|reflexivity].
Qed.

Lemma EncodeToString_inj (b1 b2 : list byte) :
  EncodeToString b1 = EncodeToString b2 -> b1 = b2.
Proof.
  intros H. pose proof (DecodeString_EncodeToString b1) as H1.
  rewrite H, DecodeString_EncodeToString in H1. now injection H1.
Qed.

Lemma strip_prefix_Some (prefix s rest : string) :
  strip_prefix prefix s = Some rest -> s = prefix +:+ rest.
Proof.
  revert s. induction prefix as [|a prefix IH]; intros s; cbn.
  - now intros [= <-].
  - destruct s as [|b s]; [discriminate|].
    destruct (Ascii.eqb_spec a b) as [<-|]; [|discriminate].
    intros H. now rewrite (IH s H).
Qed.

(** Lower-casing commutes with stripping 0x, on what decodes as hex after it. *)
Lemma TrimPrefix_ToLower_hex (s : string) (bytes : list byte) :
  DecodeString (TrimPrefix s "0x") = Some bytes ->
  TrimPrefix (ToLower s) "0x" = ToLower (TrimPrefix s "0x").
Proof.
  unfold TrimPrefix. destruct (strip_prefix "0x" s) as [rest|] eqn:Hs.
  - intros _. apply strip_prefix_Some in Hs as ->.
    change (ToLower ("0x" +:+ rest)) with ("0x" +:+ ToLower rest).
    now rewrite strip_prefix_app.
  - intros Hdec. destruct s as [|a [|b s]]; [reflexivity|discriminate Hdec|].
    cbn [DecodeString] in Hdec.
    destruct (fromHexChar a) as [hi|]; [|discriminate].
    destruct (fromHexChar b) as [lo|] eqn:Hb; [|discriminate].
    apply fromHexChar_not_x in Hb.
    cbn [ToLower strip_prefix].
    destruct (Ascii.eqb "0" (toLowerAscii a)); [|reflexivity].
    destruct (Ascii.eqb_spec "x" (toLowerAscii b)) as [Heq|]; [|reflexivity].
    now destruct Hb.
Qed.

Lemma EncodeToString_no_0x (bytes : list byte) :
  strip_prefix "0x" (EncodeToString bytes) = None.
Proof. destruct bytes as [|b rest]; [reflexivity|]. destruct b; reflexivity. Qed.

Section GeneratorProperties.
Context `{Ext : Externals}.

(** ** parseTokenID and parseAndPadAddress *)

Lemma parseTokenID_Ok_inv (tokenIDStr : string) (tokenID : HexAddress) :
  parseTokenID tokenIDStr = Ok tokenID ->
  DecodeString (TrimPrefix tokenIDStr "0x") = Some tokenID /\ length tokenID = 32.
Proof.
  unfold parseTokenID.
  destruct (DecodeString (TrimPrefix tokenIDStr "0x")) as [decoded|]; [|discriminate].
  destruct (Nat.eqb_spec (length decoded) 32) as [Hlen|]; cbn [negb]; [|discriminate].
  rewrite toHexAddress_32 by exact Hlen. now intros [= <-].
Qed.

Lemma parseTokenID_encoded (tokenID : HexAddress) :
  length tokenID = 32 ->
  parseTokenID ("0x" +:+ EncodeToString tokenID) = Ok tokenID
  /\ parseTokenID (EncodeToString tokenID) = Ok tokenID.
Proof.
  intros Hlen. unfold parseTokenID. rewrite TrimPrefix_app.
  unfold TrimPrefix at 1. rewrite EncodeToString_no_0x.
  rewrite DecodeString_EncodeToString, Hlen. cbn [Nat.eqb negb].
  split; now apply toHexAddress_32.
Qed.

(** X1: a token id that [parseTokenID] returns has exactly 32 bytes and its
    hex rendering is the input without 0x, in lower case; conversely the
    hex rendering of any 32 bytes, with or without 0x, parses back to them. *)
Theorem parseTokenID_roundtrip (tokenIDStr : string) (tokenID : HexAddress) :
  (parseTokenID tokenIDStr = Ok tokenID ->
   length tokenID = 32
   /\ EncodeToString tokenID = ToLower (TrimPrefix tokenIDStr "0x"))
  /\ (length tokenID = 32 ->
      parseTokenID ("0x" +:+ EncodeToString tokenID) = Ok tokenID
      /\ parseTokenID (EncodeToString tokenID) = Ok tokenID).
Proof.
  split.
  - intros H. apply parseTokenID_Ok_inv in H as [Hdec Hlen].
    split; [exact Hlen|]. now apply EncodeToString_DecodeString.
  - apply parseTokenID_encoded.
Qed.

Lemma decode_address_no_panic (addrStr : string) (p : panic) :
  decode_address addrStr <> Panic p.
Proof.
  unfold decode_address. destruct (HasPrefix addrStr "0x").
  - now destruct (DecodeString _).
  - now destruct (AccAddressFromBech32 _).
Qed.

Lemma parseAndPadAddress_Ok_inv (addrStr : string) (padded : HexAddress) :
  parseAndPadAddress addrStr = Ok padded ->
  exists addrBytes,
    decode_address addrStr = Ok addrBytes /\ length addrBytes <= 32
    /\ padded = replicate (32 - length addrBytes) x00 ++ addrBytes.
Proof.
  intros H. destruct (decode_address addrStr) as [addrBytes| |] eqn:Hdec.
  - exists addrBytes. split; [reflexivity|].
    destruct (le_lt_dec (length addrBytes) 32) as [Hle|Hgt].
    + split; [exact Hle|].
      destruct (parseAndPadAddress_pads addrStr addrBytes Hdec Hle) as [Hok _].
      rewrite Hok in H. now injection H as <-.
    + unfold parseAndPadAddress in H. rewrite Hdec in H. cbn [mbind go_bind] in H.
      rewrite leftPad32_too_long in H by exact Hgt. discriminate H.
  - unfold parseAndPadAddress in H. rewrite Hdec in H. discriminate H.
  - unfold parseAndPadAddress in H. rewrite Hdec in H. discriminate H.
Qed.

(** X2: every way [parseAndPadAddress] can end. A returned value has 32
    bytes: the decoded address at the end, zero bytes before it. An error
    is the decoding error of the address string. A panic means that the
    address decoded to more than 32 bytes. *)
Theorem parseAndPadAddress_outcome (addrStr : string) :
  match parseAndPadAddress addrStr with
  | Ok padded =>
      length padded = 32
      /\ exists addrBytes,
           decode_address addrStr = Ok addrBytes
           /\ padded = replicate (32 - length addrBytes) x00 ++ addrBytes
  | Err e =>
      decode_address addrStr = Err e /\ (e = ErrDecodeEVM \/ e = ErrDecodeBech32)
  | Panic _ => exists addrBytes, decode_address addrStr = Ok addrBytes /\ 32 < length addrBytes
  end.
Proof.
  destruct (parseAndPadAddress addrStr) as [padded|e|p] eqn:H.
  - destruct (parseAndPadAddress_Ok_inv _ _ H) as (addrBytes & Hdec & Hle & ->).
    split; [|eauto]. rewrite length_app, length_replicate. lia.
  - unfold parseAndPadAddress in H.
    destruct (decode_address addrStr) as [addrBytes|e'|] eqn:Hdec;
      cbn [mbind go_bind] in H; [|injection H as ->|discriminate H].
    + destruct (le_lt_dec (length addrBytes) 32) as [Hle|Hgt].
      * rewrite leftPad32_fits in H by exact Hle. cbn [mbind go_bind] in H.
        rewrite toHexAddress_32 in H; [discriminate H|].
        rewrite length_app, length_replicate. lia.
      * rewrite leftPad32_too_long in H by exact Hgt. discriminate H.
    + split; [reflexivity|]. unfold decode_address in Hdec.
      destruct (HasPrefix addrStr "0x").
      * destruct (DecodeString _); [discriminate Hdec|]. injection Hdec as <-. now left.
      * destruct (AccAddressFromBech32 _); [discriminate Hdec|].
        injection Hdec as <-. now right.
  - unfold parseAndPadAddress in H.
    destruct (decode_address addrStr) as [addrBytes| |] eqn:Hdec;
      cbn [mbind go_bind] in H; [|discriminate H|now destruct (decode_address_no_panic _ _ Hdec)].
    exists addrBytes. split; [reflexivity|].
    destruct (le_lt_dec (length addrBytes) 32) as [Hle|Hgt]; [|exact Hgt].
    rewrite leftPad32_fits in H by exact Hle. cbn [mbind go_bind] in H.
    rewrite toHexAddress_32 in H; [discriminate H|].
    rewrite length_app, length_replicate. lia.
Qed.

(** ** Generate *)

Lemma generate_route_Ok_inv (g : Generator) (msgs msgs' : list MsgRemoteTransfer)
    (route : HyperlaneRoute) :
  generate_route g msgs route = Ok msgs' ->
  exists msg, msgs' = msgs ++ [msg] /\ generated_for g route msg.
Proof.
  unfold generate_route, generated_for.
  destruct (hr_RouteInfo route) as [routeInfo|]; [|discriminate].
  destruct (NewIntFromString (hr_Amount route)) as [amount|]; [|discriminate].
  destruct (parseTokenID _) as [tokenID| |] eqn:Htok; cbn; try discriminate.
  destruct (parseAndPadAddress _) as [recipient| |] eqn:Hrec; cbn; try discriminate.
  intros [= <-]. eexists. split; [reflexivity|].
  exists routeInfo. cbn. rewrite Htok, Hrec. repeat split.
Qed.

Lemma generate_route_from (g : Generator) (msgs : list MsgRemoteTransfer)
    (route : HyperlaneRoute) :
  generate_route g msgs route
  = (new ← generate_route g [] route; Ok (msgs ++ new)).
Proof.
  unfold generate_route.
  destruct (hr_RouteInfo route) as [routeInfo|]; [|reflexivity].
  destruct (NewIntFromString (hr_Amount route)) as [amount|]; [|reflexivity].
  destruct (parseTokenID _) as [tokenID| |]; cbn; try reflexivity.
  destruct (parseAndPadAddress _) as [recipient| |]; cbn; reflexivity.
Qed.

Lemma generate_loop_Ok_inv (g : Generator) (routes : list HyperlaneRoute) :
  forall msgs msgs',
    foldM (generate_route g) msgs routes = Ok msgs' ->
    exists new, msgs' = msgs ++ new /\ Forall2 (generated_for g) routes new.
Proof.
  induction routes as [|route rest IH]; intros msgs msgs'; cbn [foldM].
  - intros [= <-]. exists []. split; [now rewrite app_nil_r|constructor].
  - destruct (generate_route g msgs route) as [msgs1| |] eqn:Hroute; cbn [mbind go_bind];
      try discriminate.
    intros Hrest. apply generate_route_Ok_inv in Hroute as (msg & -> & Hmsg).
    apply IH in Hrest as (new & -> & Hnew).
    exists (msg :: new). split; [now rewrite <- app_assoc|now constructor].
Qed.

(** X3: when [Generate] returns messages there is one per route, in the
    order of the routes, and the message of a route has the generator's
    multisig address as sender, the route's destination domain, the parsed
    base amount, the parsed token id, the padded recipient and no hook
    metadata. *)
Theorem Generate_one_message_per_route (g : Generator) (routes : Routes)
    (msgs : list MsgRemoteTransfer) :
  Generate g routes = Ok msgs ->
  Forall2 (generated_for g) (rs_Routes routes) msgs
  /\ length msgs = length (rs_Routes routes).
Proof.
  unfold Generate. intros H.
  apply generate_loop_Ok_inv in H as (new & -> & Hall). cbn [app].
  split; [exact Hall|]. symmetry. eapply Forall2_length. exact Hall.
Qed.

(** X4: generation is all or nothing. When the routes before a route
    generate and that route has no routing information, or an amount that
    does not parse, [Generate] returns the error of that route and no
    message, whatever follows. *)
Theorem Generate_stops_at_first_bad_route (g : Generator) (routes : Routes)
    (before after : list HyperlaneRoute) (route : HyperlaneRoute) :
  rs_Routes routes = before ++ route :: after ->
  Forall (fun r => exists msg, generate_route g [] r = Ok [msg]) before ->
  (hr_RouteInfo route = None ->
   Generate g routes = Err (ErrNoRoutingInfo (hr_TxHash route)))
  /\ (forall routeInfo, hr_RouteInfo route = Some routeInfo ->
        NewIntFromString (hr_Amount route) = None ->
        Generate g routes = Err (ErrInvalidAmount (hr_Amount route) (hr_TxHash route))).
Proof.
  intros Hroutes Hbefore. unfold Generate. rewrite Hroutes, foldM_app.
  assert (Hpre : exists msgs, foldM (generate_route g) [] before = Ok msgs).
  { clear Hroutes. generalize (@nil MsgRemoteTransfer).
    induction Hbefore as [|r rest [msg Hr] _ IH]; intros acc; cbn [foldM]; [eauto|].
    rewrite generate_route_from, Hr. cbn [mbind go_bind]. apply IH. }
  destruct Hpre as [msgs ->]. cbn [mbind go_bind foldM]. unfold generate_route.
  split.
  - intros ->. reflexivity.
  - intros routeInfo -> ->. reflexivity.
Qed.

End GeneratorProperties.

Section VerifierProperties.
Context `{Ext : Externals}.

(** ** MatchesRoute *)

Lemma expected_recipient_of_parse (routeInfo : RouteInfo) (recipient : HexAddress) :
  parseAndPadAddress (ri_Recipient routeInfo) = Ok recipient ->
  expected_recipient_hex routeInfo = Ok (EncodeToString recipient).
Proof.
  intros H. apply parseAndPadAddress_Ok_inv in H as (addrBytes & Hdec & Hle & ->).
  unfold decode_address in Hdec. unfold expected_recipient_hex.
  destruct (HasPrefix (ri_Recipient routeInfo) "0x") eqn:Hprefix; cbn [negb].
  - destruct (DecodeString (TrimPrefix (ri_Recipient routeInfo) "0x")) as [decoded|] eqn:Hd;
      [|discriminate]. injection Hdec as ->.
    rewrite (TrimPrefix_ToLower_hex _ _ Hd), DecodeString_ToLower, Hd.
    destruct (Nat.ltb_spec (length addrBytes) 32) as [Hlt|Hge].
    + now rewrite leftPad32_fits by exact Hle.
    + replace (32 - length addrBytes) with 0 by lia. cbn [replicate app].
      now rewrite (EncodeToString_DecodeString _ _ Hd).
  - destruct (AccAddressFromBech32 (ri_Recipient routeInfo)) as [addr|]; [|discriminate].
    injection Hdec as ->. now rewrite leftPad32_fits by exact Hle.
Qed.

Lemma MatchesRoute_true_inv (msg : MsgRemoteTransfer) (route : HyperlaneRoute) :
  MatchesRoute msg route = Ok true ->
  exists routeInfo expectedRecipientHex,
    hr_RouteInfo route = Some routeInfo
    /\ msg_DestinationDomain msg = ri_DestinationDomain routeInfo
    /\ Int_String (msg_Amount msg) = expected_amount route routeInfo
    /\ EncodeToString (msg_TokenId msg) = TrimPrefix (ToLower (ri_TokenID routeInfo)) "0x"
    /\ expected_recipient_hex routeInfo = Ok expectedRecipientHex
    /\ EncodeToString (msg_Recipient msg) = expectedRecipientHex.
Proof.
  unfold MatchesRoute.
  destruct (hr_RouteInfo route) as [routeInfo|]; [|discriminate].
  destruct (N.eqb_spec (msg_DestinationDomain msg) (ri_DestinationDomain routeInfo));
    cbn [negb]; [|discriminate].
  destruct (String.eqb_spec (Int_String (msg_Amount msg)) (expected_amount route routeInfo));
    cbn [negb]; [|discriminate].
  destruct (String.eqb_spec (EncodeToString (msg_TokenId msg))
              (TrimPrefix (ToLower (ri_TokenID routeInfo)) "0x")); cbn [negb]; [|discriminate].
  destruct (expected_recipient_hex routeInfo) as [h| |] eqn:He; cbn [mbind go_bind];
    [|discriminate|discriminate].
  destruct (String.eqb_spec (EncodeToString (msg_Recipient msg)) h); cbn [negb];
    [|discriminate].
  intros _. exists routeInfo, h. repeat split; first [assumption|reflexivity].
Qed.

Lemma MatchesRoute_generated (g : Generator) (route : HyperlaneRoute)
    (routeInfo : RouteInfo) (msg : MsgRemoteTransfer) :
  generated_for g route msg ->
  hr_RouteInfo route = Some routeInfo ->
  Int_String (msg_Amount msg) = expected_amount route routeInfo ->
  MatchesRoute msg route = Ok true.
Proof.
  intros (ri & Hri & _ & Hdomain & _ & Htoken & Hrecipient & _) Hroute Hamount.
  rewrite Hroute in Hri. injection Hri as <-.
  unfold MatchesRoute. rewrite Hroute, Hdomain, N.eqb_refl. cbn [negb].
  rewrite Hamount, String.eqb_refl. cbn [negb].
  apply parseTokenID_Ok_inv in Htoken as [Hdec _].
  rewrite (TrimPrefix_ToLower_hex _ _ Hdec), <- (EncodeToString_DecodeString _ _ Hdec).
  rewrite String.eqb_refl. cbn [negb].
  rewrite (expected_recipient_of_parse _ _ Hrecipient). cbn [mbind go_bind].
  now rewrite String.eqb_refl.
Qed.

(** X5: the message [Generate] builds for a route matches that route,
    provided the message's amount prints as the amount [MatchesRoute]
    expects (the route's amount is a plain decimal numeral and the
    override, if any, is the same numeral). *)
Theorem generated_message_matches_route (g : Generator) (routes : Routes)
    (route : HyperlaneRoute) (routeInfo : RouteInfo) (msg : MsgRemoteTransfer) :
  rs_Routes routes = [route] ->
  Generate g routes = Ok [msg] ->
  hr_RouteInfo route = Some routeInfo ->
  Int_String (msg_Amount msg) = expected_amount route routeInfo ->
  MatchesRoute msg route = Ok true.
Proof.
  intros Hroutes Hgen Hroute Hamount. unfold Generate in Hgen. rewrite Hroutes in Hgen.
  apply generate_loop_Ok_inv in Hgen as (new & Hnew & Hall). cbn [app] in Hnew. subst new.
  inversion Hall as [|? ? ? ? Hmsg _]; subst.
  exact (MatchesRoute_generated g route routeInfo msg Hmsg Hroute Hamount).
Qed.

(** X6: two messages that match the same route have the same destination
    domain, amount, token id and recipient; and the result of
    [MatchesRoute] does not depend on the sender or the hook metadata of
    the message. *)
Theorem MatchesRoute_fixes_the_transfer (msg1 msg2 : MsgRemoteTransfer)
    (route : HyperlaneRoute) :
  (MatchesRoute msg1 route = Ok true -> MatchesRoute msg2 route = Ok true ->
   msg_DestinationDomain msg1 = msg_DestinationDomain msg2
   /\ msg_Amount msg1 = msg_Amount msg2
   /\ msg_TokenId msg1 = msg_TokenId msg2
   /\ msg_Recipient msg1 = msg_Recipient msg2)
  /\ (forall sender metadata,
        MatchesRoute {| msg_Sender := sender;
                        msg_TokenId := msg_TokenId msg1;
                        msg_DestinationDomain := msg_DestinationDomain msg1;
                        msg_Recipient := msg_Recipient msg1;
                        msg_Amount := msg_Amount msg1;
                        msg_CustomHookMetadata := metadata |} route
        = MatchesRoute msg1 route).
Proof.
  split; [|reflexivity].
  intros H1 H2.
  apply MatchesRoute_true_inv in H1 as (ri1 & h1 & Hri1 & Hd1 & Ha1 & Ht1 & He1 & Hr1).
  apply MatchesRoute_true_inv in H2 as (ri2 & h2 & Hri2 & Hd2 & Ha2 & Ht2 & He2 & Hr2).
  rewrite Hri1 in Hri2. injection Hri2 as <-.
  rewrite He1 in He2. injection He2 as <-.
  repeat split.
  - congruence.
  - apply (inj pretty). unfold Int_String in Ha1, Ha2. congruence.
  - apply EncodeToString_inj. congruence.
  - apply EncodeToString_inj. congruence.
Qed.

(** ** Verify *)

Lemma find_match_Ok (remoteTxs : list MsgRemoteTransfer) (route : HyperlaneRoute)
    (found : bool) :
  find_match remoteTxs route = Ok found ->
  (found = true <-> exists msg, msg ∈ remoteTxs /\ MatchesRoute msg route = Ok true).
Proof.
  induction remoteTxs as [|msg rest IH]; cbn [find_match].
  - intros [= <-]. split; [discriminate|]. intros (m & Hin & _). inversion Hin.
  - destruct (MatchesRoute msg route) as [[]| |] eqn:Hm; cbn [mbind go_bind];
      try discriminate.
    + intros [= <-]. split; [|reflexivity]. intros _. exists msg. split; [left|exact Hm].
    + intros H. rewrite (IH H). split.
      * intros (m & Hin & Hmatch). exists m. split; [now right|exact Hmatch].
      * intros (m & Hin & Hmatch). inversion Hin; subst; [congruence|eauto].
Qed.

Lemma verify_routes_valid (remoteTxs : list MsgRemoteTransfer)
    (routes : list HyperlaneRoute) :
  forall (i : nat) (result final : VerifyResult),
    verify_routes remoteTxs i routes result = Ok final ->
    (Valid final = true
     <-> Valid result = true
         /\ Forall (fun route => exists routeInfo,
                      hr_RouteInfo route = Some routeInfo
                      /\ find_match remoteTxs route = Ok true) routes)
    /\ length (Errors final) + MatchedCount final
       = length (Errors result) + MatchedCount result + length routes
    /\ MatchedCount final <= MatchedCount result + length routes
    /\ TotalRoutes final = TotalRoutes result
    /\ Warnings final = Warnings result.
Proof.
  induction routes as [|route rest IH]; intros i result final; cbn [verify_routes length].
  - intros [= <-]. repeat split; try tauto; try lia. constructor.
  - destruct (hr_RouteInfo route) as [routeInfo|] eqn:Hri.
    + destruct (find_match remoteTxs route) as [found| |] eqn:Hfind; cbn [mbind go_bind];
        try discriminate.
      intros H. apply IH in H as (Hvalid & Hcount & Hle & Htotal & Hwarn).
      destruct found; cbn in Hvalid, Hcount, Hle, Htotal, Hwarn.
      * split; [|repeat split; [lia|lia|assumption|assumption]].
        rewrite Hvalid. split.
        -- intros [Hv Hall]. split; [exact Hv|]. constructor; [eauto|exact Hall].
        -- intros [Hv Hall]. inversion Hall; subst. auto.
      * split; [|repeat split; [rewrite length_app in Hcount; cbn in Hcount; lia
                              |lia|assumption|assumption]].
        rewrite Hvalid. split; [intros [Hv _]; discriminate Hv|].
        intros [_ Hall]. inversion Hall as [|? ? (ri & _ & Hf) _]; subst. congruence.
    + intros H. apply IH in H as (Hvalid & Hcount & Hle & Htotal & Hwarn).
      cbn in Hvalid, Hcount, Hle, Htotal, Hwarn.
      split; [|repeat split; [rewrite length_app in Hcount; cbn in Hcount; lia
                            |lia|assumption|assumption]].
      rewrite Hvalid. split; [intros [Hv _]; discriminate Hv|].
      intros [_ Hall]. inversion Hall as [|? ? (ri & Hsome & _) _]; subst. congruence.
Qed.

Lemma verify_routes_no_panic (remoteTxs : list MsgRemoteTransfer)
    (routes : list HyperlaneRoute) :
  forall (i : nat) (result final : VerifyResult),
    verify_routes remoteTxs i routes result = Ok final ->
    forall route routeInfo,
      route ∈ routes -> hr_RouteInfo route = Some routeInfo ->
      exists found, find_match remoteTxs route = Ok found.
Proof.
  induction routes as [|r rest IH]; intros i result final Hok route routeInfo Hin Hroute;
    [inversion Hin|].
  cbn [verify_routes] in Hok.
  destruct (hr_RouteInfo r) as [ri|] eqn:Hri.
  - destruct (find_match remoteTxs r) as [found| |] eqn:Hf; cbn [mbind go_bind] in Hok;
      try discriminate Hok.
    inversion Hin; subst; eauto.
  - inversion Hin; subst; [congruence|eauto].
Qed.

(** X7: what a valid report means. When the transaction body decodes,
    [Verify] reports valid = true exactly when the number of decoded
    MsgRemoteTransfer messages equals the number of routes and every route
    has routing information and some message that matches it. *)
Theorem Verify_valid_iff (routes : Routes) (txRaw : TxRaw) (txBody : TxBody)
    (report : VerifyResult) :
  TxBody_Unmarshal (BodyBytes txRaw) = Some txBody ->
  Verify routes txRaw = Ok report ->
  (Valid report = true
   <-> length (remote_transfers (Messages txBody)) = length (rs_Routes routes)
       /\ Forall (fun route => exists routeInfo msg,
                    hr_RouteInfo route = Some routeInfo
                    /\ msg ∈ remote_transfers (Messages txBody)
                    /\ MatchesRoute msg route = Ok true) (rs_Routes routes)).
Proof.
  intros Hbody. unfold Verify, verify_messages. rewrite Hbody. intros H.
  pose proof H as Hok.
  apply verify_routes_valid in H as (Hvalid & _).
  rewrite Hvalid. clear Hvalid.
  pose proof (verify_routes_no_panic _ _ _ _ _ Hok) as Hfind.
  destruct (Nat.eqb_spec (length (remote_transfers (Messages txBody)))
              (length (rs_Routes routes))) as [Hlen|Hlen]; cbn [negb].
  - split.
    + intros [_ Hall]. split; [exact Hlen|].
      eapply Forall_impl; [exact Hall|]. cbn.
      intros route (ri & Hri & Hf). exists ri.
      apply find_match_Ok in Hf. destruct (proj1 Hf eq_refl) as (msg & Hin & Hm). eauto.
    + intros [_ Hall]. split; [reflexivity|].
      apply Forall_forall. intros route Hin.
      rewrite Forall_forall in Hall. destruct (Hall route Hin) as (ri & msg & Hri & Hmsg & Hm).
      exists ri. split; [exact Hri|].
      destruct (Hfind route ri Hin Hri) as [found Hf].
      rewrite Hf. f_equal.
      apply (find_match_Ok _ _ _ Hf). eauto.
  - split; [intros [Hv _]; discriminate Hv|]. intros [Heq _]. contradiction.
Qed.

(** X8: the report accounts for every route. When the body decodes, each
    route is either counted as matched or has exactly one entry in the
    error list, which holds one more entry when the message count differs
    from the route count; no warning is ever emitted. *)
Theorem Verify_error_count (routes : Routes) (txRaw : TxRaw) (txBody : TxBody)
    (report : VerifyResult) :
  TxBody_Unmarshal (BodyBytes txRaw) = Some txBody ->
  Verify routes txRaw = Ok report ->
  length (Errors report) + MatchedCount report
  = length (rs_Routes routes)
    + (if (length (remote_transfers (Messages txBody)) =? length (rs_Routes routes))%nat
       then 0 else 1)
  /\ MatchedCount report <= TotalRoutes report
  /\ Warnings report = [].
Proof.
  intros Hbody. unfold Verify, verify_messages. rewrite Hbody. intros H.
  apply verify_routes_valid in H as (_ & Hcount & Hle & Htotal & Hwarn).
  destruct (Nat.eqb_spec (length (remote_transfers (Messages txBody)))
              (length (rs_Routes routes))); cbn in Hcount, Hle, Htotal, Hwarn |- *;
    repeat split; try assumption; lia.
Qed.

End VerifierProperties.

Section VerifyComposition.
Context `{Ext : Externals}.

Lemma MatchesRoute_shape (route : HyperlaneRoute) :
  (forall msg, exists b, MatchesRoute msg route = Ok b)
  \/ (exists p, forall msg,
        MatchesRoute msg route = Ok false \/ MatchesRoute msg route = Panic p).
Proof.
  destruct (hr_RouteInfo route) as [routeInfo|] eqn:Hri.
  - pose proof (expected_recipient_hex_outcome route routeInfo Hri) as Hexp.
    destruct (expected_recipient_hex routeInfo) as [h|e|p] eqn:He; [| destruct Hexp |].
    + left. intros msg. unfold MatchesRoute. rewrite Hri, He.
      destruct (negb _); [eauto|]. destruct (negb _); [eauto|].
      destruct (negb _); [eauto|]. cbn [mbind go_bind]. destruct (negb _); eauto.
    + right. exists p. intros msg. unfold MatchesRoute. rewrite Hri, He.
      destruct (negb _); [auto|]. destruct (negb _); [auto|].
      destruct (negb _); [auto|]. cbn [mbind go_bind]. auto.
  - right. exists NilPointerDereference. intros msg. unfold MatchesRoute. rewrite Hri. auto.
Qed.

Lemma find_match_Permutation (remoteTxs remoteTxs' : list MsgRemoteTransfer)
    (route : HyperlaneRoute) :
  remoteTxs ≡ₚ remoteTxs' -> find_match remoteTxs route = find_match remoteTxs' route.
Proof.
  induction 1 as [|x l l' _ IH|x y l|l l' l'' _ IH1 _ IH2]; cbn [find_match].
  - reflexivity.
  - now rewrite IH.
  - destruct (MatchesRoute_shape route) as [Htotal|[p Hp]].
    + destruct (Htotal x) as [[] ->], (Htotal y) as [[] ->]; reflexivity.
    + destruct (Hp x) as [-> | ->], (Hp y) as [-> | ->]; reflexivity.
  - congruence.
Qed.

Lemma verify_routes_Permutation (remoteTxs remoteTxs' : list MsgRemoteTransfer)
    (routes : list HyperlaneRoute) :
  remoteTxs ≡ₚ remoteTxs' ->
  forall i result,
    verify_routes remoteTxs i routes result = verify_routes remoteTxs' i routes result.
Proof.
  intros Hperm. induction routes as [|route rest IH]; intros i result; cbn [verify_routes];
    [reflexivity|].
  destruct (hr_RouteInfo route); [|apply IH].
  rewrite (find_match_Permutation _ _ route Hperm).
  destruct (find_match remoteTxs' route); cbn [mbind go_bind]; [apply IH|reflexivity..].
Qed.

Lemma remote_transfers_omap (messages : list Any) :
  remote_transfers messages = omap as_remote_transfer messages.
Proof.
  unfold remote_transfers.
  assert (H : forall acc,
            fold_left
              (fun remoteTxs anyMsg =>
                 if String.eqb (TypeUrl anyMsg) url_MsgRemoteTransfer then
                   match MsgRemoteTransfer_Unmarshal (Value anyMsg) with
                   | None => remoteTxs
                   | Some remoteMsg => remoteTxs ++ [remoteMsg]
                   end
                 else remoteTxs) messages acc
            = acc ++ omap as_remote_transfer messages).
  { induction messages as [|m rest IH]; intros acc; cbn [fold_left];
      [cbn; now rewrite app_nil_r|].
    rewrite IH.
    change (omap as_remote_transfer (m :: rest))
      with (match as_remote_transfer m with
            | Some y => y :: omap as_remote_transfer rest
            | None => omap as_remote_transfer rest
            end).
    unfold as_remote_transfer at 2.
    destruct (String.eqb (TypeUrl m) url_MsgRemoteTransfer); [|reflexivity].
    destruct (MsgRemoteTransfer_Unmarshal (Value m)); [|reflexivity].
    now rewrite <- app_assoc. }
  exact (H []).
Qed.

(** X9: the order of the messages in the transaction does not matter.
    Two transaction bodies with the same messages in a different order
    get the same outcome from [Verify], report or panic. *)
Theorem Verify_message_order_irrelevant (routes : Routes) (txRaw txRaw' : TxRaw)
    (txBody txBody' : TxBody) :
  TxBody_Unmarshal (BodyBytes txRaw) = Some txBody ->
  TxBody_Unmarshal (BodyBytes txRaw') = Some txBody' ->
  Messages txBody ≡ₚ Messages txBody' ->
  Verify routes txRaw = Verify routes txRaw'.
Proof.
  intros Hb Hb' Hperm. unfold Verify, verify_messages. rewrite Hb, Hb'.
  assert (Hremote : remote_transfers (Messages txBody)
                    ≡ₚ remote_transfers (Messages txBody')).
  { rewrite !remote_transfers_omap. now rewrite Hperm. }
  rewrite (Permutation_length Hremote).
  apply verify_routes_Permutation. exact Hremote.
Qed.

Lemma find_match_finds (remoteTxs : list MsgRemoteTransfer) (route : HyperlaneRoute)
    (msg : MsgRemoteTransfer) :
  msg ∈ remoteTxs -> MatchesRoute msg route = Ok true ->
  find_match remoteTxs route = Ok true.
Proof.
  intros Hin Hmatch.
  destruct (MatchesRoute_shape route) as [Htotal|[p Hp]].
  - assert (Hfound : exists found, find_match remoteTxs route = Ok found).
    { clear Hin. induction remoteTxs as [|m rest [found IH]]; cbn [find_match]; [eauto|].
      destruct (Htotal m) as [[] ->]; cbn [mbind go_bind]; eauto. }
    destruct Hfound as [found Hfound]. rewrite Hfound. f_equal.
    apply (find_match_Ok _ _ _ Hfound). eauto.
  - destruct (Hp msg) as [H|H]; congruence.
Qed.

Lemma verify_routes_all_found (remoteTxs : list MsgRemoteTransfer)
    (routes : list HyperlaneRoute) :
  Forall (fun route => exists routeInfo,
            hr_RouteInfo route = Some routeInfo
            /\ find_match remoteTxs route = Ok true) routes ->
  forall i result,
    verify_routes remoteTxs i routes result
    = Ok {| Valid := Valid result;
            MatchedCount := MatchedCount result + length routes;
            TotalRoutes := TotalRoutes result;
            Errors := Errors result;
            Warnings := Warnings result |}.
Proof.
  induction 1 as [|route rest (routeInfo & Hri & Hfind) _ IH]; intros i result;
    cbn [verify_routes length].
  - rewrite Nat.add_0_r. now destruct result.
  - rewrite Hri, Hfind. cbn [mbind go_bind]. rewrite IH. cbn.
    do 2 f_equal. lia.
Qed.

Lemma generated_all_found (g : Generator) (all : list MsgRemoteTransfer)
    (routes : list HyperlaneRoute) (new : list MsgRemoteTransfer) :
  Forall2 (generated_for g) routes new ->
  (forall msg, msg ∈ new -> msg ∈ all) ->
  Forall amount_agrees routes ->
  Forall (fun route => exists routeInfo,
            hr_RouteInfo route = Some routeInfo
            /\ find_match all route = Ok true) routes.
Proof.
  induction 1 as [|route msg rest new' Hmsg _ IH]; intros Hsub Hamounts; [constructor|].
  inversion Hamounts as [|? ? Hamount Hrest]; subst.
  constructor.
  - pose proof Hmsg as (routeInfo & Hri & _ & _ & Hparse & _).
    exists routeInfo. split; [exact Hri|].
    apply find_match_finds with msg; [apply Hsub; left|].
    apply (MatchesRoute_generated g route routeInfo msg Hmsg Hri).
    now apply Hamount.
  - apply IH; [|exact Hrest]. intros m Hin. apply Hsub. now right.
Qed.

(** X10: [Verify] accepts what [Generate] produces. When the messages of
    the transaction are the ones [Generate] returned for the routes, and
    for every route the amount [MatchesRoute] expects is the decimal
    rendering of the amount [Generate] parsed, the report is valid, with
    every route matched and no error. *)
Theorem Verify_accepts_generated (g : Generator) (routes : Routes)
    (msgs : list MsgRemoteTransfer) (txRaw : TxRaw) (txBody : TxBody) :
  Generate g routes = Ok msgs ->
  TxBody_Unmarshal (BodyBytes txRaw) = Some txBody ->
  remote_transfers (Messages txBody) = msgs ->
  Forall amount_agrees (rs_Routes routes) ->
  Verify routes txRaw
  = Ok {| Valid := true;
          MatchedCount := length (rs_Routes routes);
          TotalRoutes := length (rs_Routes routes);
          Errors := [];
          Warnings := [] |}.
Proof.
  intros Hgen Hbody Hmsgs Hamounts. unfold Generate in Hgen.
  apply generate_loop_Ok_inv in Hgen as (new & Hnew & Hall). cbn [app] in Hnew. subst new.
  unfold Verify, verify_messages. rewrite Hbody, Hmsgs.
  rewrite <- (Forall2_length _ _ _ Hall), Nat.eqb_refl. cbn [negb].
  rewrite verify_routes_all_found; [reflexivity|].
  apply (generated_all_found g msgs (rs_Routes routes) msgs Hall); auto.
Qed.

End VerifyComposition.

Section ParserProperties.
Context `{Ext : Externals}.

(** ** ParseRoutes *)

Lemma foldM_invariant {A B : Type} (I : A -> Prop) (body : A -> B -> go A) :
  (forall a x a', I a -> body a x = Ok a' -> I a') ->
  forall l a a', I a -> foldM body a l = Ok a' -> I a'.
Proof.
  intros Hstep. induction l as [|x l IH]; intros a a' Ha; cbn [foldM].
  - now intros [= <-].
  - destruct (body a x) as [a1| |] eqn:Hx; cbn [mbind go_bind]; try discriminate.
    apply IH. eapply Hstep; eauto.
Qed.

(** The three ways the loop body can return. *)
Lemma parse_transfer_cases (cfg : option Config) (multisigAddr : string) (tx : Transaction)
    (st st' : parse_state) (transfer : HyperlaneTransfer) :
  parse_transfer cfg multisigAddr tx st transfer = Ok st' ->
  (ht_From transfer <> multisigAddr /\ st' = st)
  \/ (ht_From transfer = multisigAddr /\ exists w, st' = print w st)
  \/ (ht_From transfer = multisigAddr
      /\ exists routeInfo,
           resolve_route_info tx transfer = Ok (inr routeInfo)
           /\ check_whitelist cfg tx routeInfo = Ok None
           /\ st' = {| ps_routes := ps_routes st ++ [route_of tx transfer routeInfo];
                       ps_totalAmount :=
                         (ps_totalAmount st
                          + route_amount_value (route_of tx transfer routeInfo))%Z;
                       ps_stdout := ps_stdout st |}).
Proof.
  unfold parse_transfer.
  destruct (String.eqb_spec (ht_From transfer) multisigAddr) as [Hfrom|Hfrom]; cbn [negb].
  - destruct (resolve_route_info tx transfer) as [[w|routeInfo]| |] eqn:Hres;
      cbn [mbind go_bind]; try discriminate.
    + intros [= <-]. right. left. eauto.
    + destruct (check_whitelist cfg tx routeInfo) as [[w|]| |] eqn:Hwl; cbn [mbind go_bind];
        try discriminate.
      * intros [= <-]. right. left. eauto.
      * intros Hadmit. right. right. split; [exact Hfrom|].
        exists routeInfo. split; [reflexivity|]. split; [exact Hwl|].
        unfold admit_route in Hadmit. unfold route_amount_value. cbn [route_of hr_Amount].
        destruct (NewIntFromString (effective_amount transfer routeInfo)) as [amountInt|].
        -- unfold Int_Add in Hadmit. destruct (_ <? _)%Z; cbn in Hadmit; [|discriminate].
           now injection Hadmit as <-.
        -- cbn in Hadmit. injection Hadmit as <-. now rewrite Z.add_0_r.
  - intros [= <-]. now left.
Qed.

Lemma sum_amounts_snoc (routes : list HyperlaneRoute) (route : HyperlaneRoute) :
  sum_amounts (routes ++ [route]) = (sum_amounts routes + route_amount_value route)%Z.
Proof.
  unfold sum_amounts. induction routes as [|r rest IH]; cbn; [lia|]. rewrite IH. lia.
Qed.

(** Invariants of the loops of [ParseRoutes]. *)
Lemma parse_loops_invariant (cfg : option Config) (multisigAddr : string)
    (I : parse_state -> Prop) :
  (forall w st, I st -> I (print w st)) ->
  (forall tx transfer routeInfo st,
     I st -> ht_From transfer = multisigAddr ->
     resolve_route_info tx transfer = Ok (inr routeInfo) ->
     check_whitelist cfg tx routeInfo = Ok None ->
     I {| ps_routes := ps_routes st ++ [route_of tx transfer routeInfo];
          ps_totalAmount :=
            (ps_totalAmount st + route_amount_value (route_of tx transfer routeInfo))%Z;
          ps_stdout := ps_stdout st |}) ->
  forall txs st st',
    I st -> foldM (parse_tx cfg multisigAddr) st txs = Ok st' -> I st'.
Proof.
  intros Hprint Hadmit. apply foldM_invariant. intros st tx st' Hst. unfold parse_tx.
  revert st st' Hst. apply foldM_invariant. intros st transfer st' Hst Hstep.
  apply parse_transfer_cases in Hstep
    as [[_ ->]|[[_ [w ->]]|[Hfrom (routeInfo & Hres & Hwl & ->)]]]; auto.
Qed.

Lemma parse_transactions_Ok_inv (cfg : option Config) (multisigAddr : string)
    (txs : list Transaction) (routes : Routes) (out : list warning) :
  parse_transactions cfg multisigAddr txs = Ok (routes, out) ->
  exists st,
    foldM (parse_tx cfg multisigAddr) parse_start
      (FilterHyperlaneTransfersToAddress txs multisigAddr) = Ok st
    /\ routes = {| rs_Routes := ps_routes st;
                   rs_TotalAmount := Int_String (ps_totalAmount st);
                   rs_MultisigAddr := multisigAddr |}
    /\ out = ps_stdout st.
Proof.
  unfold parse_transactions.
  destruct (foldM _ parse_start _) as [st| |]; cbn [mbind go_bind]; try discriminate.
  intros [= <- <-]. eauto.
Qed.

Lemma ParseRoutes_Ok_inv (p : Parser) (multisigAddr : string) (fromHeight toHeight : Z)
    (routes : Routes) (out : list warning) :
  ParseRoutes p multisigAddr fromHeight toHeight = Ok (routes, out) ->
  exists txs,
    GetTransactionsByHeight p fromHeight toHeight = Some txs
    /\ parse_transactions (config p) multisigAddr txs = Ok (routes, out).
Proof.
  unfold ParseRoutes.
  destruct (GetTransactionsByHeight p fromHeight toHeight) as [txs|]; [eauto|discriminate].
Qed.

(** X11: the total of a returned route set is the decimal rendering of the
    sum of the amounts of its routes, an amount that does not parse
    counting as zero; the multisig address is the one asked for. *)
Theorem ParseRoutes_total (p : Parser) (multisigAddr : string) (fromHeight toHeight : Z)
    (routes : Routes) (out : list warning) :
  ParseRoutes p multisigAddr fromHeight toHeight = Ok (routes, out) ->
  rs_TotalAmount routes = Int_String (sum_amounts (rs_Routes routes))
  /\ rs_MultisigAddr routes = multisigAddr.
Proof.
  intros H. apply ParseRoutes_Ok_inv in H as (txs & _ & H).
  apply parse_transactions_Ok_inv in H as (st & Hfold & -> & _). cbn.
  split; [|reflexivity]. f_equal.
  apply (parse_loops_invariant (config p) multisigAddr
           (fun st => ps_totalAmount st = sum_amounts (ps_routes st)))
    with (st := parse_start) (txs := FilterHyperlaneTransfersToAddress txs multisigAddr);
    [auto| |reflexivity|exact Hfold].
  intros tx transfer routeInfo st0 Hst _ _ _. cbn [ps_totalAmount ps_routes].
  now rewrite sum_amounts_snoc, Hst.
Qed.

(** X12: every returned route is sent from the multisig address, is
    denominated in utia, carries routing information, and has as amount
    the override of that information when there is one; so the amount
    [MatchesRoute] expects for it is the route's own amount, the one
    [Generate] uses. *)
Theorem ParseRoutes_route_fields (p : Parser) (multisigAddr : string)
    (fromHeight toHeight : Z) (routes : Routes) (out : list warning) :
  ParseRoutes p multisigAddr fromHeight toHeight = Ok (routes, out) ->
  Forall (fun route =>
            hr_From route = multisigAddr /\ hr_Denom route = "utia"
            /\ exists routeInfo,
                 hr_RouteInfo route = Some routeInfo
                 /\ (ri_Amount routeInfo <> "" -> hr_Amount route = ri_Amount routeInfo)
                 /\ expected_amount route routeInfo = hr_Amount route)
         (rs_Routes routes).
Proof.
  intros H. apply ParseRoutes_Ok_inv in H as (txs & _ & H).
  apply parse_transactions_Ok_inv in H as (st & Hfold & -> & _). cbn [rs_Routes].
  apply (parse_loops_invariant (config p) multisigAddr
           (fun st => Forall _ (ps_routes st)))
    with (st := parse_start) (txs := FilterHyperlaneTransfersToAddress txs multisigAddr);
    [auto| |constructor|exact Hfold].
  intros tx transfer routeInfo st0 Hst Hfrom _ _. cbn [ps_routes].
  apply Forall_app. split; [exact Hst|]. constructor; [|constructor].
  cbn. split; [exact Hfrom|]. split; [reflexivity|].
  exists routeInfo. split; [reflexivity|].
  unfold expected_amount. cbn [hr_Amount route_of]. unfold effective_amount.
  destruct (String.eqb_spec (ri_Amount routeInfo) ""); cbn [negb]; split; congruence.
Qed.

(** X13: with a whitelist configured, [ParseRoutes] returns no route whose
    routing information the whitelist rejects. *)
Theorem ParseRoutes_enforces_whitelist (p : Parser) (c : Config) (multisigAddr : string)
    (fromHeight toHeight : Z) (routes : Routes) (out : list warning) :
  config p = Some c ->
  ParseRoutes p multisigAddr fromHeight toHeight = Ok (routes, out) ->
  Forall (fun route => exists routeInfo,
            hr_RouteInfo route = Some routeInfo
            /\ ValidateRoute (Some c) routeInfo = Ok tt)
         (rs_Routes routes).
Proof.
  intros Hcfg H. apply ParseRoutes_Ok_inv in H as (txs & _ & H).
  apply parse_transactions_Ok_inv in H as (st & Hfold & -> & _). cbn [rs_Routes].
  rewrite Hcfg in Hfold.
  apply (parse_loops_invariant (Some c) multisigAddr
           (fun st => Forall _ (ps_routes st)))
    with (st := parse_start) (txs := FilterHyperlaneTransfersToAddress txs multisigAddr);
    [auto| |constructor|exact Hfold].
  intros tx transfer routeInfo st0 Hst _ _ Hwl. cbn [ps_routes].
  apply Forall_app. split; [exact Hst|]. constructor; [|constructor].
  exists routeInfo. split; [reflexivity|].
  unfold check_whitelist in Hwl.
  destruct (ValidateRoute (Some c) routeInfo) as [[]| |]; [reflexivity|discriminate..].
Qed.

Lemma not_to_target (target targetBech32 : string) (transfers : list HyperlaneTransfer) :
  transfer_to_target target targetBech32 transfers <> true ->
  Forall (fun transfer => ToLower (ht_From transfer) <> targetBech32) transfers.
Proof.
  induction transfers as [|transfer rest IH]; cbn [transfer_to_target]; [constructor|].
  destruct (String.eqb_spec (ToLower (ht_From transfer)) targetBech32) as [Heq|Hne].
  - rewrite orb_true_r. cbn [orb]. intros H. now destruct H.
  - destruct (_ || _ || _); [intros H; now destruct H|].
    intros H. constructor; [exact Hne|exact (IH H)].
Qed.

Lemma parse_tx_filtered_out (cfg : option Config) (multisigAddr : string)
    (tx : Transaction) (st : parse_state) :
  FilterHyperlaneTransfersToAddress [tx] multisigAddr = [] ->
  parse_tx cfg multisigAddr st tx = Ok st.
Proof.
  unfold FilterHyperlaneTransfersToAddress. rewrite filter_cons, filter_nil.
  destruct (decide _) as [|Hno]; [discriminate|]. intros _.
  apply not_to_target in Hno. unfold parse_tx.
  induction Hno as [|transfer rest Hne _ IH]; cbn [foldM]; [reflexivity|].
  assert (Hstep : parse_transfer cfg multisigAddr tx st transfer = Ok st).
  { unfold parse_transfer.
    destruct (String.eqb_spec (ht_From transfer) multisigAddr) as [Heq|]; cbn [negb];
      [|reflexivity].
    rewrite Heq in Hne. now destruct Hne. }
  rewrite Hstep. cbn [mbind go_bind]. exact IH.
Qed.

Lemma parse_txs_unfiltered (cfg : option Config) (multisigAddr : string)
    (txs : list Transaction) (st : parse_state) :
  foldM (parse_tx cfg multisigAddr) st (FilterHyperlaneTransfersToAddress txs multisigAddr)
  = foldM (parse_tx cfg multisigAddr) st txs.
Proof.
  revert st. induction txs as [|tx rest IH]; intros st; [reflexivity|].
  change (tx :: rest) with ([tx] ++ rest) at 1. rewrite Filter_app, foldM_app.
  destruct (Filter_single tx multisigAddr) as [-> | Hout].
  - cbn [foldM]. destruct (parse_tx cfg multisigAddr st tx); cbn [mbind go_bind];
      [apply IH|reflexivity..].
  - rewrite Hout. cbn [foldM mbind go_bind].
    rewrite (parse_tx_filtered_out cfg multisigAddr tx st Hout). cbn [mbind go_bind].
    apply IH.
Qed.

(** X14: the filter before the loops loses nothing. [ParseRoutes] ends
    exactly as its loops run over all queried transactions end: same
    routes, same total, same warnings, same panic. *)
Theorem ParseRoutes_filter_loses_nothing (p : Parser) (multisigAddr : string)
    (fromHeight toHeight : Z) (txs : list Transaction) :
  GetTransactionsByHeight p fromHeight toHeight = Some txs ->
  ParseRoutes p multisigAddr fromHeight toHeight
  = (st ← foldM (parse_tx (config p) multisigAddr) parse_start txs;
     Ok ({| rs_Routes := ps_routes st;
            rs_TotalAmount := Int_String (ps_totalAmount st);
            rs_MultisigAddr := multisigAddr |}, ps_stdout st)).
Proof.
  intros Hq. unfold ParseRoutes, parse_transactions. rewrite Hq.
  now rewrite parse_txs_unfiltered.
Qed.

Lemma parse_tx_count (cfg : option Config) (multisigAddr : string) (tx : Transaction)
    (transfers : list HyperlaneTransfer) :
  forall st st',
    foldM (parse_transfer cfg multisigAddr tx) st transfers = Ok st' ->
    length (ps_routes st') + length (ps_stdout st')
    = length (ps_routes st) + length (ps_stdout st)
      + length (filter (fun transfer => ht_From transfer = multisigAddr) transfers).
Proof.
  induction transfers as [|transfer rest IH]; intros st st'; cbn [foldM].
  - intros [= <-]. cbn. lia.
  - destruct (parse_transfer cfg multisigAddr tx st transfer) as [st1| |] eqn:Hstep;
      cbn [mbind go_bind]; try discriminate.
    intros Hrest. apply IH in Hrest. rewrite Hrest, filter_cons.
    apply parse_transfer_cases in Hstep
      as [[Hne ->]|[[Heq [w ->]]|[Heq (routeInfo & _ & _ & ->)]]];
      destruct (decide (ht_From transfer = multisigAddr)); try contradiction;
      cbn; rewrite ?length_app; cbn; lia.
Qed.

Lemma parse_txs_count (cfg : option Config) (multisigAddr : string)
    (txs : list Transaction) :
  forall st st',
    foldM (parse_tx cfg multisigAddr) st txs = Ok st' ->
    length (ps_routes st') + length (ps_stdout st')
    = length (ps_routes st) + length (ps_stdout st)
      + length (filter (fun transfer => ht_From transfer = multisigAddr)
                  (flat_map ExtractHyperlaneTransfers txs)).
Proof.
  induction txs as [|tx rest IH]; intros st st'; cbn [foldM flat_map].
  - intros [= <-]. cbn. lia.
  - destruct (parse_tx cfg multisigAddr st tx) as [st1| |] eqn:Htx; cbn [mbind go_bind];
      try discriminate.
    intros Hrest. apply IH in Hrest. unfold parse_tx in Htx. apply parse_tx_count in Htx.
    rewrite filter_app, length_app. lia.
Qed.

(** X15: every transfer is accounted for. The routes returned and the
    warnings printed are together as many as the transfers of the queried
    transactions whose sender is the multisig address: each of them became
    a route or was reported by one warning, and no other transfer did. *)
Theorem ParseRoutes_accounts_for_transfers (p : Parser) (multisigAddr : string)
    (fromHeight toHeight : Z) (txs : list Transaction) (routes : Routes)
    (out : list warning) :
  GetTransactionsByHeight p fromHeight toHeight = Some txs ->
  ParseRoutes p multisigAddr fromHeight toHeight = Ok (routes, out) ->
  length (rs_Routes routes) + length out
  = length (filter (fun transfer => ht_From transfer = multisigAddr)
              (flat_map ExtractHyperlaneTransfers txs)).
Proof.
  intros Hq H. unfold ParseRoutes in H. rewrite Hq in H.
  apply parse_transactions_Ok_inv in H as (st & Hfold & -> & ->). cbn [rs_Routes].
  rewrite parse_txs_unfiltered in Hfold. apply parse_txs_count in Hfold.
  cbn in Hfold. exact Hfold.
Qed.

(** X16: only the query is fatal. [ParseRoutes] returns an error exactly
    when the transaction query fails, and the error is the query error;
    nothing in the transactions can make it return one. *)
Theorem ParseRoutes_error_iff_query_fails (p : Parser) (multisigAddr : string)
    (fromHeight toHeight : Z) :
  (GetTransactionsByHeight p fromHeight toHeight = None
   <-> exists e, ParseRoutes p multisigAddr fromHeight toHeight = Err e)
  /\ (forall e, ParseRoutes p multisigAddr fromHeight toHeight = Err e ->
                e = ErrQueryTransactions).
Proof.
  unfold ParseRoutes.
  destruct (GetTransactionsByHeight p fromHeight toHeight) as [txs|].
  - pose proof (parse_transactions_outcome (config p) multisigAddr txs) as H.
    destruct (parse_transactions (config p) multisigAddr txs) as [[routes out]|e|];
      [|destruct H|].
    + split; [split; [discriminate|intros [e He]; discriminate He]|discriminate].
    + split; [split; [discriminate|intros [e He]; discriminate He]|discriminate].
  - split; [split; eauto|]. now intros e [= <-].
Qed.

End ParserProperties.

(** ** More on strings *)

Lemma toLowerAscii_idemp (c : ascii) : toLowerAscii (toLowerAscii c) = toLowerAscii c.
Proof. destruct c as [[] [] [] [] [] [] [] []]; reflexivity. Qed.

Lemma ToLower_idemp (s : string) : ToLower (ToLower s) = ToLower s.
Proof.
  induction s as [|c s IH]; cbn [ToLower]; [reflexivity|].
  now rewrite toLowerAscii_idemp, IH.
Qed.

Lemma TrimRightSpace_idemp (s : string) :
  TrimRightSpace (TrimRightSpace s) = TrimRightSpace s.
Proof.
  induction s as [|c s IH]; cbn [TrimRightSpace]; [reflexivity|].
  destruct (TrimRightSpace s) as [|d kept] eqn:Hs.
  - destruct (isSpace c) eqn:Hc; [reflexivity|]. cbn [TrimRightSpace]. now rewrite Hc.
  - cbn [TrimRightSpace]. cbn [TrimRightSpace] in IH. now rewrite IH.
Qed.

(** What [TrimLeftSpace] leaves does not begin with white space, and
    [TrimRightSpace] keeps it so. *)
Lemma TrimLeftSpace_no_leading (s : string) : no_leading_space (TrimLeftSpace s).
Proof.
  induction s as [|c s IH]; cbn; [exact I|].
  destruct (isSpace c) eqn:Hc; [exact IH|exact Hc].
Qed.

Lemma TrimRightSpace_no_leading (s : string) :
  no_leading_space s -> no_leading_space (TrimRightSpace s).
Proof.
  destruct s as [|c s]; cbn; [auto|]. intros Hc.
  destruct (TrimRightSpace s); [now rewrite Hc|exact Hc].
Qed.

Lemma TrimLeftSpace_id (s : string) : no_leading_space s -> TrimLeftSpace s = s.
Proof. destruct s as [|c s]; cbn; [auto|]. now intros ->. Qed.

Lemma TrimSpace_idemp (s : string) : TrimSpace (TrimSpace s) = TrimSpace s.
Proof.
  unfold TrimSpace.
  rewrite (TrimLeftSpace_id (TrimRightSpace (TrimLeftSpace s))).
  - apply TrimRightSpace_idemp.
  - apply TrimRightSpace_no_leading, TrimLeftSpace_no_leading.
Qed.

Lemma normalizeAddress_idemp (addr : string) :
  normalizeAddress (normalizeAddress addr) = normalizeAddress addr.
Proof.
  unfold normalizeAddress.
  now rewrite <- ToLower_TrimSpace, TrimSpace_idemp, ToLower_idemp.
Qed.

Lemma length_append (s t : string) :
  String.length (s +:+ t) = String.length s + String.length t.
Proof.
  induction s as [|c s IH]; [reflexivity|].
  change (String c s +:+ t) with (String c (s +:+ t)).
  cbn [String.length Nat.add]. now rewrite IH.
Qed.

Lemma length_EncodeToString (src : list byte) :
  String.length (EncodeToString src) = 2 * length src.
Proof. induction src as [|b rest IH]; cbn [EncodeToString String.length length]; lia. Qed.

Lemma EncodeToString_app (b1 b2 : list byte) :
  EncodeToString (b1 ++ b2) = EncodeToString b1 +:+ EncodeToString b2.
Proof. induction b1 as [|b rest IH]; cbn; [reflexivity|]. now rewrite IH. Qed.

Lemma EncodeToString_zeros (n : nat) :
  EncodeToString (replicate n x00) = Repeat "0" (2 * n).
Proof.
  induction n as [|n IH]; [reflexivity|].
  replace (2 * S n) with (S (S (2 * n))) by lia. cbn. now rewrite IH.
Qed.

Section ClientProperties.
Context `{Ext : Externals}.

(** ** The whitelist, continued *)

(** X17: normalisation is idempotent, and every address of a whitelist
    returned by [LoadConfig] is in normal form (lower case, no white space
    around it): normalising it again changes nothing. *)
Theorem LoadConfig_addresses_normalised (file : option string) (c : Config) :
  LoadConfig file = Ok c ->
  (forall domain addresses addr,
     Domains (Whitelist c) !! domain = Some addresses -> addr ∈ addresses ->
     normalizeAddress addr = addr)
  /\ (forall addr, normalizeAddress (normalizeAddress addr) = normalizeAddress addr).
Proof.
  intros Hload. split; [|apply normalizeAddress_idemp].
  intros domain addresses addr Hlookup Hin.
  destruct (LoadConfig_lookup file c domain Hload) as (data & config0 & _ & _ & Hc).
  rewrite Hlookup in Hc.
  destruct (Domains (Whitelist config0) !! domain) as [original|]; [|discriminate Hc].
  cbn in Hc. injection Hc as ->.
  apply list_elem_of_In, in_map_iff in Hin as (a & <- & _).
  apply normalizeAddress_idemp.
Qed.

(** X18: on any configuration, loaded or built by hand, a route is
    accepted only through an entry of its own domain that is in normal
    form and equals the normalised recipient; an entry with an upper-case
    letter or white space around it never admits any recipient. *)
Theorem ValidateRoute_accepts_only_normal_entries (c : Config) (route : RouteInfo) :
  ValidateRoute (Some c) route = Ok tt ->
  exists addresses entry,
    Domains (Whitelist c) !! ri_DestinationDomain route = Some addresses
    /\ entry ∈ addresses
    /\ entry = normalizeAddress (ri_Recipient route)
    /\ normalizeAddress entry = entry.
Proof.
  unfold ValidateRoute.
  destruct (Domains (Whitelist c) !! ri_DestinationDomain route) as [addresses|];
    [|discriminate].
  destruct (length addresses =? 0)%nat; [discriminate|].
  destruct (whitelisted _ addresses) eqn:Hw; [|discriminate].
  intros _. apply whitelisted_elem_of in Hw.
  exists addresses, (normalizeAddress (ri_Recipient route)).
  repeat split; [exact Hw|apply normalizeAddress_idemp].
Qed.

(** ** ExtractHyperlaneTransfers and the target address *)

Lemma extract_messages_no_memo (messages : list Any) :
  extract_messages None messages = map transfer_of_remote (omap as_remote_transfer messages).
Proof.
  induction messages as [|m rest IH]; [reflexivity|].
  change (m :: rest) with ([] ++ m :: rest) at 1.
  rewrite extract_messages_app, IH.
  change (extract_messages None []) with (@nil HyperlaneTransfer). cbn [app].
  change (omap as_remote_transfer (m :: rest))
    with (match as_remote_transfer m with
          | Some y => y :: omap as_remote_transfer rest
          | None => omap as_remote_transfer rest
          end).
  unfold extract_message, extract_remote_transfer, extract_bank_send, as_remote_transfer.
  destruct (String.eqb (TypeUrl m) url_MsgRemoteTransfer); [|reflexivity].
  destruct (MsgRemoteTransfer_Unmarshal (Value m)); reflexivity.
Qed.

(** X19: in a transaction whose memo is empty or does not parse as routing
    metadata, bank sends contribute nothing: the transfers extracted are
    exactly the MsgRemoteTransfer messages that decode, in order, the same
    messages [Verify] reads from a transaction body, with recipient and
    token id rendered as 0x-hex. *)
Theorem ExtractHyperlaneTransfers_without_memo (txn : Transaction) (tx : Tx)
    (body : TxBody) :
  tx_Tx txn = Some tx -> Body tx = Some body ->
  memo_routing txn = None ->
  ExtractHyperlaneTransfers txn
  = map transfer_of_remote (remote_transfers (Messages body)).
Proof.
  intros Htx Hbody Hmemo. unfold ExtractHyperlaneTransfers.
  rewrite Htx, Hbody, Hmemo, remote_transfers_omap. apply extract_messages_no_memo.
Qed.

(** X20: for a bech32 target address, the hex string that
    [FilterHyperlaneTransfersToAddress] compares recipients with is 0x
    followed by the hex rendering of the 32 bytes [parseAndPadAddress]
    returns for the address: padding the string with zeros agrees with
    padding the bytes. *)
Theorem targetHex_of_bech32 (targetAddress : string) (padded : HexAddress) :
  HasPrefix targetAddress "0x" = false ->
  parseAndPadAddress targetAddress = Ok padded ->
  targetHex_of targetAddress = "0x" +:+ EncodeToString padded.
Proof.
  intros Hprefix Hparse.
  apply parseAndPadAddress_Ok_inv in Hparse as (addr & Hdec & Hle & ->).
  unfold decode_address in Hdec. unfold targetHex_of. rewrite Hprefix in *. cbn [negb].
  destruct (AccAddressFromBech32 targetAddress) as [addr'|]; [|discriminate Hdec].
  injection Hdec as ->. cbn zeta.
  rewrite length_append, length_EncodeToString.
  change (String.length "0x") with 2.
  rewrite EncodeToString_app, EncodeToString_zeros.
  destruct (Nat.ltb_spec (2 + 2 * length addr) 66) as [Hlt|Hge].
  - replace (66 - (2 + 2 * length addr)) with (2 * (32 - length addr)) by lia.
    reflexivity.
  - replace (32 - length addr) with 0 by lia. reflexivity.
Qed.

End ClientProperties.

Section QueryProperties.
Context `{Ext : Externals}.
Variable GetTxsEvent : Z -> option (list TxResponse).
Variable Tx_Unmarshal : list byte -> option (Tx * string).

(** ** GetTransactionsByHeight *)

Lemma append_responses_at (height : Z) (responses : list TxResponse)
    (allTxs : list Transaction) :
  exists new,
    fold_left (append_response Tx_Unmarshal height) responses allTxs = allTxs ++ new
    /\ Forall (fun tx => tx_BlockHeight tx = height /\ tx_Tx tx <> None) new
    /\ length new <= length responses.
Proof.
  revert allTxs. induction responses as [|r rest IH]; intros allTxs; cbn [fold_left].
  - exists []. rewrite app_nil_r. repeat split; [constructor|reflexivity].
  - unfold append_response at 2.
    destruct (resp_Tx r) as [txAny|];
      [destruct (Tx_Unmarshal (Value txAny)) as [[decodedTx bodyMemo]|]|].
    + destruct (IH (allTxs ++
                    [ {| tx_Hash := resp_TxHash r; tx_BlockHeight := height;
                         tx_Memo := match Body decodedTx with
                                    | Some _ => bodyMemo
                                    | None => ""
                                    end;
                         tx_Tx := Some decodedTx |} ])) as (new & -> & Hnew & Hlen).
      eexists (_ :: new). rewrite <- app_assoc. split; [reflexivity|].
      split; [constructor; [cbn; split; [reflexivity|discriminate]|exact Hnew]|cbn; lia].
    + destruct (IH allTxs) as (new & -> & Hnew & Hlen). exists new.
      repeat split; [exact Hnew|cbn; lia].
    + destruct (IH allTxs) as (new & -> & Hnew & Hlen). exists new.
      repeat split; [exact Hnew|cbn; lia].
Qed.

Lemma query_heights_Some (count : nat) :
  forall height allTxs txs,
    query_heights GetTxsEvent Tx_Unmarshal count height allTxs = Some txs ->
    exists new,
      txs = allTxs ++ new
      /\ Forall (fun tx => (height <= tx_BlockHeight tx < height + Z.of_nat count)%Z
                           /\ tx_Tx tx <> None) new
      /\ StronglySorted (fun tx1 tx2 => (tx_BlockHeight tx1 <= tx_BlockHeight tx2)%Z) new.
Proof.
  induction count as [|count IH]; intros height allTxs txs; cbn [query_heights].
  - intros [= <-]. exists []. rewrite app_nil_r. repeat split; constructor.
  - destruct (GetTxsEvent height) as [responses|]; [|discriminate].
    destruct (append_responses_at height responses allTxs) as (here & -> & Hhere & _).
    intros H. apply IH in H as (later & -> & Hlater & Hsorted).
    exists (here ++ later). rewrite app_assoc. split; [reflexivity|]. split.
    + apply Forall_app. split.
      * eapply Forall_impl; [exact Hhere|]. cbn. intros tx [-> Htx]. split; [lia|exact Htx].
      * eapply Forall_impl; [exact Hlater|]. cbn. intros tx [Hh Htx]. split; [lia|exact Htx].
    + apply StronglySorted_app_2; [| |exact Hsorted].
      * intros tx1 tx2 H1 H2.
        rewrite Forall_forall in Hhere, Hlater.
        destruct (Hhere tx1 H1) as [-> _]. destruct (Hlater tx2 H2) as [Hh _]. lia.
      * clear -Hhere. induction Hhere as [|tx rest [Htx _] Hrest IH]; constructor; [exact IH|].
        eapply Forall_impl; [exact Hrest|]. cbn. intros tx' [-> _]. lia.
Qed.


(** X21: the transactions [GetTransactionsByHeight] returns lie in the
    height range asked for, come in ascending order of height, and each
    carries its decoded transaction; an empty range (toHeight below
    fromHeight) gives no transaction. *)
Theorem GetTransactionsByHeight_in_range_and_ordered (fromHeight toHeight : Z)
    (txs : list Transaction) :
  Client_GetTransactionsByHeight GetTxsEvent Tx_Unmarshal fromHeight toHeight = Some txs ->
  Forall (fun tx => (fromHeight <= tx_BlockHeight tx <= toHeight)%Z /\ tx_Tx tx <> None) txs
  /\ StronglySorted (fun tx1 tx2 => (tx_BlockHeight tx1 <= tx_BlockHeight tx2)%Z) txs
  /\ ((toHeight < fromHeight)%Z -> txs = []).
Proof.
  unfold Client_GetTransactionsByHeight. intros H.
  pose proof H as H'. apply query_heights_Some in H as (new & -> & Hnew & Hsorted).
  cbn [app]. split; [|split; [exact Hsorted|]].
  - eapply Forall_impl; [exact Hnew|]. cbn. intros tx [Hh Htx]. split; [lia|exact Htx].
  - intros Hlt. replace (Z.to_nat (toHeight - fromHeight + 1)) with 0 in H' by lia.
    cbn in H'. now injection H' as <-.
Qed.


End QueryProperties.

Section BankSendProperties.
Context `{Ext : Externals}.

(** ** ExtractBankSends and FilterTransactionsToAddress *)

Lemma extract_sends_from (messages : list Any) (sends : list BankSend) :
  fold_left extract_send messages sends = sends ++ fold_left extract_send messages [].
Proof.
  revert sends. induction messages as [|m rest IH]; intros sends; cbn [fold_left].
  - now rewrite app_nil_r.
  - rewrite IH, (IH (extract_send [] m)). unfold extract_send.
    destruct (String.eqb (TypeUrl m) url_MsgSend); [|reflexivity].
    destruct (MsgSend_Unmarshal (Value m)); [|reflexivity].
    cbn [app]. now rewrite <- app_assoc.
Qed.

Lemma extract_sends_elem (messages : list Any) (send : BankSend) :
  send ∈ fold_left extract_send messages [] ->
  exists anyMsg sendMsg,
    anyMsg ∈ messages /\ TypeUrl anyMsg = url_MsgSend
    /\ MsgSend_Unmarshal (Value anyMsg) = Some sendMsg
    /\ bs_To send = send_ToAddress sendMsg /\ bs_Amount send = send_Amount sendMsg.
Proof.
  induction messages as [|m rest IH]; cbn [fold_left]; [intros H; inversion H|].
  rewrite extract_sends_from. intros Hin. apply elem_of_app in Hin as [Hin|Hin].
  - unfold extract_send in Hin.
    destruct (String.eqb_spec (TypeUrl m) url_MsgSend) as [Hurl|]; [|inversion Hin].
    destruct (MsgSend_Unmarshal (Value m)) as [sendMsg|] eqn:Hsend; [|inversion Hin].
    apply list_elem_of_singleton in Hin as ->.
    exists m, sendMsg. repeat split; [left|exact Hurl|exact Hsend].
  - destruct (IH Hin) as (anyMsg & sendMsg & Hm & H). exists anyMsg, sendMsg.
    split; [now right|exact H].
Qed.

Lemma send_to_target_true (targetAddress : string) (sends : list BankSend) :
  send_to_target targetAddress sends = true ->
  exists send, send ∈ sends /\ bs_To send = targetAddress.
Proof.
  induction sends as [|send rest IH]; cbn [send_to_target]; [discriminate|].
  destruct (String.eqb_spec (bs_To send) targetAddress) as [Heq|].
  - intros _. exists send. split; [left|exact Heq].
  - intros H. destruct (IH H) as (s & Hin & Hs). exists s. split; [now right|exact Hs].
Qed.

Lemma transfer_to_target_from (target targetBech32 : string)
    (transfers : list HyperlaneTransfer) (transfer : HyperlaneTransfer) :
  transfer ∈ transfers -> ToLower (ht_From transfer) = targetBech32 ->
  transfer_to_target target targetBech32 transfers = true.
Proof.
  intros Hin Hfrom. induction transfers as [|t rest IH]; [inversion Hin|].
  cbn [transfer_to_target].
  destruct (_ || _ || _) eqn:Hany; [reflexivity|].
  inversion Hin; subst.
  - rewrite String.eqb_refl, orb_true_r in Hany. discriminate Hany.
  - now apply IH.
Qed.

(** X23: [FilterTransactionsToAddress] keeps a transaction only if one of
    its bank sends goes to exactly the target address. Such a transaction,
    when its memo gives routing metadata and its bank sends carry coins, is
    also kept by [FilterHyperlaneTransfersToAddress], whose loop sees the
    send as a transfer from the target. *)
Theorem bank_send_filter_within_transfer_filter (txs : list Transaction)
    (targetAddress : string) (tx : Transaction) :
  tx ∈ FilterTransactionsToAddress txs targetAddress ->
  (exists send, send ∈ ExtractBankSends tx /\ bs_To send = targetAddress)
  /\ (memo_routing tx <> None ->
      Forall (fun send => bs_Amount send <> []) (ExtractBankSends tx) ->
      tx ∈ FilterHyperlaneTransfersToAddress txs targetAddress).
Proof.
  unfold FilterTransactionsToAddress. rewrite list_elem_of_filter. intros [Hsend Hin].
  apply send_to_target_true in Hsend as (send & Hsend & Hto).
  split; [eauto|].
  intros Hmemo Hcoins.
  unfold FilterHyperlaneTransfersToAddress. apply list_elem_of_filter. split; [|exact Hin].
  rewrite Forall_forall in Hcoins. specialize (Hcoins send Hsend).
  unfold ExtractBankSends in Hsend. unfold ExtractHyperlaneTransfers.
  destruct (tx_Tx tx) as [t|]; [|inversion Hsend].
  destruct (Body t) as [body|]; [|inversion Hsend].
  apply extract_sends_elem in Hsend as (anyMsg & sendMsg & Hmsg & Hurl & Hdec & Hto' & Hamt).
  destruct (memo_routing tx) as [meta|]; [|now destruct Hmemo].
  apply list_elem_of_split in Hmsg as (pre & post & ->).
  rewrite extract_messages_app.
  destruct (send_Amount sendMsg) as [|coin0 coins] eqn:Hcoin; [congruence|].
  apply transfer_to_target_from
    with (transfer := {| ht_From := send_ToAddress sendMsg;
                         ht_To := rm_Recipient meta;
                         ht_Amount := Int_String (coin_Amount coin0);
                         ht_DestinationDomain := rm_DestinationDomain meta;
                         ht_TokenID := rm_TokenID meta;
                         ht_CustomHookMetadata := "" |}).
  - apply elem_of_app. right. apply elem_of_app. left.
    unfold extract_message, extract_remote_transfer, extract_bank_send.
    rewrite Hurl, Hdec, Hcoin. cbn. left.
  - cbn [ht_From]. congruence.
Qed.

End BankSendProperties.

(** * The further properties on the sample data *)

Lemma parseTokenID_roundtrip_witness :
  length (msg_TokenId Sample.message_for_full) = 32
  /\ EncodeToString (msg_TokenId Sample.message_for_full)
     = ToLower (TrimPrefix Sample.token_id "0x").
Proof.
  apply (proj1 (parseTokenID_roundtrip Sample.token_id
                  (msg_TokenId Sample.message_for_full))).
  reflexivity.
Defined.

Lemma Generate_one_message_per_route_witness :
  Forall2 (generated_for (Ext := Sample.externals) Sample.generator)
    [Scenario.consistent_route; Scenario.route_elsewhere]
    [Sample.message_for_full; Sample.message_elsewhere]
  /\ length [Sample.message_for_full; Sample.message_elsewhere] = 2.
Proof.
  apply (Generate_one_message_per_route (Ext := Sample.externals) Sample.generator
           (Sample.routes_of [Scenario.consistent_route; Scenario.route_elsewhere])).
  reflexivity.
Defined.

Lemma Generate_stops_at_first_bad_route_witness :
  Generate (Ext := Sample.externals) Sample.generator
    (Sample.routes_of [Scenario.consistent_route; Scenario.route_without_info;
                       Scenario.route_elsewhere])
  = Err (ErrNoRoutingInfo "NOINFO")
  /\ Generate (Ext := Sample.externals) Sample.generator
       (Sample.routes_of [Scenario.consistent_route; Scenario.route_bad_amount;
                          Scenario.route_elsewhere])
     = Err (ErrInvalidAmount "12x" "BADAMOUNT").
Proof.
  split.
  - destruct (Generate_stops_at_first_bad_route (Ext := Sample.externals)
                Sample.generator
                (Sample.routes_of [Scenario.consistent_route;
                                   Scenario.route_without_info;
                                   Scenario.route_elsewhere])
                [Scenario.consistent_route] [Scenario.route_elsewhere]
                Scenario.route_without_info) as [Hnone _].
    + reflexivity.
    + constructor; [|constructor]. exists Sample.message_for_full. reflexivity.
    + apply Hnone. reflexivity.
  - destruct (Generate_stops_at_first_bad_route (Ext := Sample.externals)
                Sample.generator
                (Sample.routes_of [Scenario.consistent_route;
                                   Scenario.route_bad_amount;
                                   Scenario.route_elsewhere])
                [Scenario.consistent_route] [Scenario.route_elsewhere]
                Scenario.route_bad_amount) as [_ Hamount].
    + reflexivity.
    + constructor; [|constructor]. exists Sample.message_for_full. reflexivity.
    + apply (Hamount Sample.route_info_no_amount); reflexivity.
Defined.

Lemma generated_message_matches_route_witness :
  MatchesRoute (Ext := Sample.externals) Sample.message_for_full Scenario.consistent_route
  = Ok true.
Proof.
  apply (generated_message_matches_route (Ext := Sample.externals) Sample.generator
           (Sample.routes_of [Scenario.consistent_route]) Scenario.consistent_route
           Sample.route_info_full Sample.message_for_full); reflexivity.
Defined.

Lemma MatchesRoute_fixes_the_transfer_witness :
  MatchesRoute (Ext := Sample.externals)
    {| msg_Sender := "celestia1other";
       msg_TokenId := msg_TokenId Sample.message_for_full;
       msg_DestinationDomain := msg_DestinationDomain Sample.message_for_full;
       msg_Recipient := msg_Recipient Sample.message_for_full;
       msg_Amount := msg_Amount Sample.message_for_full;
       msg_CustomHookMetadata := "{}" |} Scenario.consistent_route
  = Ok true.
Proof.
  rewrite (proj2 (MatchesRoute_fixes_the_transfer (Ext := Sample.externals)
                    Sample.message_for_full Sample.message_for_full
                    Scenario.consistent_route) "celestia1other" "{}").
  reflexivity.
Defined.

Lemma Verify_valid_iff_witness :
  length (remote_transfers (Ext := Sample.externals)
            [Sample.remote x01; Sample.remote x02]) = 2
  /\ Forall (fun route => exists routeInfo msg,
               hr_RouteInfo route = Some routeInfo
               /\ msg ∈ remote_transfers (Ext := Sample.externals)
                          [Sample.remote x01; Sample.remote x02]
               /\ MatchesRoute (Ext := Sample.externals) msg route = Ok true)
       [Scenario.consistent_route; Scenario.route_elsewhere].
Proof.
  edestruct (Verify_valid_iff (Ext := Sample.externals)
               (Sample.routes_of [Scenario.consistent_route; Scenario.route_elsewhere])
               {| BodyBytes := [x21] |}) as [Hvalid _].
  - reflexivity.
  - reflexivity.
  - apply Hvalid. reflexivity.
Defined.

Lemma Verify_error_count_witness :
  exists report,
    Verify (Ext := Sample.externals) (Sample.routes_of [Scenario.consistent_route])
      {| BodyBytes := [x21] |} = Ok report
    /\ length (Errors report) + MatchedCount report = 2
    /\ MatchedCount report <= TotalRoutes report
    /\ Warnings report = [].
Proof.
  eexists. split; [reflexivity|].
  apply (Verify_error_count (Ext := Sample.externals)
           (Sample.routes_of [Scenario.consistent_route]) {| BodyBytes := [x21] |}
           {| Messages := [Sample.remote x01; Sample.remote x02] |});
    reflexivity.
Defined.

Lemma Verify_message_order_irrelevant_witness :
  Verify (Ext := Scenario.externals_reordered)
    (Sample.routes_of [Scenario.consistent_route; Scenario.route_elsewhere])
    {| BodyBytes := [x21] |}
  = Verify (Ext := Scenario.externals_reordered)
      (Sample.routes_of [Scenario.consistent_route; Scenario.route_elsewhere])
      {| BodyBytes := [x23] |}.
Proof.
  apply (Verify_message_order_irrelevant (Ext := Scenario.externals_reordered)
           (Sample.routes_of [Scenario.consistent_route; Scenario.route_elsewhere])
           {| BodyBytes := [x21] |} {| BodyBytes := [x23] |}
           {| Messages := [Sample.remote x01; Sample.remote x02] |}
           {| Messages := [Sample.remote x02; Sample.remote x01] |}).
  - reflexivity.
  - reflexivity.
  - apply perm_swap.
Defined.

Lemma Verify_accepts_generated_witness :
  Verify (Ext := Sample.externals)
    (Sample.routes_of [Scenario.consistent_route; Scenario.route_elsewhere])
    {| BodyBytes := [x21] |}
  = Ok {| Valid := true; MatchedCount := 2; TotalRoutes := 2;
          Errors := []; Warnings := [] |}.
Proof.
  apply (Verify_accepts_generated (Ext := Sample.externals) Sample.generator
           (Sample.routes_of [Scenario.consistent_route; Scenario.route_elsewhere])
           [Sample.message_for_full; Sample.message_elsewhere]
           {| BodyBytes := [x21] |}
           {| Messages := [Sample.remote x01; Sample.remote x02] |}).
  - reflexivity.
  - reflexivity.
  - reflexivity.
  - constructor; [|constructor; [|constructor]];
      intros routeInfo amount Hinfo Hamount;
      injection Hinfo as <-; vm_compute in Hamount; injection Hamount as <-;
      reflexivity.
Defined.

Lemma ParseRoutes_total_witness :
  exists routes out,
    ParseRoutes (Ext := Sample.externals)
      (Sample.parser_of [Sample.good_tx; Sample.bad_tx; Sample.good_tx])
      "celestia1multisig" 100 100 = Ok (routes, out)
    /\ rs_TotalAmount routes
       = Int_String (sum_amounts (Ext := Sample.externals) (rs_Routes routes))
    /\ rs_MultisigAddr routes = "celestia1multisig".
Proof.
  eexists _, _. split; [reflexivity|].
  eapply (ParseRoutes_total (Ext := Sample.externals)
            (Sample.parser_of [Sample.good_tx; Sample.bad_tx; Sample.good_tx])
            "celestia1multisig" 100 100).
  reflexivity.
Defined.

Lemma ParseRoutes_route_fields_witness :
  exists routes out,
    ParseRoutes (Ext := Sample.externals)
      (Sample.parser_of [Sample.memo_tx; Sample.good_tx; Sample.bad_tx])
      "celestia1multisig" 100 100 = Ok (routes, out)
    /\ Forall (fun route =>
                 hr_From route = "celestia1multisig" /\ hr_Denom route = "utia"
                 /\ exists routeInfo,
                      hr_RouteInfo route = Some routeInfo
                      /\ (ri_Amount routeInfo <> "" -> hr_Amount route = ri_Amount routeInfo)
                      /\ expected_amount route routeInfo = hr_Amount route)
         (rs_Routes routes).
Proof.
  eexists _, _. split; [reflexivity|].
  eapply (ParseRoutes_route_fields (Ext := Sample.externals)
            (Sample.parser_of [Sample.memo_tx; Sample.good_tx; Sample.bad_tx])
            "celestia1multisig" 100 100).
  reflexivity.
Defined.

Lemma ParseRoutes_enforces_whitelist_witness :
  exists routes out,
    ParseRoutes (Ext := Sample.externals)
      (Scenario.parser_with (Some Scenario.whitelist) [Sample.good_tx; Sample.bad_tx])
      "celestia1multisig" 100 100 = Ok (routes, out)
    /\ length (rs_Routes routes) = 1
    /\ Forall (fun route => exists routeInfo,
                 hr_RouteInfo route = Some routeInfo
                 /\ ValidateRoute (Some Scenario.whitelist)
                      routeInfo = Ok tt)
         (rs_Routes routes).
Proof.
  eexists _, _. split; [reflexivity|]. split; [reflexivity|].
  eapply (ParseRoutes_enforces_whitelist (Ext := Sample.externals)
            (Scenario.parser_with (Some Scenario.whitelist) [Sample.good_tx; Sample.bad_tx])
            Scenario.whitelist "celestia1multisig" 100 100).
  - reflexivity.
  - reflexivity.
Defined.

Lemma ParseRoutes_filter_loses_nothing_witness :
  ParseRoutes (Ext := Sample.externals)
    (Sample.parser_of [Sample.memo_tx; Sample.good_tx; Sample.bad_tx])
    "celestia1multisig" 100 100
  = (st ← foldM (parse_tx (Ext := Sample.externals) None "celestia1multisig") parse_start
            [Sample.memo_tx; Sample.good_tx; Sample.bad_tx];
     Ok ({| rs_Routes := ps_routes st;
            rs_TotalAmount := Int_String (ps_totalAmount st);
            rs_MultisigAddr := "celestia1multisig" |}, ps_stdout st)).
Proof.
  apply (ParseRoutes_filter_loses_nothing (Ext := Sample.externals)
           (Sample.parser_of [Sample.memo_tx; Sample.good_tx; Sample.bad_tx])
           "celestia1multisig" 100 100).
  reflexivity.
Defined.

Lemma ParseRoutes_accounts_for_transfers_witness :
  exists routes out,
    ParseRoutes (Ext := Sample.externals)
      (Sample.parser_of [Sample.memo_tx; Sample.good_tx; Sample.bad_tx])
      "celestia1multisig" 100 100 = Ok (routes, out)
    /\ length (rs_Routes routes) + length out = 3.
Proof.
  eexists _, _. split; [reflexivity|].
  apply (ParseRoutes_accounts_for_transfers (Ext := Sample.externals)
           (Sample.parser_of [Sample.memo_tx; Sample.good_tx; Sample.bad_tx])
           "celestia1multisig" 100 100
           [Sample.memo_tx; Sample.good_tx; Sample.bad_tx]).
  - reflexivity.
  - reflexivity.
Defined.

Lemma LoadConfig_addresses_normalised_witness :
  exists c,
    LoadConfig (Ext := Sample.externals) (Some Sample.config_text) = Ok c
    /\ Domains (Whitelist c) !! 2340%N
       = Some [ "0x742d35cc6634c0532925a3b844bc9e7595f0beb0";
                "0x1111111111111111111111111111111111111111" ]
    /\ normalizeAddress "0x742d35cc6634c0532925a3b844bc9e7595f0beb0"
       = "0x742d35cc6634c0532925a3b844bc9e7595f0beb0".
Proof.
  eexists. split; [reflexivity|]. split; [reflexivity|].
  eapply (proj1 (LoadConfig_addresses_normalised (Ext := Sample.externals)
                   (Some Sample.config_text) _ eq_refl) 2340%N).
  - reflexivity.
  - left.
Defined.

Lemma ValidateRoute_accepts_only_normal_entries_witness :
  exists addresses entry,
    Domains (Whitelist Sample.test_config) !! 2340%N = Some addresses
    /\ entry ∈ addresses
    /\ entry = normalizeAddress Sample.evm_recipient
    /\ normalizeAddress entry = entry.
Proof.
  apply (ValidateRoute_accepts_only_normal_entries
           Sample.test_config (Sample.route_info_to 2340 Sample.evm_recipient)).
  reflexivity.
Defined.

Lemma ExtractHyperlaneTransfers_without_memo_witness :
  ExtractHyperlaneTransfers (Ext := Sample.externals) Sample.good_tx
  = map transfer_of_remote
      (remote_transfers (Ext := Sample.externals) [Sample.remote x03]).
Proof.
  apply (ExtractHyperlaneTransfers_without_memo (Ext := Sample.externals) Sample.good_tx
           {| Body := Some {| Messages := [Sample.remote x03] |} |}
           {| Messages := [Sample.remote x03] |}); reflexivity.
Defined.

Lemma targetHex_of_bech32_witness :
  targetHex_of (Ext := Sample.externals) Sample.bech32_recipient
  = "0x" +:+ EncodeToString (make 12 ++ Sample.address20).
Proof.
  apply (targetHex_of_bech32 (Ext := Sample.externals) Sample.bech32_recipient);
    reflexivity.
Defined.

Lemma GetTransactionsByHeight_in_range_and_ordered_witness :
  exists txs,
    Client_GetTransactionsByHeight Scenario.get_txs_event Scenario.unmarshal_tx 100 101
    = Some txs
    /\ length txs = 2
    /\ Forall (fun tx => (100 <= tx_BlockHeight tx <= 101)%Z /\ tx_Tx tx <> None) txs
    /\ StronglySorted (fun tx1 tx2 => (tx_BlockHeight tx1 <= tx_BlockHeight tx2)%Z) txs
    /\ ((101 < 100)%Z -> txs = []).
Proof.
  eexists. split; [reflexivity|]. split; [reflexivity|].
  apply (GetTransactionsByHeight_in_range_and_ordered
           Scenario.get_txs_event Scenario.unmarshal_tx 100 101).
  reflexivity.
Defined.


Lemma bank_send_filter_within_transfer_filter_witness :
  Sample.memo_tx
  ∈ FilterHyperlaneTransfersToAddress (Ext := Sample.externals)
      [Sample.good_tx; Sample.memo_tx] "celestia1multisig".
Proof.
  destruct (bank_send_filter_within_transfer_filter (Ext := Sample.externals)
              [Sample.good_tx; Sample.memo_tx] "celestia1multisig" Sample.memo_tx)
    as [_ Hkept].
  - apply list_elem_of_filter. split; [reflexivity|]. right. left.
  - apply Hkept.
    + discriminate.
    + constructor; [discriminate|constructor].
Defined.
